(** * smartmon.py: the S.M.A.R.T. textfile collector, embedded and verified

    A shallow embedding of [smartmon.py] (node-exporter textfile collector
    scripts).  The script calls [smartctl], parses three dialects of its
    free-text output and prints Prometheus series.

    Text.  A Python [str] is embedded as a Rocq [string]; the character of
    code [n] stands for the code point [n], so the embedding covers text
    whose code points are below 256.  The character classes below are the
    restrictions of Python's Unicode classes to that range.

    Effects.  [smartctl] is an oracle that answers from the list of
    invocations made so far and the current argument list; generators are
    computations that thread that log, accumulate the metrics yielded so
    far and may stop with an exception. *)

From Stdlib Require Import ZArith Ascii String DecimalString Sorting.Sorted Permutation.
From stdpp Require Import base option list strings gmap.

Local Open Scope string_scope.
Local Open Scope list_scope.

(** ** Python string operations *)

Module PyStr.

(** Code point of a character. *)
Definition ord (c : ascii) : nat := nat_of_ascii c.

(** [str.isspace] on one character, which is also the class [\s] of [re]
    for text patterns: TAB..CR, FS..US, SPACE, NEL and NBSP. *)
Definition isspace (c : ascii) : bool :=
  let n := ord c in
  (((9 <=? n) && (n <=? 13)) || ((28 <=? n) && (n <=? 32))
   || (n =? 133) || (n =? 160))%nat.

(** The class [\d] of [re]: below 256 the only decimal digits are 0..9. *)
Definition isdigit (c : ascii) : bool :=
  let n := ord c in ((48 <=? n) && (n <=? 57))%nat.

(** [str.lower] on one character: A..Z and the Latin-1 capitals
    U+00C0..U+00DE except the multiplication sign U+00D7. *)
Definition lower_char (c : ascii) : ascii :=
  let n := ord c in
  if (((65 <=? n) && (n <=? 90))
      || ((192 <=? n) && (n <=? 222) && negb (n =? 215)))%nat
  then ascii_of_nat (n + 32) else c.

Fixpoint lower (s : string) : string :=
  match s with
  | "" => ""
  | String c s' => String (lower_char c) (lower s')
  end.

Fixpoint lstrip (s : string) : string :=
  match s with
  | String c s' => if isspace c then lstrip s' else s
  | "" => ""
  end.

Fixpoint rstrip (s : string) : string :=
  match s with
  | "" => ""
  | String c s' =>
      match rstrip s' with
      | "" => if isspace c then "" else String c ""
      | r => String c r
      end
  end.

(** [s.strip()] *)
Definition strip (s : string) : string := rstrip (lstrip s).

(** [s.split(sep)] for a one-character separator: never the empty list. *)
Fixpoint split (sep : ascii) (s : string) : list string :=
  match s with
  | "" => [""]
  | String c s' =>
      if Ascii.eqb c sep then "" :: split sep s'
      else match split sep s' with
           | x :: xs => String c x :: xs
           | [] => [String c ""]
           end
  end.

(** [s.split(sep, 1)[0]]: the text before the first separator. *)
Fixpoint split1_head (sep : ascii) (s : string) : string :=
  match s with
  | "" => ""
  | String c s' => if Ascii.eqb c sep then "" else String c (split1_head sep s')
  end.

(** [s.partition(sep)[2]]: the text after the first separator, empty
    when there is none. *)
Fixpoint partition_tail (sep : ascii) (s : string) : string :=
  match s with
  | "" => ""
  | String c s' => if Ascii.eqb c sep then s' else partition_tail sep s'
  end.

(** [s.split()]: maximal runs of non-whitespace. *)
Fixpoint split_ws_aux (cur : option string) (s : string) : list string :=
  match s with
  | "" => match cur with Some w => [w] | None => [] end
  | String c s' =>
      if isspace c
      then match cur with
           | Some w => w :: split_ws_aux None s'
           | None => split_ws_aux None s'
           end
      else split_ws_aux (Some (match cur with
                               | Some w => w +:+ String c ""
                               | None => String c ""
                               end)) s'
  end.

Definition split_ws (s : string) : list string := split_ws_aux None s.

(** [sep.join(l)] *)
Fixpoint join (sep : string) (l : list string) : string :=
  match l with
  | [] => ""
  | [x] => x
  | x :: xs => x +:+ sep +:+ join sep xs
  end.

(** [s.startswith(p)] *)
Fixpoint startswith (p s : string) : bool :=
  match p, s with
  | "", _ => true
  | String a p', String b s' => Ascii.eqb a b && startswith p' s'
  | String _ _, "" => false
  end.

(** [s[n:]] *)
Fixpoint drop_chars (n : nat) (s : string) : string :=
  match n, s with
  | O, _ => s
  | S n', String _ s' => drop_chars n' s'
  | S _, "" => ""
  end.

(** [s[0:-1]]: all but the last character. *)
Fixpoint drop_last (s : string) : string :=
  match s with
  | "" => ""
  | String c "" => ""
  | String c s' => String c (drop_last s')
  end.

(** [s.replace(old, new)] for a non-empty [old]: leftmost occurrences,
    not overlapping.  [skip] counts the characters of an occurrence that
    was just replaced and are still to be passed over. *)
Fixpoint replace_aux (old new : string) (skip : nat) (s : string) : string :=
  match s with
  | "" => ""
  | String c s' =>
      match skip with
      | S k => replace_aux old new k s'
      | O =>
          if startswith old s
          then new +:+ replace_aux old new (String.length old - 1) s'
          else String c (replace_aux old new 0 s')
      end
  end.

Definition replace (old new s : string) : string := replace_aux old new 0 s.

(** [re.sub(r'[\t\x20]+', ' ', s)]: every maximal run of TAB and SPACE
    becomes one SPACE. *)
Definition is_blank (c : ascii) : bool :=
  Ascii.eqb c "009"%char || Ascii.eqb c " "%char.

Fixpoint collapse_blanks_aux (in_run : bool) (s : string) : string :=
  match s with
  | "" => ""
  | String c s' =>
      if is_blank c
      then if in_run then collapse_blanks_aux true s'
           else String " " (collapse_blanks_aux true s')
      else String c (collapse_blanks_aux false s')
  end.

Definition collapse_blanks (s : string) : string := collapse_blanks_aux false s.

End PyStr.

(** ** Regular expressions

    The fragment of [re] the script uses: character classes, sequence,
    alternation, greedy and lazy repetition of one character class,
    capturing groups and the anchors [^] and [$] with or without
    [re.MULTILINE].  Matching is by backtracking, in the order [re] tries
    the alternatives, so the captures are the ones [re] reports. *)

Module Re.

Inductive regex : Type :=
| Empty
| Class (p : ascii -> bool)
| Seq (r1 r2 : regex)
| Alt (r1 r2 : regex)
| Repeat (greedy : bool) (min : nat) (p : ascii -> bool)
| Group (n : nat) (r : regex)
| Bol (multiline : bool)
| Eol (multiline : bool).

(** Group number to captured text, innermost-latest first. *)
Definition captures := list (nat * string).

(** A continuation receives the character before the position (none at
    the start of the text), the text from the position on, and the
    captures so far. *)
Definition cont := option ascii -> string -> captures -> option captures.

Definition newline : ascii := "010"%char.

Definition at_bol (multiline : bool) (prev : option ascii) : bool :=
  match prev with
  | None => true
  | Some c => multiline && Ascii.eqb c newline
  end.

Definition at_eol (multiline : bool) (s : string) : bool :=
  match s with
  | "" => true
  | String c "" => Ascii.eqb c newline
  | String c _ => multiline && Ascii.eqb c newline
  end.

(** [p{min,}]: take as many as possible, then give back one at a time. *)
Fixpoint repeat_greedy (p : ascii -> bool) (min : nat) (k : cont)
    (prev : option ascii) (s : string) (caps : captures) : option captures :=
  let stop := match min with O => k prev s caps | S _ => None end in
  match s with
  | String c s' =>
      if p c
      then match repeat_greedy p (pred min) k (Some c) s' caps with
           | Some r => Some r
           | None => stop
           end
      else stop
  | "" => stop
  end.

(** [p{min,}?]: take as few as possible, then one more at a time. *)
Fixpoint repeat_lazy (p : ascii -> bool) (min : nat) (k : cont)
    (prev : option ascii) (s : string) (caps : captures) : option captures :=
  let more :=
    match s with
    | String c s' =>
        if p c then repeat_lazy p (pred min) k (Some c) s' caps else None
    | "" => None
    end in
  match min with
  | O => match k prev s caps with
         | Some r => Some r
         | None => more
         end
  | S _ => more
  end.

Fixpoint run (r : regex) (k : cont)
    (prev : option ascii) (s : string) (caps : captures) : option captures :=
  match r with
  | Empty => k prev s caps
  | Class p =>
      match s with
      | String c s' => if p c then k (Some c) s' caps else None
      | "" => None
      end
  | Seq r1 r2 => run r1 (run r2 k) prev s caps
  | Alt r1 r2 =>
      match run r1 k prev s caps with
      | Some c => Some c
      | None => run r2 k prev s caps
      end
  | Repeat true min p => repeat_greedy p min k prev s caps
  | Repeat false min p => repeat_lazy p min k prev s caps
  | Group n r' =>
      run r'
        (fun prev' s' caps' =>
           k prev' s'
             ((n, String.substring 0 (String.length s - String.length s') s)
                :: caps'))
        prev s caps
  | Bol ml => if at_bol ml prev then k prev s caps else None
  | Eol ml => if at_eol ml s then k prev s caps else None
  end.

Definition accept : cont := fun _ _ caps => Some caps.

(** [pattern.match(s)]: at the start of the text only. *)
Definition re_match (r : regex) (s : string) : option captures :=
  run r accept None s [].

(** [pattern.search(s)]: the leftmost position where the pattern matches. *)
Fixpoint search_from (r : regex) (prev : option ascii) (s : string)
    : option captures :=
  match run r accept prev s [] with
  | Some c => Some c
  | None =>
      match s with
      | String c s' => search_from r (Some c) s'
      | "" => None
      end
  end.

Definition re_search (r : regex) (s : string) : option captures :=
  search_from r None s.

(** [m.group(n)] for a group that took part in the match. *)
Fixpoint group (n : nat) (caps : captures) : option string :=
  match caps with
  | [] => None
  | (n', x) :: caps' => if Nat.eqb n' n then Some x else group n caps'
  end.

(** Pattern builders. *)
Definition chr (c : ascii) : regex := Class (Ascii.eqb c).

Fixpoint lit (s : string) : regex :=
  match s with
  | "" => Empty
  | String c s' => Seq (chr c) (lit s')
  end.

Fixpoint seq (rs : list regex) : regex :=
  match rs with
  | [] => Empty
  | r :: rs' => Seq r (seq rs')
  end.

(** [.] without [re.DOTALL] *)
Definition dot (c : ascii) : bool := negb (Ascii.eqb c newline).

End Re.

(** ** The csv reader

    [csv.reader] of the dialect the script asks for: delimiter SPACE,
    quote character the double quote, doubled quotes inside quoted
    fields, no escape character, not strict.  The states and the
    transitions are those of the reader's character automaton; a record
    ends when the automaton is back in [START_RECORD] at the end of a
    line, so a quoted field left open runs on into the next line. *)

Module Csv.

Inductive parser_state :=
| START_RECORD | START_FIELD | IN_FIELD | IN_QUOTED_FIELD
| QUOTE_IN_QUOTED_FIELD | EAT_CRNL.

Record reader := {
  state : parser_state;
  field : string;           (* the field being read *)
  fields : list string      (* the fields of the record read so far *)
}.

Definition delimiter : ascii := " "%char.
Definition quotechar : ascii := "034"%char.
Definition cr : ascii := "013"%char.
Definition lf : ascii := "010"%char.

(** [csv.field_size_limit()] *)
Definition field_limit : N := 131072.

Definition is_eol_char (c : ascii) : bool := Ascii.eqb c lf || Ascii.eqb c cr.

(** [csv.Error] is the only failure of the reader. *)
Definition parse_add_char (rd : reader) (c : ascii) : option reader :=
  if (field_limit <=? N.of_nat (String.length (field rd)))%N then None
  else Some {| state := state rd;
               field := field rd +:+ String c "";
               fields := fields rd |}.

Definition parse_save_field (rd : reader) : reader :=
  {| state := state rd; field := ""; fields := fields rd ++ [field rd] |}.

Definition set_state (st : parser_state) (rd : reader) : reader :=
  {| state := st; field := field rd; fields := fields rd |}.

(** One step of the automaton on a character of the line. *)
Definition process_char (rd : reader) (c : ascii) : option reader :=
  match state rd with
  | START_RECORD | START_FIELD =>
      if is_eol_char c then
        match state rd with
        | START_RECORD => Some (set_state EAT_CRNL rd)
        | _ => Some (set_state EAT_CRNL (parse_save_field rd))
        end
      else if Ascii.eqb c quotechar then Some (set_state IN_QUOTED_FIELD rd)
      else if Ascii.eqb c delimiter
           then Some (set_state START_FIELD (parse_save_field rd))
      else set_state IN_FIELD <$> parse_add_char rd c
  | IN_FIELD =>
      if is_eol_char c then Some (set_state EAT_CRNL (parse_save_field rd))
      else if Ascii.eqb c delimiter
           then Some (set_state START_FIELD (parse_save_field rd))
      else parse_add_char rd c
  | IN_QUOTED_FIELD =>
      if Ascii.eqb c quotechar then Some (set_state QUOTE_IN_QUOTED_FIELD rd)
      else parse_add_char rd c
  | QUOTE_IN_QUOTED_FIELD =>
      if Ascii.eqb c quotechar
      then set_state IN_QUOTED_FIELD <$> parse_add_char rd c
      else if Ascii.eqb c delimiter
           then Some (set_state START_FIELD (parse_save_field rd))
      else if is_eol_char c
           then Some (set_state EAT_CRNL (parse_save_field rd))
      else set_state IN_FIELD <$> parse_add_char rd c
  | EAT_CRNL =>
      if is_eol_char c then Some rd else None
  end.

(** The step at the end of a line. *)
Definition process_eol (rd : reader) : reader :=
  match state rd with
  | START_RECORD => rd
  | START_FIELD | IN_FIELD | QUOTE_IN_QUOTED_FIELD =>
      set_state START_RECORD (parse_save_field rd)
  | IN_QUOTED_FIELD => rd
  | EAT_CRNL => set_state START_RECORD rd
  end.

Fixpoint process_line (rd : reader) (line : string) : option reader :=
  match line with
  | "" => Some (process_eol rd)
  | String c line' =>
      match process_char rd c with
      | Some rd' => process_line rd' line'
      | None => None
      end
  end.

Definition parse_reset : reader :=
  {| state := START_RECORD; field := ""; fields := [] |}.

(** The records the reader yields over the given lines, and whether the
    iteration then stops with [csv.Error] instead of running out. *)
Fixpoint read_records (rd : reader) (lines : list string)
    : list (list string) * bool :=
  match lines with
  | [] =>
      match state rd, field rd with
      | IN_QUOTED_FIELD, _ | _, String _ _ =>
          ([fields (parse_save_field rd)], false)
      | _, _ => ([], false)
      end
  | line :: lines' =>
      match process_line rd line with
      | None => ([], true)
      | Some rd' =>
          match state rd' with
          | START_RECORD =>
              let '(rows, failed) := read_records parse_reset lines' in
              (fields rd' :: rows, failed)
          | _ => read_records rd' lines'
          end
      end
  end.

Definition reader_rows (lines : list string) : list (list string) * bool :=
  read_records parse_reset lines.

End Csv.

Example csv_plain : Csv.reader_rows ["1 Raw - 36 (Min/Max 24/40)"; ""; "x"]
  = ([["1"; "Raw"; "-"; "36"; "(Min/Max"; "24/40)"]; []; ["x"]], false).
Proof. reflexivity. Qed.

(** ** Python values, dictionaries and generators *)

(** The Python objects the script stores in dictionaries and metrics. *)
Inductive PyVal :=
| PNone
| PBool (b : bool)
| PInt (z : Z)
| PStr (s : string)
| PList (l : list string).

#[global] Instance PyVal_eq_dec : EqDecision PyVal.
Proof. solve_decision. Defined.

(** The exceptions the script can stop with. *)
Inductive exn :=
| CalledProcessError     (* smartctl exited non-zero under check=True *)
| AttributeError         (* an attribute of None *)
| KeyError
| ValueError
| IndexError
| TypeError
| CsvError               (* csv.Error *)
| SystemExit             (* argparse rejected the arguments *)
| InvalidOperation.      (* decimal could not read the value *)

#[global] Instance exn_eq_dec : EqDecision exn.
Proof. solve_decision. Defined.

(** A [dict] with [str] keys: the bindings in insertion order, every
    key bound once. *)
Definition dict (V : Type) : Type := list (string * V).

Fixpoint dict_get {V} (k : string) (d : dict V) : option V :=
  match d with
  | [] => None
  | (k', v) :: d' => if String.eqb k' k then Some v else dict_get k d'
  end.

(** [d[k] = v]: an existing key keeps its place. *)
Fixpoint dict_set {V} (k : string) (v : V) (d : dict V) : dict V :=
  match d with
  | [] => [(k, v)]
  | (k', v') :: d' =>
      if String.eqb k' k then (k, v) :: d' else (k', v') :: dict_set k v d'
  end.

(** [d.update(items)], which is also how [{**d, **items}] and
    [dict(items)] fill a dictionary. *)
Definition dict_update {V} (d : dict V) (items : list (string * V)) : dict V :=
  fold_left (fun acc kv => dict_set kv.1 kv.2 acc) items d.

Definition dict_of_items {V} (items : list (string * V)) : dict V :=
  dict_update [] items.

(** Two dictionaries are the same mapping (Python's [==] on them) when
    every key looks up alike. *)
Definition same_mapping {V} (d1 d2 : dict V) : Prop :=
  forall k, dict_get k d1 = dict_get k d2.

(** What a generator has done when it stops: the items it yielded, in
    order, and either the exception that ended it or its result. *)
Definition Out (Y A : Type) : Type := list Y * (exn + A).

Definition ret {Y A} (a : A) : Out Y A := ([], inr a).
Definition raise {Y A} (e : exn) : Out Y A := ([], inl e).
Definition yield {Y} (y : Y) : Out Y unit := ([y], inr tt).

Definition bind {Y A B} (m : Out Y A) (k : A -> Out Y B) : Out Y B :=
  match m with
  | (ys, inl e) => (ys, inl e)
  | (ys, inr a) => let '(ys', r) := k a in (ys ++ ys', r)
  end.

Notation "x <- m ;; k" := (bind m (fun x => k))
  (at level 100, m at next level, right associativity).
Notation "m ;;; k" := (bind m (fun _ => k))
  (at level 100, right associativity).

(** [for x in xs: body], the body threading a value of its own. *)
Fixpoint for_each {Y X S} (body : S -> X -> Out Y S) (st : S) (xs : list X)
    : Out Y S :=
  match xs with
  | [] => ret st
  | x :: xs' => st' <- body st x ;; for_each body st' xs'
  end.

Definition yielded {Y A} (o : Out Y A) : list Y := o.1.
Definition outcome {Y A} (o : Out Y A) : exn + A := o.2.

(** ** The data model of the script *)

Definition device_info_re : Re.regex :=
  Re.seq [ Re.Bol false;
           Re.Group 1 (Re.Repeat false 1 (fun c => negb (Ascii.eqb c ":"%char)));
           Re.Seq (Re.Alt (Re.Seq (Re.Class PyStr.isspace) (Re.lit "is"))
                          Re.Empty)
                  (Re.chr ":"%char);
           Re.Repeat true 0 PyStr.isspace;
           Re.Group 2 (Re.Repeat true 0 Re.dot);
           Re.Eol false ].

Definition ata_error_count_re : Re.regex :=
  Re.seq [ Re.Bol true; Re.lit "Error ";
           Re.Group 1 (Re.Repeat true 1 PyStr.isdigit);
           Re.lit " ["; Re.Repeat true 1 PyStr.isdigit; Re.lit "] occurred" ].

Definition self_test_re : Re.regex :=
  Re.seq [ Re.Bol true; Re.lit "SMART"; Re.Repeat true 0 Re.dot;
           Re.Group 1 (Re.Alt (Re.lit "PASSED") (Re.lit "OK"));
           Re.Eol true ].

(** The pattern [^(\d+)] of [collect_ata_metrics]. *)
Definition raw_value_re : Re.regex :=
  Re.seq [ Re.Bol false; Re.Group 1 (Re.Repeat true 1 PyStr.isdigit) ].

Definition device_info_map : dict string :=
  [ ("Vendor", "vendor"); ("Product", "product"); ("Revision", "revision");
    ("Logical Unit id", "lun_id"); ("Model Family", "model_family");
    ("Device Model", "device_model"); ("Serial Number", "serial_number");
    ("Firmware Version", "firmware_version") ].

Definition smart_attributes_whitelist : gset string :=
  {[ "airflow_temperature_cel"; "command_timeout"; "current_pending_sector";
     "end_to_end_error"; "erase_fail_count_total"; "g_sense_error_rate";
     "hardware_ecc_recovered"; "host_reads_mib"; "host_reads_32mib";
     "host_writes_mib"; "host_writes_32mib"; "load_cycle_count";
     "lifetime_writes_gib"; "media_wearout_indicator"; "wear_leveling_count";
     "nand_writes_1gib"; "offline_uncorrectable"; "power_cycle_count";
     "power_on_hours"; "program_fail_count"; "raw_read_error_rate";
     "reallocated_event_count"; "reallocated_sector_ct"; "reported_uncorrect";
     "sata_downshift_count"; "seek_error_rate"; "spin_retry_count";
     "spin_up_time"; "start_stop_count"; "temperature_case";
     "temperature_celsius"; "temperature_internal"; "total_bad_block";
     "total_lbas_read"; "total_lbas_written"; "total_writes_gib";
     "total_reads_gib"; "udma_crc_error_count"; "unsafe_shutdown_count";
     "unexpect_power_loss_ct"; "workld_host_reads_perc";
     "workld_media_wear_indic"; "workload_minutes" ]}.

#[global] Typeclasses Opaque smart_attributes_whitelist.

Record Metric := {
  name : string;
  labels : dict string;
  value : PyVal
}.

(** The field names of [SmartAttribute]. *)
Definition SmartAttribute_fields : list string :=
  [ "id"; "name"; "flag"; "value"; "worst"; "threshold"; "type"; "updated";
    "when_failed"; "raw_value" ].

(** A device of the scan listing; [type] is [opts.type], which argparse
    leaves [None] when the line has no [-d] option. *)
Record Device := {
  path : string;
  type : option string
}.

(** [device.base_labels] *)
Definition base_labels (d : Device) : exn + dict string :=
  match type d with
  | None => inl AttributeError
  | Some t =>
      let idx := PyStr.partition_tail "+"%char t in
      inr [ ("device", path d);
            ("disk", match idx with "" => "0" | _ => idx end) ]
  end.

(** [device.smartctl_select()]; the entry for [type] is [None] when the
    device has none. *)
Definition smartctl_select (d : Device) : list (option string) :=
  [ Some "--device"; type d; Some (path d) ].

Definition metric_key (metric : Metric) (prefix : string) : string :=
  prefix +:+ name metric.

(** ** The parsers, as functions of the text [smartctl] printed *)

(** The body of [device_info] after the call: the lines after the
    three-line banner that match [device_info_re], as [m.groups()]. *)
Definition device_info_groups (line : string) : option (string * string) :=
  caps ← Re.re_match device_info_re line;
  Some (default "" (Re.group 1 caps), default "" (Re.group 2 caps)).

Definition device_info_of (out : string) : list (string * string) :=
  let info_lines := drop 3 (PyStr.split Re.newline (PyStr.strip out)) in
  omap device_info_groups info_lines.

(** The set comprehension of [device_smart_capabilities] and the two
    membership tests on it. *)
Definition smart_support_state (groups : list (string * string)) : gset string :=
  list_to_set
    (map (fun g => PyStr.split1_head " "%char g.2)
         (filter (fun g => g.1 = "SMART support") groups)).

Definition capabilities_of (groups : list (string * string)) : bool * bool :=
  let state := smart_support_state groups in
  (bool_decide ("Available" ∈ state), bool_decide ("Enabled" ∈ state)).

(** The label dictionary of the [device_info] metric. *)
Definition device_info_labels (base : dict string)
    (groups : list (string * string)) : dict string :=
  let values := dict_of_items groups in
  dict_update (dict_update [] base)
    (dict_of_items
       (omap (fun kv => x ← dict_get kv.1 values; Some (kv.2, x))
             device_info_map)).

(** [bool(self_test_re.search(out))] *)
Definition self_assessment_passed (out : string) : bool :=
  bool_decide (is_Some (Re.re_search self_test_re out)).

(** The value of [device_errors]: group 1 of the first match, else the
    integer 0. *)
Definition error_count_of (error_log : string) : PyVal :=
  match Re.re_search ata_error_count_re error_log with
  | Some caps => from_option PStr PNone (Re.group 1 caps)
  | None => PInt 0
  end.

(** *** ATA attribute table *)

(** [csv.DictReader.__next__] on one record that is not empty: the
    field names zipped with the record, the surplus under [restkey], the
    missing names bound to [restval], which is [None]. *)
Definition dict_reader_row (fieldnames : list string) (restkey : string)
    (row : list string) : dict PyVal :=
  let d := dict_of_items (zip fieldnames (map PStr row)) in
  let lf := length fieldnames in
  let lr := length row in
  if (lf <? lr)%nat then dict_set restkey (PList (drop lf row)) d
  else dict_update d (map (fun key => (key, PNone)) (drop lr fieldnames)).

(** [device.base_labels] where a generator reads the property. *)
Definition read_base_labels {Y} (device : Device) : Out Y (dict string) :=
  match base_labels device with
  | inl e => raise e
  | inr base => ret base
  end.

(** [entry[key]] *)
Definition getitem {Y} (key : string) (entry : dict PyVal) : Out Y PyVal :=
  match dict_get key entry with
  | Some v => ret v
  | None => raise KeyError
  end.

(** The body of the loop of [collect_ata_metrics] for one entry; [seen]
    is the set of names already reported, and the result is that set
    after the entry. *)
Definition ata_entry (device : Device) (seen : gset string)
    (entry : dict PyVal) : Out Metric (gset string) :=
  n <- getitem "name" entry ;;
  match n with
  | PStr n =>
      let entry := dict_set "name" (PStr (PyStr.lower n)) entry in
      let name := PyStr.lower n in
      if decide (name ∉ smart_attributes_whitelist) then ret seen
      else
        raw <- getitem "raw_value" entry ;;
        match raw with
        | PList tokens =>
            match Re.re_match raw_value_re (PyStr.join " " tokens) with
            | None => ret seen
            | Some m =>
                let entry :=
                  dict_set "raw_value"
                    (from_option PStr PNone (Re.group 1 m)) entry in
                t <- getitem "threshold" entry ;;
                let entry :=
                  if decide (t = PStr "---")
                  then dict_set "threshold" (PStr "0") entry
                  else entry in
                if decide (name ∈ smart_attributes_whitelist ∧ name ∉ seen)
                then
                  base <- read_base_labels device ;;
                  let labels := dict_update [("name", name)] base in
                  for_each
                    (fun _ col =>
                       v <- getitem col entry ;;
                       yield {| name := "attr_" +:+ col;
                                labels := labels; value := v |})
                    tt ["value"; "worst"; "threshold"; "raw_value"] ;;;
                  ret ({[ name ]} ∪ seen)
                else ret seen
            end
        | _ => raise TypeError          (* join needs an iterable of str *)
        end
  | _ => raise AttributeError           (* None has no lower() *)
  end.

(** The entries [csv.DictReader] yields: empty records are skipped. *)
Definition dict_reader_entries (rows : list (list string)) : list (dict PyVal) :=
  map (dict_reader_row (take 9 SmartAttribute_fields) "raw_value")
      (filter (fun row => row ≠ []) rows).

(** [collect_ata_metrics] after the call, on the text of
    [smartctl --attributes]: the records the csv reader yields over the
    lines of the table, then the loop over their entries.  The reader
    fails, if it does, when the loop asks for the record after the ones
    it could read. *)
Definition ata_table (attributes : string) : list (list string) * bool :=
  let attributes := PyStr.collapse_blanks attributes in
  let attribute_lines :=
    drop 7 (PyStr.split Re.newline (PyStr.strip attributes)) in
  Csv.reader_rows (map PyStr.strip attribute_lines).

Definition ata_metrics_of (device : Device) (attributes : string)
    : Out Metric unit :=
  let '(rows, failed) := ata_table attributes in
  for_each (ata_entry device) ∅ (dict_reader_entries rows) ;;;
  if failed then raise CsvError else ret tt.

(** *** NVMe attribute block *)

(** The dispatch of [collect_nvme_metrics] on one label. *)
Definition nvme_metric (label value : string) : option (string * string) :=
  if String.eqb label "Available Spare"
  then Some ("available_spare_ratio", PyStr.drop_last value)
  else if String.eqb label "Available Spare Threshold"
  then Some ("available_spare_threshold_ratio", PyStr.drop_last value)
  else if String.eqb label "Percentage Used"
  then Some ("percentage_used_ratio", PyStr.drop_last value)
  else if String.eqb label "Power Cycle"
  then Some ("power_cycles_total", value)
  else if String.eqb label "Power On Hours"
  then Some ("power_on_hours_total", PyStr.replace "," "" value)
  else if String.eqb label "Temperature"
  then Some ("temperature_celcius", PyStr.replace " Celsius" "" value)
  else if String.eqb label "Unsafe Shutdowns"
  then Some ("unsafe_shutdowns_total", value)
  else if String.eqb label "Media and Data Integrity Errors"
  then Some ("media_errors_total", value)
  else if String.eqb label "Error Information Log Entries"
  then Some ("num_err_log_entries_total", value)
  else if String.eqb label "Warning Comp. Temperature Time"
  then Some ("warning_temperature_time_total", value)
  else if String.eqb label "Critical Comp. Temperature Time"
  then Some ("critical_temperature_time_total", value)
  else None.

(** The body of the loop of [collect_nvme_metrics] for one line: the
    unpacking [label, value = line.split(':')] needs exactly two parts. *)
Definition nvme_line (device : Device) (line : string) : Out Metric unit :=
  match PyStr.split ":"%char line with
  | [label; value] =>
      match nvme_metric label value with
      | Some (n, v) =>
          base <- read_base_labels device ;;
          yield {| name := n; labels := base; value := PStr v |}
      | None => ret tt
      end
  | _ => raise ValueError
  end.

Definition nvme_lines (attributes : string) : list string :=
  drop 6 (PyStr.split Re.newline
            (PyStr.strip (PyStr.collapse_blanks attributes))).

(** [collect_nvme_metrics] after the call. *)
Definition nvme_metrics_of (device : Device) (attributes : string)
    : Out Metric unit :=
  for_each (fun _ line => nvme_line device line) tt (nvme_lines attributes).

(** ** Running [smartctl] *)

(** The arguments of one invocation, after the program name. *)
Definition call : Type := list string.

(** What an invocation gives back: whether the exit status was zero and
    the decoded standard output. *)
Record completed := {
  exit_ok : bool;
  stdout : string
}.

(** A generator that runs commands: from the invocations made before it
    to the invocations made when it stops, and what it did. *)
Definition Gen (Y A : Type) : Type := list call -> list call * Out Y A.

Definition lift {Y A} (o : Out Y A) : Gen Y A := fun log => (log, o).

Definition gbind {Y A B} (m : Gen Y A) (k : A -> Gen Y B) : Gen Y B :=
  fun log =>
    match m log with
    | (log', (ys, inl e)) => (log', (ys, inl e))
    | (log', (ys, inr a)) =>
        let '(log'', (ys', r)) := k a log' in (log'', (ys ++ ys', r))
    end.

Notation "x <~ m ;; k" := (gbind m (fun x => k))
  (at level 100, m at next level, right associativity).
Notation "m ~;; k" := (gbind m (fun _ => k))
  (at level 100, right associativity).

Fixpoint gfor_each {Y X} (body : X -> Gen Y unit) (xs : list X) : Gen Y unit :=
  match xs with
  | [] => lift (ret tt)
  | x :: xs' => body x ~;; gfor_each body xs'
  end.

Definition get_base_labels {Y} (device : Device) : Gen Y (dict string) :=
  lift (read_base_labels device).

Section Collector.

(** The environment of a run: [smartctl] answers from the invocations
    made so far and the arguments; [shlex_split] is
    [shlex.split(line, comments=True)] and fails on unbalanced quoting;
    [parse_device_args] is the [argparse] parser of [find_devices], which
    gives [opts.type] or exits; [decimal_str] is
    [str(decimal.Decimal(text))], which fails on text that is no number. *)
Variable smartctl : list call -> call -> completed.
Variable shlex_split : string -> option (list string).
Variable parse_device_args : list string -> option (option string).
Variable decimal_str : string -> option string.

(** [smart_ctl]: run [smartctl] on the arguments; under [check] a
    non-zero exit is [CalledProcessError].  An argument that is [None]
    stops [subprocess.run] before anything is run.  The oracle answers
    for invocations that can be made and whose output is UTF-8 text: an
    argument that holds a NUL character ([ValueError], nothing is run)
    and output that does not decode ([UnicodeDecodeError]) are outside
    the model. *)
Definition smart_ctl {Y} (args : list (option string)) (check : bool)
    : Gen Y string :=
  fun log =>
    match mapM id args with
    | None => (log, raise TypeError)
    | Some argv =>
        let r := smartctl log argv in
        (log ++ [argv],
         if check && negb (exit_ok r) then raise CalledProcessError
         else ret (stdout r))
    end.

(** [smart_ctl_version] *)
Definition smart_ctl_version {Y} : Gen Y string :=
  out <~ smart_ctl [Some "-V"] true ;;
  lift (match PyStr.split Re.newline out with
        | line :: _ =>
            match PyStr.split_ws line with
            | _ :: v :: _ => ret v
            | _ => raise IndexError
            end
        | [] => raise IndexError
        end).

(** The loop of [find_devices] over the lines of the scan listing. *)
Definition find_devices_line (device : string) : Out Device unit :=
  let device := PyStr.strip device in
  match device with
  | "" => ret tt
  | _ =>
      match shlex_split device with
      | None => raise ValueError
      | Some [] => ret tt
      | Some (tok :: toks) =>
          match parse_device_args toks with
          | None => raise SystemExit
          | Some ty => yield {| path := tok; type := ty |}
          end
      end
  end.

Definition find_devices : Gen Device unit :=
  devices <~ smart_ctl [Some "-d"; Some "by-id"; Some "--scan-open"] true ;;
  lift (for_each (fun _ device => find_devices_line device) tt
          (PyStr.split Re.newline devices)).

(** [device_is_active]: the standby probe; a non-zero exit is caught. *)
Definition device_is_active {Y} (device : Device) : Gen Y bool :=
  fun log =>
    match smart_ctl (Y:=Y)
            (Some "--nocheck" :: Some "standby" :: smartctl_select device)
            true log with
    | (log', (ys, inl CalledProcessError)) => (log', (ys, inr false))
    | (log', (ys, inl e)) => (log', (ys, inl e))
    | (log', (ys, inr _)) => (log', (ys, inr true))
    end.

Definition device_info {Y} (device : Device) : Gen Y (list (string * string)) :=
  out <~ smart_ctl (Some "--info" :: smartctl_select device) true ;;
  lift (ret (device_info_of out)).

Definition device_smart_capabilities {Y} (device : Device)
    : Gen Y (bool * bool) :=
  if decide (type device = Some "nvme") then lift (ret (true, true))
  else
    groups <~ device_info device ;;
    lift (ret (capabilities_of groups)).

Definition collect_device_info (device : Device) : Gen Metric unit :=
  groups <~ device_info device ;;
  base <~ get_base_labels device ;;
  lift (yield {| name := "device_info";
                 labels := device_info_labels base groups;
                 value := PBool true |}).

Definition collect_device_health_self_assessment (device : Device)
    : Gen Metric unit :=
  out <~ smart_ctl (Some "--health" :: smartctl_select device) false ;;
  base <~ get_base_labels device ;;
  lift (yield {| name := "device_smart_healthy"; labels := base;
                 value := PBool (self_assessment_passed out) |}).

Definition collect_ata_metrics (device : Device) : Gen Metric unit :=
  attributes <~ smart_ctl (Some "--attributes" :: smartctl_select device) true ;;
  lift (ata_metrics_of device attributes).

Definition collect_ata_error_count (device : Device) : Gen Metric unit :=
  error_log <~ smart_ctl (Some "-l" :: Some "xerror,1" :: smartctl_select device)
                 false ;;
  base <~ get_base_labels device ;;
  lift (yield {| name := "device_errors"; labels := base;
                 value := error_count_of error_log |}).

Definition collect_nvme_metrics (device : Device) : Gen Metric unit :=
  attributes <~ smart_ctl (Some "--attributes" :: smartctl_select device) true ;;
  lift (nvme_metrics_of device attributes).

(** The body of the loop of [collect_disks_smart_metrics] for one
    device. *)
Definition collect_device_metrics (wakeup_disks : bool) (now : Z)
    (device : Device) : Gen Metric unit :=
  base <~ get_base_labels device ;;
  lift (yield {| name := "smartctl_run"; labels := base; value := PInt now |}) ~;;
  is_active <~ device_is_active device ;;
  base <~ get_base_labels device ;;
  lift (yield {| name := "device_active"; labels := base;
                 value := PBool is_active |}) ~;;
  (* Skip further metrics collection to prevent the disk from
     spinning up. *)
  if negb is_active && negb wakeup_disks then lift (ret tt)
  else
    collect_device_info device ~;;
    caps <~ device_smart_capabilities device ;;
    let '(smart_available, smart_enabled) := caps in
    base <~ get_base_labels device ;;
    lift (yield {| name := "device_smart_available"; labels := base;
                   value := PBool smart_available |}) ~;;
    base <~ get_base_labels device ;;
    lift (yield {| name := "device_smart_enabled"; labels := base;
                   value := PBool smart_enabled |}) ~;;
    (* Skip further metrics collection here if SMART is disabled on the
       device. *)
    if negb smart_available then lift (ret tt)
    else
      collect_device_health_self_assessment device ~;;
      match type device with
      | None => lift (raise AttributeError)
      | Some t =>
          (if PyStr.startswith "sat" t
           then collect_ata_metrics device ~;; collect_ata_error_count device
           else lift (ret tt)) ~;;
          if String.eqb t "nvme" then collect_nvme_metrics device
          else lift (ret tt)
      end.

(** [collect_disks_smart_metrics(wakeup_disks)]; [now] is the time read
    before the scan.  [find_devices] makes its one call before its
    first device and reads a line of the listing only when the loop asks
    for the next device, so what stops it surfaces after the devices
    before that line were collected. *)
Definition collect_disks_smart_metrics (wakeup_disks : bool) (now : Z)
    : Gen Metric unit :=
  fun log =>
    let '(log1, (devices, stop)) := find_devices log in
    let '(log2, (metrics, r)) :=
      gfor_each (collect_device_metrics wakeup_disks now) devices log1 in
    (log2, (metrics, match r with inl e => inl e | inr _ => stop end)).

(** *** Printing *)

Definition dquote : string := String "034"%char "".

(** [decimal.Decimal(metric.value)] as the format prints it. *)
Definition decimal_of (v : PyVal) : Out string string :=
  match v with
  | PBool b => ret (if b then "1" else "0")
  | PInt z => ret (NilZero.string_of_int (Z.to_int z))
  | PStr text =>
      match decimal_str text with
      | Some t => ret t
      | None => raise InvalidOperation
      end
  | PNone => raise TypeError
  | PList _ => raise ValueError   (* a list is read as a (sign, digits, exponent) triple *)
  end.

Definition metric_format (metric : Metric) (prefix : string) : Out string string :=
  let key := metric_key metric prefix in
  let labels :=
    PyStr.join ","
      (map (fun kv =>
              kv.1 +:+ "=" +:+ dquote
                +:+ PyStr.replace dquote ("\" +:+ dquote) kv.2 +:+ dquote)
           (labels metric)) in
  value <- decimal_of (value metric) ;;
  ret (key +:+ "{" +:+ labels +:+ "} " +:+ value).

Definition help_line (metric : Metric) (prefix : string) : string :=
  "# HELP " +:+ metric_key metric prefix +:+ " SMART metric " +:+ name metric.

Definition type_line (metric : Metric) (prefix : string) : string :=
  "# TYPE " +:+ metric_key metric prefix +:+ " gauge".

(** The generators below yield the lines printed. *)
Definition metric_print_meta (metric : Metric) (prefix : string)
    : Out string unit :=
  yield (help_line metric prefix) ;;;
  yield (type_line metric prefix).

Definition metric_print (metric : Metric) (prefix : string) : Out string unit :=
  line <- metric_format metric prefix ;;
  yield line.

(** [metrics.sort(key=lambda i: i.name)]: a stable sort on the names
    under the order of [str], which compares code points. *)
Fixpoint sort_insert (m : Metric) (sorted : list Metric) : list Metric :=
  match sorted with
  | [] => [m]
  | x :: rest =>
      if String.leb (name m) (name x) then m :: x :: rest
      else x :: sort_insert m rest
  end.

Fixpoint sort_by_name (metrics : list Metric) : list Metric :=
  match metrics with
  | [] => []
  | m :: rest => sort_insert m (sort_by_name rest)
  end.

(** The body of the printing loop of [main]; the value threaded is
    [previous_name]. *)
Definition print_metric (previous_name : option string) (m : Metric)
    : Out string (option string) :=
  if decide (Some (name m) ≠ previous_name)
  then metric_print_meta m "smartmon_" ;;;
       metric_print m "smartmon_" ;;;
       ret (Some (name m))
  else metric_print m "smartmon_" ;;;
       ret previous_name.

(** The printing loop of [main]. *)
Definition print_metrics (metrics : list Metric) : Out string (option string) :=
  for_each print_metric None metrics.

(** [main], given the flag argparse read and the time. *)
Definition main (wakeup_disks : bool) (now : Z) : Gen string unit :=
  version <~ smart_ctl_version ;;
  let version_metric :=
    {| name := "smartctl_version"; labels := [("version", version)];
       value := PBool true |} in
  lift (metric_print_meta version_metric "smartmon_") ~;;
  lift (metric_print version_metric "smartmon_") ~;;
  fun log =>
    let '(log', (metrics, r)) :=
      collect_disks_smart_metrics wakeup_disks now log in
    match r with
    | inl e => (log', raise e)
    | inr _ =>
        (log', print_metrics (sort_by_name metrics) ;;; ret tt)
    end.

End Collector.

(** * Properties *)

(** ** Text *)

(** The longest prefix of characters in a class, and what follows it. *)
Fixpoint take_while (p : ascii -> bool) (s : string) : string :=
  match s with
  | String c s' => if p c then String c (take_while p s') else ""
  | "" => ""
  end.

Fixpoint drop_while (p : ascii -> bool) (s : string) : string :=
  match s with
  | String c s' => if p c then drop_while p s' else s
  | "" => ""
  end.

(** The leading run of decimal digits of a text. *)
Definition leading_digits (s : string) : string := take_while PyStr.isdigit s.

(** The last character of [s], or [prev] when [s] is empty. *)
Fixpoint last_char (prev : option ascii) (s : string) : option ascii :=
  match s with
  | "" => prev
  | String c s' => last_char (Some c) s'
  end.

Lemma take_drop_while p s : take_while p s +:+ drop_while p s = s.
Proof.
  induction s as [|c s IH]; [done|]. cbn [take_while drop_while].
  destruct (p c); [|done].
  change (String c (take_while p s +:+ drop_while p s) = String c s).
  by rewrite IH.
Qed.

Lemma length_take_drop_while p s :
  String.length s = (String.length (take_while p s)
                     + String.length (drop_while p s))%nat.
Proof.
  induction s as [|c s IH]; [done|]. cbn [take_while drop_while].
  destruct (p c); [|done]. cbn [String.length]. rewrite IH. lia.
Qed.

Lemma substring_prefix (a b : string) :
  String.substring 0 (String.length a) (a +:+ b) = a.
Proof.
  induction a as [|c a IH]; simpl.
  - by destruct b.
  - by rewrite IH.
Qed.

Lemma substring_full (s : string) :
  String.substring 0 (String.length s) s = s.
Proof. induction s as [|c s IH]; cbn; [done|by rewrite IH]. Qed.

Lemma substring_take_while p s :
  String.substring 0 (String.length s - String.length (drop_while p s)) s
  = take_while p s.
Proof.
  rewrite (length_take_drop_while p s) at 1.
  replace (String.length (take_while p s) + String.length (drop_while p s)
           - String.length (drop_while p s))%nat
    with (String.length (take_while p s)) by lia.
  transitivity (String.substring 0 (String.length (take_while p s))
                  (take_while p s +:+ drop_while p s)).
  - by rewrite take_drop_while.
  - apply substring_prefix.
Qed.

(** ** Regular expressions *)

(** Greedy repetition in front of a continuation that cannot fail takes
    the whole run of the class. *)
Lemma repeat_greedy_total p min (k : Re.cont) prev s caps :
  (forall pr s' c, is_Some (k pr s' c)) ->
  Re.repeat_greedy p min k prev s caps =
  if (min <=? String.length (take_while p s))%nat
  then k (last_char prev (take_while p s)) (drop_while p s) caps
  else None.
Proof.
  intros Hk. revert min prev.
  induction s as [|c s IH]; intros min prev; simpl.
  - by destruct min.
  - destruct (p c) eqn:Hc; simpl.
    + rewrite IH. destruct min as [|min]; simpl.
      * destruct (Hk (last_char (Some c) (take_while p s)) (drop_while p s) caps)
          as [r ->]. done.
      * destruct (min <=? String.length (take_while p s))%nat eqn:Hle; [|done].
        destruct (Hk (last_char (Some c) (take_while p s)) (drop_while p s) caps)
          as [r ->]. done.
    + by destruct min.
Qed.

(** [re.match(r'^(\d+)', s)]: group 1 is the leading run of digits, and
    there is no match when that run is empty. *)
Lemma raw_value_re_match s :
  Re.re_match raw_value_re s =
  match leading_digits s with
  | "" => None
  | ds => Some [(1%nat, ds)]
  end.
Proof.
  unfold Re.re_match, raw_value_re, leading_digits. simpl.
  rewrite repeat_greedy_total by (intros; unfold Re.accept; eauto).
  rewrite substring_take_while.
  destruct (take_while PyStr.isdigit s); done.
Qed.

(** ** Generators *)

Lemma bind_ret_l {Y A B} (a : A) (k : A -> Out Y B) : bind (ret a) k = k a.
Proof. unfold bind, ret. destruct (k a) as [ys r]. reflexivity. Qed.

Lemma bind_raise {Y A B} (e : exn) (k : A -> Out Y B) :
  bind (raise e) k = raise e.
Proof. reflexivity. Qed.

Lemma bind_yield {Y B} (y : Y) (k : unit -> Out Y B) :
  bind (yield y) k = (y :: yielded (k tt), outcome (k tt)).
Proof. unfold bind, yield, yielded, outcome. destruct (k tt). reflexivity. Qed.

Lemma bind_assoc {Y A B C} (m : Out Y A) (f : A -> Out Y B) (g : B -> Out Y C) :
  bind (bind m f) g = bind m (fun a => bind (f a) g).
Proof.
  destruct m as [ys [e|a]]; [reflexivity|]. unfold bind.
  destruct (f a) as [ys1 [e1|b]]; [reflexivity|].
  destruct (g b) as [ys2 r]. by rewrite app_assoc.
Qed.

Lemma bind_ext {Y A B} (m : Out Y A) (f g : A -> Out Y B) :
  (forall a, f a = g a) -> bind m f = bind m g.
Proof.
  intros Hfg. destruct m as [ys [e|a]]; [reflexivity|].
  unfold bind. by rewrite Hfg.
Qed.

Lemma yielded_bind {Y A B} (m : Out Y A) (k : A -> Out Y B) :
  yielded (bind m k) =
  yielded m ++ match outcome m with inl _ => [] | inr a => yielded (k a) end.
Proof.
  destruct m as [ys [e|a]]; unfold bind, yielded, outcome; simpl.
  - by rewrite app_nil_r.
  - by destruct (k a).
Qed.

Lemma outcome_bind {Y A B} (m : Out Y A) (k : A -> Out Y B) :
  outcome (bind m k) =
  match outcome m with inl e => inl e | inr a => outcome (k a) end.
Proof.
  destruct m as [ys [e|a]]; unfold bind, outcome; simpl; [done|].
  by destruct (k a).
Qed.

(** A loop over [xs ++ ys] is the loop over [xs] followed by the loop over
    [ys], started from the value the first loop ended with. *)
Lemma for_each_app {Y X S} (body : S -> X -> Out Y S) st (xs ys : list X) :
  for_each body st (xs ++ ys) =
  bind (for_each body st xs) (fun st' => for_each body st' ys).
Proof.
  revert st. induction xs as [|x xs IH]; intros st.
  - change (for_each body st []) with (ret (Y:=Y) st). by rewrite bind_ret_l.
  - change (for_each body st ((x :: xs) ++ ys))
      with (bind (body st x) (fun st' => for_each body st' (xs ++ ys))).
    change (for_each body st (x :: xs))
      with (bind (body st x) (fun st' => for_each body st' xs)).
    rewrite bind_assoc. apply bind_ext. intros st'. apply IH.
Qed.

(** ** The ATA attribute table *)

(** A row of the attribute table with all its columns: the nine leading
    fields and the tokens of the raw value, of which there is at least
    one. *)
Record TableRow := {
  r_id : string;
  r_name : string;
  r_flag : string;
  r_value : string;
  r_worst : string;
  r_threshold : string;
  r_type : string;
  r_updated : string;
  r_when_failed : string;
  r_raw_first : string;
  r_raw_more : list string
}.

Definition r_raw (r : TableRow) : list string := r_raw_first r :: r_raw_more r.

(** The record the csv reader yields for the row. *)
Definition row_fields (r : TableRow) : list string :=
  [ r_id r; r_name r; r_flag r; r_value r; r_worst r; r_threshold r;
    r_type r; r_updated r; r_when_failed r ] ++ r_raw r.

(** The entry [csv.DictReader] makes of it. *)
Definition row_entry (r : TableRow) : dict PyVal :=
  dict_reader_row (take 9 SmartAttribute_fields) "raw_value" (row_fields r).

(** The text of the raw value as the parser reads it. *)
Definition raw_text (r : TableRow) : string := PyStr.join " " (r_raw r).

(** The four metrics of a row under a label dictionary. *)
Definition row_metrics_with (labels : dict string) (r : TableRow)
    : list Metric :=
  [ {| name := "attr_value"; labels := labels; value := PStr (r_value r) |};
    {| name := "attr_worst"; labels := labels; value := PStr (r_worst r) |};
    {| name := "attr_threshold"; labels := labels;
       value := PStr (if decide (r_threshold r = "---") then "0"
                      else r_threshold r) |};
    {| name := "attr_raw_value"; labels := labels;
       value := PStr (leading_digits (raw_text r)) |} ].

(** The four metrics of a row of a device with the given base labels. *)
Definition row_metrics (base : dict string) (r : TableRow) : list Metric :=
  row_metrics_with (("name", PyStr.lower (r_name r)) :: base) r.

Lemma base_labels_shape device base :
  base_labels device = inr base ->
  exists idx, base = [("device", path device); ("disk", idx)].
Proof.
  unfold base_labels. destruct (type device); [|done].
  intros [= <-]. eauto.
Qed.

Lemma getitem_eq {Y} key (entry : dict PyVal) v :
  dict_get key entry = Some v -> getitem (Y:=Y) key entry = ret v.
Proof. unfold getitem. by intros ->. Qed.

Lemma getitem_missing {Y} key (entry : dict PyVal) :
  dict_get key entry = None -> getitem (Y:=Y) key entry = raise KeyError.
Proof. unfold getitem. by intros ->. Qed.

(** Read [entry[key]] off a dictionary whose keys are known. *)
Ltac getitem_step v :=
  rewrite (getitem_eq _ _ v) by reflexivity; rewrite bind_ret_l; cbv beta iota.

Lemma row_entry_eq r :
  row_entry r =
  [ ("id", PStr (r_id r)); ("name", PStr (r_name r));
    ("flag", PStr (r_flag r)); ("value", PStr (r_value r));
    ("worst", PStr (r_worst r)); ("threshold", PStr (r_threshold r));
    ("type", PStr (r_type r)); ("updated", PStr (r_updated r));
    ("when_failed", PStr (r_when_failed r)); ("raw_value", PList (r_raw r)) ].
Proof. by destruct r. Qed.

(** The name of a row as the parser compares it. *)
Definition lname (r : TableRow) : string := PyStr.lower (r_name r).

(** What the loop body does with a full row, case by case. *)
Lemma ata_entry_row device seen r :
  ata_entry device seen (row_entry r) =
  if decide (lname r ∉ smart_attributes_whitelist) then ret seen
  else match leading_digits (raw_text r) with
       | "" => ret seen
       | _ =>
           if decide (lname r ∈ seen) then ret seen
           else base <- read_base_labels device ;;
                (row_metrics_with (dict_update [("name", lname r)] base) r,
                 inr ({[ lname r ]} ∪ seen))
       end.
Proof.
  unfold lname. rewrite row_entry_eq. unfold ata_entry.
  getitem_step (PStr (r_name r)).
  destruct (decide (PyStr.lower (r_name r) ∉ smart_attributes_whitelist))
    as [Hout|Hin]; [done|].
  getitem_step (PList (r_raw r)).
  fold (raw_text r). rewrite raw_value_re_match.
  destruct (leading_digits (raw_text r)) as [|d ds] eqn:Hdigits; [done|].
  cbv beta iota.
  getitem_step (PStr (r_threshold r)).
  destruct (decide (PyStr.lower (r_name r) ∈ seen)) as [Hseen|Hnew].
  { rewrite decide_False by tauto. done. }
  rewrite decide_True by (split; [by apply dec_stable | done]).
  apply bind_ext. intros base.
  unfold row_metrics_with. rewrite Hdigits.
  destruct (decide (PStr (r_threshold r) = PStr "---")) as [Heq|Hne].
  - injection Heq as Heq. rewrite decide_True by done. reflexivity.
  - rewrite decide_False by congruence. reflexivity.
Qed.

(** A row passes the two filters of the loop: its name is whitelisted
    and its raw value starts with a digit. *)
Definition passes (r : TableRow) : Prop :=
  lname r ∈ smart_attributes_whitelist ∧ leading_digits (raw_text r) ≠ "".

#[global] Instance passes_dec r : Decision (passes r).
Proof. unfold passes. apply _. Defined.

Lemma ata_entry_reported device base seen r :
  base_labels device = inr base -> passes r -> lname r ∉ seen ->
  ata_entry device seen (row_entry r)
  = (row_metrics base r, inr ({[ lname r ]} ∪ seen)).
Proof.
  intros Hbase [Hwl Hdigits] Hnew. rewrite ata_entry_row.
  rewrite decide_False by (intros H; by apply H).
  destruct (leading_digits (raw_text r));
    [exfalso; apply Hdigits; reflexivity|].
  rewrite decide_False by done.
  destruct (base_labels_shape _ _ Hbase) as [idx ->].
  unfold read_base_labels. rewrite Hbase. by rewrite bind_ret_l.
Qed.

Lemma ata_entry_skipped device seen r :
  ¬ (passes r ∧ lname r ∉ seen) ->
  ata_entry device seen (row_entry r) = ret seen.
Proof.
  intros Hskip. rewrite ata_entry_row.
  destruct (decide (lname r ∉ smart_attributes_whitelist)) as [|Hwl]; [done|].
  apply dec_stable in Hwl.
  destruct (leading_digits (raw_text r)) eqn:Hdigits; [done|].
  destruct (decide (lname r ∈ seen)) as [|Hnew]; [done|].
  destruct Hskip. split; [|done]. split; [done|]. by rewrite Hdigits.
Qed.

Lemma for_each_cons {Y X S} (body : S -> X -> Out Y S) st x xs :
  for_each body st (x :: xs) = bind (body st x) (fun st' => for_each body st' xs).
Proof. reflexivity. Qed.

(** The metrics the loop reports over a table of full rows, and the set
    of names it ends with. *)
Fixpoint table_metrics (base : dict string) (seen : gset string)
    (rows : list TableRow) : list Metric :=
  match rows with
  | [] => []
  | r :: rows' =>
      if decide (passes r ∧ lname r ∉ seen)
      then row_metrics base r ++ table_metrics base ({[ lname r ]} ∪ seen) rows'
      else table_metrics base seen rows'
  end.

Fixpoint table_seen (seen : gset string) (rows : list TableRow) : gset string :=
  match rows with
  | [] => seen
  | r :: rows' =>
      if decide (passes r ∧ lname r ∉ seen)
      then table_seen ({[ lname r ]} ∪ seen) rows'
      else table_seen seen rows'
  end.

Lemma ata_loop_rows device base seen rows :
  base_labels device = inr base ->
  for_each (ata_entry device) seen (map row_entry rows)
  = (table_metrics base seen rows, inr (table_seen seen rows)).
Proof.
  intros Hbase. revert seen.
  induction rows as [|r rows IH]; intros seen; [reflexivity|].
  cbn [map table_metrics table_seen]. rewrite for_each_cons.
  destruct (decide (passes r ∧ lname r ∉ seen)) as [[Hp Hnew]|Hskip].
  - rewrite (ata_entry_reported _ base) by assumption.
    unfold bind. by rewrite IH.
  - rewrite ata_entry_skipped by assumption.
    rewrite bind_ret_l. apply IH.
Qed.

Lemma dict_reader_entries_rows rows :
  dict_reader_entries (map row_fields rows) = map row_entry rows.
Proof.
  unfold dict_reader_entries, row_entry.
  induction rows as [|r rows IH]; [reflexivity|].
  cbn [map]. rewrite filter_cons_True by (by destruct r).
  cbn [map]. by rewrite IH.
Qed.

(** The parser on a text whose table reads as full rows. *)
Lemma ata_metrics_of_rows device base attributes rows :
  base_labels device = inr base ->
  ata_table attributes = (map row_fields rows, false) ->
  ata_metrics_of device attributes = (table_metrics base ∅ rows, inr tt).
Proof.
  intros Hbase Htable. unfold ata_metrics_of. rewrite Htable.
  rewrite dict_reader_entries_rows, (ata_loop_rows _ base) by assumption.
  unfold bind, ret. by rewrite app_nil_r.
Qed.

Lemma table_metrics_app base seen rows1 rows2 :
  table_metrics base seen (rows1 ++ rows2)
  = table_metrics base seen rows1
    ++ table_metrics base (table_seen seen rows1) rows2.
Proof.
  revert seen. induction rows1 as [|r rows1 IH]; intros seen; [reflexivity|].
  cbn [app table_metrics table_seen].
  destruct (decide (passes r ∧ lname r ∉ seen)).
  - by rewrite IH, app_assoc.
  - apply IH.
Qed.

(** A name is in the set after the loop exactly when it was there before
    or a row that passes the filters bears it. *)
Lemma elem_of_table_seen n seen rows :
  n ∈ table_seen seen rows
  <-> n ∈ seen ∨ Exists (fun r => passes r ∧ lname r = n) rows.
Proof.
  revert seen. induction rows as [|r rows IH]; intros seen.
  - cbn [table_seen]. rewrite Exists_nil. tauto.
  - cbn [table_seen]. rewrite Exists_cons.
    destruct (decide (passes r ∧ lname r ∉ seen)) as [[Hp Hnew]|Hskip].
    + rewrite IH, elem_of_union, elem_of_singleton.
      split; [intros [[->|?]|?]|intros [?|[[? <-]|?]]]; tauto.
    + rewrite IH. split; [tauto|].
      intros [?|[[Hp <-]|?]]; [tauto| |tauto].
      left. destruct (decide (lname r ∈ seen)); tauto.
Qed.

(** The label [name] of a metric. *)
Definition name_label (m : Metric) : option string := dict_get "name" (labels m).

Lemma name_label_row_metrics base r m :
  m ∈ row_metrics base r -> name_label m = Some (lname r).
Proof.
  unfold row_metrics, row_metrics_with. rewrite !elem_of_cons, elem_of_nil.
  intros [->|[->|[->|[->|[]]]]]; reflexivity.
Qed.

Lemma elem_of_table_metrics base seen rows m :
  m ∈ table_metrics base seen rows ->
  ∃ r, r ∈ rows ∧ passes r ∧ (lname r ∉ seen) ∧ m ∈ row_metrics base r.
Proof.
  revert seen. induction rows as [|r rows IH]; intros seen; cbn [table_metrics].
  - by rewrite elem_of_nil.
  - destruct (decide (passes r ∧ lname r ∉ seen)) as [[Hp Hnew]|Hskip].
    + rewrite elem_of_app. intros [Hm|Hm].
      * exists r. rewrite elem_of_cons. tauto.
      * destruct (IH _ Hm) as (r' & Hin & Hp' & Hnew' & Hm').
        exists r'. rewrite elem_of_cons. rewrite not_elem_of_union in Hnew'.
        tauto.
    + intros Hm. destruct (IH _ Hm) as (r' & Hin & Hp' & Hnew' & Hm').
      exists r'. rewrite elem_of_cons. tauto.
Qed.

(** *** Fixtures: a SATA disk and rows of its table *)

Definition sda : Device := {| path := "/dev/sda"; type := Some "sat" |}.

Definition sda_labels : dict string := [("device", "/dev/sda"); ("disk", "0")].

Definition row_temperature : TableRow :=
  {| r_id := "194"; r_name := "Temperature_Celsius"; r_flag := "0x0022";
     r_value := "117"; r_worst := "099"; r_threshold := "000";
     r_type := "Old_age"; r_updated := "Always"; r_when_failed := "-";
     r_raw_first := "36"; r_raw_more := ["(Min/Max"; "24/40)"] |}.

Definition row_hours : TableRow :=
  {| r_id := "9"; r_name := "Power_On_Hours"; r_flag := "0x0032";
     r_value := "091"; r_worst := "091"; r_threshold := "---";
     r_type := "Old_age"; r_updated := "Always"; r_when_failed := "-";
     r_raw_first := "6709"; r_raw_more := [] |}.

(** The same attribute under a second id, with a raw value that does
    not start with a digit. *)
Definition row_hours_unreadable : TableRow :=
  {| r_id := "240"; r_name := "Power_On_Hours"; r_flag := "0x0032";
     r_value := "091"; r_worst := "091"; r_threshold := "000";
     r_type := "Old_age"; r_updated := "Always"; r_when_failed := "-";
     r_raw_first := "(unknown)"; r_raw_more := [] |}.

Lemma whitelisted_by_computation n :
  bool_decide (n ∈ smart_attributes_whitelist) = true ->
  n ∈ smart_attributes_whitelist.
Proof. apply bool_decide_eq_true_1. Qed.

(** C3: a full row whose lower-cased name is whitelisted and not yet
    reported, and whose raw value starts with a digit, makes the parser
    yield exactly four metrics, [attr_value], [attr_worst],
    [attr_threshold] and [attr_raw_value] in that order, each labelled
    with [name] (the lower-cased name) followed by the base labels of
    the device; the name is then recorded as reported. *)
Theorem ata_row_yields_four_metrics device base seen r :
  base_labels device = inr base ->
  PyStr.lower (r_name r) ∈ smart_attributes_whitelist ->
  PyStr.lower (r_name r) ∉ seen ->
  leading_digits (raw_text r) ≠ "" ->
  let labels := ("name", PyStr.lower (r_name r)) :: base in
  (∃ idx, base = [("device", path device); ("disk", idx)])
  ∧ ∃ v1 v2 v3 v4,
      ata_entry device seen (row_entry r)
      = ([ {| name := "attr_value"; labels := labels; value := v1 |};
           {| name := "attr_worst"; labels := labels; value := v2 |};
           {| name := "attr_threshold"; labels := labels; value := v3 |};
           {| name := "attr_raw_value"; labels := labels; value := v4 |} ],
         inr ({[ PyStr.lower (r_name r) ]} ∪ seen)).
Proof.
  intros Hbase Hwl Hnew Hdigits labels. split.
  - by apply base_labels_shape.
  - rewrite (ata_entry_reported device base);
      [|exact Hbase|split; [exact Hwl|exact Hdigits]|exact Hnew].
    unfold row_metrics, row_metrics_with. eauto 6.
Qed.

Lemma ata_row_yields_four_metrics_witness :
  let labels := ("name", PyStr.lower (r_name row_hours)) :: sda_labels in
  (∃ idx, sda_labels = [("device", path sda); ("disk", idx)])
  ∧ ∃ v1 v2 v3 v4,
      ata_entry sda ∅ (row_entry row_hours)
      = ([ {| name := "attr_value"; labels := labels; value := v1 |};
           {| name := "attr_worst"; labels := labels; value := v2 |};
           {| name := "attr_threshold"; labels := labels; value := v3 |};
           {| name := "attr_raw_value"; labels := labels; value := v4 |} ],
         inr ({[ PyStr.lower (r_name row_hours) ]} ∪ ∅)).
Proof.
  apply (ata_row_yields_four_metrics sda sda_labels ∅ row_hours).
  - reflexivity.
  - apply whitelisted_by_computation. vm_compute. reflexivity.
  - apply not_elem_of_empty.
  - vm_compute. discriminate.
Defined.

(** A full row yields nothing or its four metrics. *)
Lemma ata_entry_yielded device seen r :
  yielded (ata_entry device seen (row_entry r)) = []
  ∨ (leading_digits (raw_text r) ≠ ""
     ∧ ∃ labels,
         yielded (ata_entry device seen (row_entry r))
         = row_metrics_with labels r).
Proof.
  rewrite ata_entry_row.
  destruct (decide (lname r ∉ smart_attributes_whitelist)); [by left|].
  destruct (leading_digits (raw_text r)) as [|d ds] eqn:Hdigits; [by left|].
  destruct (decide (lname r ∈ seen)); [by left|].
  unfold read_base_labels.
  destruct (base_labels device) as [e|base]; [by left|].
  right. split; [discriminate|].
  rewrite bind_ret_l. eexists. reflexivity.
Qed.

(** C5: a full row with a whitelisted name not yet reported, whose
    raw-value tokens joined by single spaces start with a digit, yields
    four metrics of which the last is [attr_raw_value], and its value is
    exactly the leading run of decimal digits of that text; whenever a
    full row yields an [attr_raw_value], its value is that run.  A row
    whose joined raw value does not start with a digit yields no metric
    at all and leaves the set of reported names as it was.  The raw
    value 36 (Min/Max 24/40) gives 36. *)
Theorem ata_raw_value_is_leading_digits device base seen r :
  base_labels device = inr base ->
  (leading_digits (raw_text r) = "" ->
   ata_entry device seen (row_entry r) = ([], inr seen))
  ∧ (lname r ∈ smart_attributes_whitelist -> lname r ∉ seen ->
     leading_digits (raw_text r) ≠ "" ->
     ∃ m1 m2 m3,
       yielded (ata_entry device seen (row_entry r))
       = [ m1; m2; m3;
           {| name := "attr_raw_value";
              labels := ("name", lname r) :: base;
              value := PStr (leading_digits (raw_text r)) |} ])
  ∧ (yielded (ata_entry device seen (row_entry r)) ≠ [] ->
     ∃ m1 m2 m3 labels,
       yielded (ata_entry device seen (row_entry r))
       = [ m1; m2; m3;
           {| name := "attr_raw_value"; labels := labels;
              value := PStr (leading_digits (raw_text r)) |} ])
  ∧ (forall m,
       m ∈ yielded (ata_entry device seen (row_entry r)) ->
       name m = "attr_raw_value" ->
       value m = PStr (leading_digits (raw_text r)))
  ∧ raw_text row_temperature = "36 (Min/Max 24/40)"
  ∧ leading_digits (raw_text row_temperature) = "36".
Proof.
  intros Hbase.
  split; [|split; [|split; [|split; [|split; reflexivity]]]].
  - intros Hnone. rewrite ata_entry_row, Hnone.
    by destruct (decide (lname r ∉ smart_attributes_whitelist)).
  - intros Hwl Hnew Hdigits.
    rewrite (ata_entry_reported device base seen r Hbase (conj Hwl Hdigits) Hnew).
    unfold yielded, row_metrics, row_metrics_with. cbn [fst]. unfold lname.
    eauto.
  - intros Hsome.
    destruct (ata_entry_yielded device seen r) as [Hnil|[_ [labels ->]]].
    + by destruct Hsome.
    + unfold row_metrics_with. eauto 6.
  - intros m Hm Hname.
    destruct (ata_entry_yielded device seen r) as [Hnil|[_ [labels Hrow]]].
    { rewrite Hnil in Hm. apply elem_of_nil in Hm. destruct Hm. }
    rewrite Hrow in Hm. unfold row_metrics_with in Hm.
    rewrite !elem_of_cons, elem_of_nil in Hm.
    destruct Hm as [->|[->|[->|[->|[]]]]]; try discriminate Hname.
    reflexivity.
Qed.

(** The temperature row of a drive: the parser reports 36. *)
Lemma ata_raw_value_is_leading_digits_witness :
  yielded (ata_entry sda ∅ (row_entry row_temperature))
  = [ {| name := "attr_value";
         labels := ("name", "temperature_celsius") :: sda_labels;
         value := PStr "117" |};
      {| name := "attr_worst";
         labels := ("name", "temperature_celsius") :: sda_labels;
         value := PStr "099" |};
      {| name := "attr_threshold";
         labels := ("name", "temperature_celsius") :: sda_labels;
         value := PStr "000" |};
      {| name := "attr_raw_value";
         labels := ("name", "temperature_celsius") :: sda_labels;
         value := PStr "36" |} ]
  ∧ value {| name := "attr_raw_value";
             labels := ("name", "temperature_celsius") :: sda_labels;
             value := PStr "36" |}
    = PStr (leading_digits (raw_text row_temperature)).
Proof.
  destruct (ata_raw_value_is_leading_digits sda sda_labels ∅ row_temperature
              eq_refl) as (_ & Hemit & _ & Hvalue & _).
  split.
  - destruct Hemit as (m1 & m2 & m3 & Hrow).
    + apply whitelisted_by_computation. vm_compute. reflexivity.
    + apply not_elem_of_empty.
    + vm_compute. discriminate.
    + vm_compute. reflexivity.
  - apply Hvalue; [|reflexivity].
    apply list_elem_of_In. vm_compute. right. right. right. left. reflexivity.
Defined.

(** The text of a series line: key, labels and the value as printed. *)
Definition series_text (m : Metric) (printed : string) : string :=
  metric_key m "smartmon_" +:+ "{"
    +:+ PyStr.join ","
          (map (fun kv : string * string =>
                  kv.1 +:+ "=" +:+ dquote
                    +:+ PyStr.replace dquote ("\" +:+ dquote) kv.2 +:+ dquote)
               (labels m))
    +:+ "} " +:+ printed.

(** C6, as the parser and the format have it: in the metrics of a full
    row, [attr_threshold] carries the text 0 when the threshold field is
    the sentinel [---], and the field itself, unchanged, otherwise; in
    particular the field 000 is stored as 000.  What is printed for the
    metric is not the stored text but what [decimal.Decimal] makes of
    it: the series line ends in that rendering, and there is no line
    when the text is no number. *)
Theorem ata_threshold_sentinel decimal_str device seen r m :
  m ∈ yielded (ata_entry device seen (row_entry r)) ->
  name m = "attr_threshold" ->
  (r_threshold r = "---" -> value m = PStr "0")
  ∧ (r_threshold r = "000" -> value m = PStr "000")
  ∧ (r_threshold r ≠ "---" -> value m = PStr (r_threshold r))
  ∧ metric_format decimal_str m "smartmon_"
    = match decimal_str (if decide (r_threshold r = "---") then "0"
                         else r_threshold r) with
      | Some printed => ret (series_text m printed)
      | None => raise InvalidOperation
      end.
Proof.
  intros Hm Hname.
  destruct (ata_entry_yielded device seen r) as [Hnil|[_ [labels Hrow]]].
  { rewrite Hnil in Hm. apply elem_of_nil in Hm. destruct Hm. }
  rewrite Hrow in Hm. unfold row_metrics_with in Hm.
  rewrite !elem_of_cons, elem_of_nil in Hm.
  destruct Hm as [->|[->|[->|[->|[]]]]]; try discriminate Hname.
  cbn [value]. split; [|split; [|split]].
  - intros ->. reflexivity.
  - intros ->. reflexivity.
  - intros Hne. by rewrite decide_False.
  - unfold metric_format, decimal_of. cbn [value].
    destruct (decimal_str _); reflexivity.
Qed.

Lemma ata_threshold_sentinel_witness :
  let m := {| name := "attr_threshold";
              labels := ("name", "power_on_hours") :: sda_labels;
              value := PStr "0" |} in
  (r_threshold row_hours = "---" -> value m = PStr "0")
  ∧ (r_threshold row_hours = "000" -> value m = PStr "000")
  ∧ (r_threshold row_hours ≠ "---" -> value m = PStr (r_threshold row_hours))
  ∧ metric_format Some m "smartmon_"
    = match Some (if decide (r_threshold row_hours = "---") then "0"
                  else r_threshold row_hours) with
      | Some printed => ret (series_text m printed)
      | None => raise InvalidOperation
      end.
Proof.
  intros m. apply (ata_threshold_sentinel Some sda ∅ row_hours m).
  - apply list_elem_of_In. vm_compute. right. right. left. reflexivity.
  - reflexivity.
Defined.

(** The threshold 000 of the temperature row reaches its metric
    unchanged. *)
Example ata_threshold_zeros_unchanged :
  yielded (ata_entry sda ∅ (row_entry row_temperature)) !! 2%nat
  = Some {| name := "attr_threshold";
            labels := ("name", "temperature_celsius") :: sda_labels;
            value := PStr "000" |}.
Proof. vm_compute. reflexivity. Qed.

Lemma filter_all {A} (P : A -> Prop) `{!∀ x, Decision (P x)} (l : list A) :
  Forall P l -> filter P l = l.
Proof.
  induction 1 as [|x l Hx _ IH]; [reflexivity|].
  rewrite filter_cons_True by exact Hx. by rewrite IH.
Qed.

Lemma filter_none {A} (P : A -> Prop) `{!∀ x, Decision (P x)} (l : list A) :
  Forall (fun x => ¬ P x) l -> filter P l = [].
Proof.
  induction 1 as [|x l Hx _ IH]; [reflexivity|].
  rewrite filter_cons_False by exact Hx. exact IH.
Qed.

Lemma filter_name_row_metrics base r n :
  filter (fun m => name_label m = Some n) (row_metrics base r)
  = if decide (lname r = n) then row_metrics base r else [].
Proof.
  destruct (decide (lname r = n)) as [<-|Hne].
  - apply filter_all, Forall_forall. intros m Hm.
    by apply name_label_row_metrics with base.
  - apply filter_none, Forall_forall. intros m Hm.
    rewrite (name_label_row_metrics base r m Hm). congruence.
Qed.

(** The first row of a table that bears the name [n] and has a raw value
    starting with a digit. *)
Definition first_readable (n : string) (rows : list TableRow) : option TableRow :=
  head (filter (fun r => lname r = n ∧ leading_digits (raw_text r) ≠ "") rows).

Lemma filter_name_table_metrics base seen rows n :
  n ∈ smart_attributes_whitelist ->
  filter (fun m => name_label m = Some n) (table_metrics base seen rows)
  = if decide (n ∈ seen) then []
    else from_option (row_metrics base) [] (first_readable n rows).
Proof.
  intros Hwl. unfold first_readable. revert seen.
  induction rows as [|r rows IH]; intros seen.
  - cbn [table_metrics]. by destruct (decide (n ∈ seen)).
  - cbn [table_metrics].
    destruct (decide (passes r ∧ lname r ∉ seen)) as [[[Hw Hd] Hnew]|Hskip].
    + rewrite filter_app, filter_name_row_metrics, IH.
      destruct (decide (lname r = n)) as [<-|Hne].
      * rewrite decide_True by (apply elem_of_union_l, elem_of_singleton_2;
                                reflexivity).
        rewrite decide_False by exact Hnew.
        rewrite filter_cons_True by (split; [reflexivity|exact Hd]).
        cbn [head from_option]. apply app_nil_r.
      * rewrite filter_cons_False by (intros [? _]; contradiction).
        cbn [app].
        destruct (decide (n ∈ seen)) as [Hs|Hs].
        -- rewrite decide_True by (apply elem_of_union_r; exact Hs).
           reflexivity.
        -- rewrite decide_False; [reflexivity|].
           rewrite elem_of_union, elem_of_singleton.
           intros [Heq|Hin]; [apply Hne; symmetry; exact Heq|exact (Hs Hin)].
    + rewrite IH. destruct (decide (n ∈ seen)) as [Hs|Hs]; [reflexivity|].
      rewrite filter_cons_False; [reflexivity|].
      intros [Heq Hd]. subst n. apply Hskip. split; [split|]; assumption.
Qed.

(** C4, as the parser has it: of the rows of a table that share a
    whitelisted lower-cased name, the first one whose raw value starts
    with a digit is the only one that yields metrics, so the name gets
    one set of four metrics if some row bearing it is readable and none
    otherwise; the rows after that one are suppressed. *)
Theorem ata_duplicate_names_first_readable device base attributes rows n :
  base_labels device = inr base ->
  ata_table attributes = (map row_fields rows, false) ->
  n ∈ smart_attributes_whitelist ->
  filter (fun m => name_label m = Some n)
         (yielded (ata_metrics_of device attributes))
  = from_option (row_metrics base) [] (first_readable n rows).
Proof.
  intros Hbase Htable Hwl.
  rewrite (ata_metrics_of_rows device base attributes rows Hbase Htable).
  unfold yielded. cbn [fst].
  rewrite filter_name_table_metrics by exact Hwl.
  rewrite decide_False by apply not_elem_of_empty. reflexivity.
Qed.

(** The attribute listing of a disk whose table has the attribute
    [Power_On_Hours] under two ids; the row that comes first has a raw
    value that does not start with a digit. *)
Definition attributes_two_hours : string :=
"smartctl 6.6 2016-05-31 r4324 [x86_64-linux-4.9.0] (local build)
Copyright (C) 2002-16, Bruce Allen, Christian Franke, www.smartmontools.org

=== START OF READ SMART DATA SECTION ===
SMART Attributes Data Structure revision number: 16
Vendor Specific SMART Attributes with Thresholds:
ID# ATTRIBUTE_NAME          FLAG     VALUE WORST THRESH TYPE      UPDATED  WHEN_FAILED RAW_VALUE
240 Power_On_Hours          0x0032   091   091   000    Old_age   Always       -       (unknown)
  9 Power_On_Hours          0x0032   091   091   ---    Old_age   Always       -       6709
".

Lemma attributes_two_hours_table :
  ata_table attributes_two_hours
  = (map row_fields [row_hours_unreadable; row_hours], false).
Proof. vm_compute. reflexivity. Qed.

Lemma ata_duplicate_names_first_readable_witness :
  filter (fun m => name_label m = Some "power_on_hours")
         (yielded (ata_metrics_of sda attributes_two_hours))
  = from_option (row_metrics sda_labels) []
      (first_readable "power_on_hours" [row_hours_unreadable; row_hours]).
Proof.
  apply (ata_duplicate_names_first_readable sda sda_labels
           attributes_two_hours [row_hours_unreadable; row_hours]).
  - reflexivity.
  - vm_compute. reflexivity.
  - apply whitelisted_by_computation. vm_compute. reflexivity.
Defined.

(** The claim C4 as the specification words it: in a table where a
    later row shares the whitelisted lower-cased name of the row [r1],
    the first to bear it, the metrics labelled with that name are the
    four metrics of [r1]. *)
Definition first_row_only (device : Device) (base : dict string)
    (attributes : string) (rows : list TableRow) : Prop :=
  forall pre r1 post,
    rows = pre ++ r1 :: post ->
    lname r1 ∈ smart_attributes_whitelist ->
    Forall (fun r => lname r ≠ lname r1) pre ->
    Exists (fun r => lname r = lname r1) post ->
    filter (fun m => name_label m = Some (lname r1))
           (yielded (ata_metrics_of device attributes))
    = row_metrics base r1.

(** C4 fails as worded: when the first row that bears the name has a raw
    value that does not start with a digit, it yields nothing, and the
    second row, which is readable, yields the metrics. *)
Lemma first_row_only_fails :
  ata_table attributes_two_hours
    = (map row_fields [row_hours_unreadable; row_hours], false)
  ∧ yielded (ata_metrics_of sda attributes_two_hours)
    = row_metrics sda_labels row_hours
  ∧ ¬ first_row_only sda sda_labels attributes_two_hours
        [row_hours_unreadable; row_hours].
Proof.
  split; [exact attributes_two_hours_table|]. split.
  - vm_compute. reflexivity.
  - intros Hclaim.
    specialize (Hclaim [] row_hours_unreadable [row_hours] eq_refl).
    assert (Hfalse :
      filter (fun m => name_label m = Some (lname row_hours_unreadable))
             (yielded (ata_metrics_of sda attributes_two_hours))
      = row_metrics sda_labels row_hours_unreadable).
    { apply Hclaim.
      - apply whitelisted_by_computation. vm_compute. reflexivity.
      - constructor.
      - constructor. reflexivity. }
    vm_compute in Hfalse. discriminate Hfalse.
Qed.

(** C10: a name enters the set of reported names only with the metrics
    of its row.  When every row before [r] that bears the name of [r]
    was dropped for a raw value without a leading digit, and [r] is
    whitelisted and readable, the four metrics of [r] are yielded, after
    metrics that carry other names only. *)
Theorem ata_dropped_row_leaves_name_unseen device base attributes pre r post :
  base_labels device = inr base ->
  ata_table attributes = (map row_fields (pre ++ r :: post), false) ->
  lname r ∈ smart_attributes_whitelist ->
  leading_digits (raw_text r) ≠ "" ->
  Forall (fun r' => lname r' = lname r -> leading_digits (raw_text r') = "")
         pre ->
  ∃ before after,
    yielded (ata_metrics_of device attributes)
      = before ++ row_metrics base r ++ after
    ∧ Forall (fun m => name_label m ≠ Some (lname r)) before.
Proof.
  intros Hbase Htable Hwl Hdigits Hpre.
  rewrite (ata_metrics_of_rows device base attributes _ Hbase Htable).
  unfold yielded. cbn [fst].
  rewrite table_metrics_app. cbn [table_metrics].
  assert (Hnew : lname r ∉ table_seen ∅ pre).
  { rewrite elem_of_table_seen. intros [Hin|Hex].
    - by apply not_elem_of_empty in Hin.
    - apply Exists_exists in Hex. destruct Hex as (r' & Hin & [_ Hd] & Heq).
      rewrite Forall_forall in Hpre. apply Hd, (Hpre r' Hin Heq). }
  rewrite decide_True by (split; [split|]; assumption).
  eexists _, _. split; [reflexivity|].
  apply Forall_forall. intros m Hm.
  destruct (elem_of_table_metrics _ _ _ _ Hm) as (r' & Hin & [_ Hd] & _ & Hm').
  rewrite (name_label_row_metrics base r' m Hm'). intros [= Heq].
  rewrite Forall_forall in Hpre. apply Hd, (Hpre r' Hin Heq).
Qed.

Lemma ata_dropped_row_leaves_name_unseen_witness :
  ∃ before after,
    yielded (ata_metrics_of sda attributes_two_hours)
      = before ++ row_metrics sda_labels row_hours ++ after
    ∧ Forall (fun m => name_label m ≠ Some (lname row_hours)) before.
Proof.
  apply (ata_dropped_row_leaves_name_unseen sda sda_labels
           attributes_two_hours [row_hours_unreadable] row_hours []).
  - reflexivity.
  - vm_compute. reflexivity.
  - apply whitelisted_by_computation. vm_compute. reflexivity.
  - vm_compute. discriminate.
  - constructor; [|constructor]. intros _. vm_compute. reflexivity.
Defined.

(** ** The NVMe attribute block *)

(** Whether a character occurs in a text. *)
Fixpoint has_char (c : ascii) (s : string) : bool :=
  match s with
  | "" => false
  | String c' s' => Ascii.eqb c' c || has_char c s'
  end.

Lemma split_without_separator sep s :
  has_char sep s = false -> PyStr.split sep s = [s].
Proof.
  induction s as [|c s IH]; [reflexivity|].
  cbn [has_char PyStr.split]. intros [Hc Hs]%orb_false_elim.
  rewrite Hc, (IH Hs). reflexivity.
Qed.

(** The loop of [collect_nvme_metrics] over lines. *)
Definition nvme_loop (device : Device) (lines : list string) : Out Metric unit :=
  for_each (fun _ line => nvme_line device line) tt lines.

Lemma nvme_line_without_colon device line :
  has_char ":" line = false -> nvme_line device line = raise ValueError.
Proof.
  intros Hline. unfold nvme_line.
  by rewrite (split_without_separator _ _ Hline).
Qed.

(** C9: a line of the NVMe block (after the six lines skipped) that has
    no colon stops the parser with an exception when the loop reaches
    it: the parser never ends normally on such a block, and when the
    lines before it were read without an exception, the exception is
    the [ValueError] of the unpacking of that line and what was yielded
    is what the lines before it yielded. *)
Theorem nvme_line_without_colon_raises device attributes pre line post :
  nvme_lines attributes = pre ++ line :: post ->
  has_char ":" line = false ->
  (∃ e, outcome (nvme_metrics_of device attributes) = inl e)
  ∧ nvme_line device line = ([], inl ValueError)
  ∧ (outcome (nvme_loop device pre) = inr tt ->
     nvme_metrics_of device attributes
     = (yielded (nvme_loop device pre), inl ValueError)).
Proof.
  intros Hlines Hline.
  pose proof (nvme_line_without_colon device line Hline) as Hraise.
  assert (Htail : for_each (fun _ l => nvme_line device l) tt (line :: post)
                  = raise ValueError).
  { rewrite for_each_cons, Hraise. apply bind_raise. }
  unfold nvme_metrics_of. rewrite Hlines, for_each_app.
  fold (nvme_loop device pre).
  destruct (nvme_loop device pre) as [ys [e|[]]].
  - unfold bind, outcome. cbn [fst snd].
    split; [eauto|]. split; [exact Hraise|]. discriminate.
  - unfold bind. rewrite Htail. unfold raise, outcome, yielded. cbn [fst snd].
    rewrite app_nil_r. split; [eauto|]. split; [exact Hraise|]. reflexivity.
Qed.

Definition nvme0 : Device := {| path := "/dev/nvme0"; type := Some "nvme" |}.

(** An NVMe health block followed by a line that has no colon. *)
Definition attributes_nvme_broken : string :=
"smartctl 6.6 2016-05-31 r4324 [x86_64-linux-4.9.0] (local build)
Copyright (C) 2002-16, Bruce Allen, Christian Franke, www.smartmontools.org

=== START OF SMART DATA SECTION ===
SMART/Health Information (NVMe Log 0x02, NSID 0xffffffff)
Critical Warning:                   0x00
Temperature:                        32 Celsius
Percentage Used:                    1%
-- no health data --
Unsafe Shutdowns:                   17
".

Lemma nvme_line_without_colon_raises_witness :
  (∃ e, outcome (nvme_metrics_of nvme0 attributes_nvme_broken) = inl e)
  ∧ nvme_line nvme0 "-- no health data --" = ([], inl ValueError)
  ∧ (outcome (nvme_loop nvme0 ["Temperature: 32 Celsius"; "Percentage Used: 1%"])
       = inr tt ->
     nvme_metrics_of nvme0 attributes_nvme_broken
     = (yielded (nvme_loop nvme0
                   ["Temperature: 32 Celsius"; "Percentage Used: 1%"]),
        inl ValueError)).
Proof.
  apply (nvme_line_without_colon_raises nvme0 attributes_nvme_broken
           ["Temperature: 32 Celsius"; "Percentage Used: 1%"]
           "-- no health data --" ["Unsafe Shutdowns: 17"]).
  - vm_compute. reflexivity.
  - reflexivity.
Defined.

(** The two lines of the specification's examples. *)
Example nvme_temperature_and_percentage :
  yielded (nvme_loop nvme0 ["Temperature: 32 Celsius"; "Percentage Used: 1%"])
  = [ {| name := "temperature_celcius";
         labels := [("device", "/dev/nvme0"); ("disk", "0")];
         value := PStr " 32" |};
      {| name := "percentage_used_ratio";
         labels := [("device", "/dev/nvme0"); ("disk", "0")];
         value := PStr " 1" |} ].
Proof. vm_compute. reflexivity. Qed.

(** ** Device information lines *)

(** Every character of a text is in a class. *)
Fixpoint all_chars (p : ascii -> bool) (s : string) : bool :=
  match s with
  | "" => true
  | String c s' => p c && all_chars p s'
  end.

Definition not_colon (c : ascii) : bool := negb (Ascii.eqb c ":"%char).

Lemma all_chars_take_while p s : all_chars p s = true -> take_while p s = s.
Proof.
  induction s as [|c s IH]; [reflexivity|]. cbn [all_chars take_while].
  intros [-> Hs]%andb_true_iff. by rewrite (IH Hs).
Qed.

Lemma all_chars_drop_while p s : all_chars p s = true -> drop_while p s = "".
Proof.
  induction s as [|c s IH]; [reflexivity|]. cbn [all_chars drop_while].
  intros [-> Hs]%andb_true_iff. exact (IH Hs).
Qed.

Lemma all_chars_app p s1 s2 :
  all_chars p (s1 +:+ s2) = all_chars p s1 && all_chars p s2.
Proof.
  induction s1 as [|c s1 IH]; [reflexivity|].
  change (String c s1 +:+ s2) with (String c (s1 +:+ s2)).
  cbn [all_chars]. by rewrite IH, andb_assoc.
Qed.

Lemma all_chars_drop_while_other p q s :
  all_chars p s = true -> all_chars p (drop_while q s) = true.
Proof.
  induction s as [|c s IH]; [reflexivity|]. cbn [all_chars drop_while].
  intros [Hc Hs]%andb_true_iff. destruct (q c); [exact (IH Hs)|].
  cbn [all_chars]. by rewrite Hc, Hs.
Qed.

Lemma drop_while_app_all p s1 s2 :
  all_chars p s1 = true -> drop_while p (s1 +:+ s2) = drop_while p s2.
Proof.
  induction s1 as [|c s1 IH]; [reflexivity|].
  change (String c s1 +:+ s2) with (String c (s1 +:+ s2)).
  cbn [all_chars drop_while]. intros [-> Hs]%andb_true_iff. exact (IH Hs).
Qed.

(** Greedy repetition succeeds with the whole run of the class when the
    continuation succeeds there. *)
Lemma repeat_greedy_max p min (k : Re.cont) prev s caps r :
  (min <= String.length (take_while p s))%nat ->
  k (last_char prev (take_while p s)) (drop_while p s) caps = Some r ->
  Re.repeat_greedy p min k prev s caps = Some r.
Proof.
  revert min prev. induction s as [|c s IH]; intros min prev Hmin Hk.
  - cbn in *. destruct min; [exact Hk|lia].
  - cbn [take_while drop_while Re.repeat_greedy] in *.
    destruct (p c) eqn:Hc.
    + cbn [last_char String.length] in *.
      rewrite (IH (pred min) (Some c)); [reflexivity|lia|exact Hk].
    + cbn in Hmin. destruct min; [exact Hk|lia].
Qed.

(** The separator of [device_info_re] and what follows it. *)
Definition info_sep : Re.regex :=
  Re.Seq (Re.Alt (Re.Seq (Re.Class PyStr.isspace) (Re.lit "is")) Re.Empty)
         (Re.chr ":"%char).

Definition info_rest : Re.regex :=
  Re.seq [ Re.Repeat true 0 PyStr.isspace;
           Re.Group 2 (Re.Repeat true 0 Re.dot);
           Re.Eol false ].

Lemma device_info_re_unfold :
  device_info_re
  = Re.Seq (Re.Bol false)
      (Re.Seq (Re.Group 1 (Re.Repeat false 1 not_colon))
         (Re.Seq info_sep info_rest)).
Proof. reflexivity. Qed.

(** On a text without a newline, the part after the separator skips the
    leading whitespace and captures all that follows. *)
Lemma info_rest_run prev s caps :
  all_chars Re.dot s = true ->
  Re.run info_rest Re.accept prev s caps
  = Some ((2%nat, drop_while PyStr.isspace s) :: caps).
Proof.
  intros Hs. unfold info_rest. cbn [Re.seq Re.run].
  apply repeat_greedy_max; [lia|].
  pose proof (all_chars_drop_while_other Re.dot PyStr.isspace s Hs) as Hrest.
  apply repeat_greedy_max; [lia|].
  rewrite (all_chars_drop_while _ _ Hrest).
  cbn [Re.at_eol Re.accept String.length]. rewrite Nat.sub_0_r.
  unfold Re.accept. by rewrite substring_full.
Qed.

(** Whether a text starts with a separator: a colon, or a whitespace
    character, [is] and a colon. *)
Definition sep_at (s : string) : bool :=
  match s with
  | "" => false
  | String c s' =>
      Ascii.eqb ":"%char c || (PyStr.isspace c && PyStr.startswith "is:" s')
  end.

Lemma info_sep_colon (k : Re.cont) prev s caps :
  Re.run info_sep k prev (String ":"%char s) caps = k (Some ":"%char) s caps.
Proof. reflexivity. Qed.

Lemma info_sep_is (k : Re.cont) prev c s caps :
  PyStr.isspace c = true ->
  Re.run info_sep k prev (String c ("is:" +:+ s)) caps = k (Some ":"%char) s caps.
Proof.
  intros Hc. unfold info_sep.
  change ("is:" +:+ s) with (String "i"%char (String "s"%char (String ":"%char s))).
  cbn [Re.run Re.chr Re.lit]. rewrite Hc.
  change (Ascii.eqb "i"%char "i"%char) with true.
  change (Ascii.eqb "s"%char "s"%char) with true.
  change (Ascii.eqb ":"%char ":"%char) with true. cbv iota.
  destruct (k (Some ":"%char) s caps); [reflexivity|].
  destruct (Ascii.eqb_spec ":"%char c) as [<-|]; [discriminate Hc|reflexivity].
Qed.

Lemma info_sep_fails (k : Re.cont) prev s caps :
  sep_at s = false -> Re.run info_sep k prev s caps = None.
Proof.
  destruct s as [|c s]; [reflexivity|]. unfold sep_at, info_sep.
  intros [Hcolon His]%orb_false_elim. cbn [Re.run Re.chr Re.lit].
  rewrite Hcolon.
  destruct (PyStr.isspace c); [|reflexivity]. cbn [andb] in His.
  destruct s as [|c1 s]; [reflexivity|].
  destruct (Ascii.eqb_spec "i"%char c1) as [<-|]; [|reflexivity].
  destruct s as [|c2 s]; [reflexivity|].
  destruct (Ascii.eqb_spec "s"%char c2) as [<-|]; [|reflexivity].
  destruct s as [|c3 s]; [reflexivity|].
  destruct (Ascii.eqb_spec ":"%char c3) as [<-|]; [|reflexivity].
  discriminate His.
Qed.

Lemma append_cons c (a b : string) : String c a +:+ b = String c (a +:+ b).
Proof. reflexivity. Qed.

Lemma append_assoc (a b c : string) : (a +:+ b) +:+ c = a +:+ (b +:+ c).
Proof. induction a as [|x a IH]; [reflexivity|]. by rewrite !append_cons, IH. Qed.

Lemma length_append (a b : string) :
  String.length (a +:+ b) = (String.length a + String.length b)%nat.
Proof. induction a as [|x a IH]; [reflexivity|]. rewrite append_cons. cbn. by rewrite IH. Qed.

Lemma substring_before (a b : string) :
  String.substring 0 (String.length (a +:+ b) - String.length b) (a +:+ b) = a.
Proof.
  rewrite length_append.
  replace (String.length a + String.length b - String.length b)%nat
    with (String.length a) by lia.
  apply substring_prefix.
Qed.

(** Lazy repetition stops at the first position, after [min]
    characters, where the continuation succeeds. *)
Lemma repeat_lazy_first p min (k : Re.cont) prev pre rest caps r :
  all_chars p pre = true ->
  (min <= String.length pre)%nat ->
  (forall a b pr, pre = a +:+ b -> b ≠ "" -> (min <= String.length a)%nat ->
                  k pr (b +:+ rest) caps = None) ->
  k (last_char prev pre) rest caps = Some r ->
  Re.repeat_lazy p min k prev (pre +:+ rest) caps = Some r.
Proof.
  revert min prev. induction pre as [|c pre IH]; intros min prev Hp Hmin Hfail Hk.
  - cbn in Hmin, Hk. assert (min = 0%nat) as -> by lia.
    change ("" +:+ rest) with rest.
    destruct rest; cbn [Re.repeat_lazy]; by rewrite Hk.
  - cbn [all_chars] in Hp. apply andb_true_iff in Hp as [Hc Hp].
    rewrite append_cons. cbn [Re.repeat_lazy]. rewrite Hc.
    assert (Hrec : Re.repeat_lazy p (pred min) k (Some c) (pre +:+ rest) caps
                   = Some r).
    { apply IH; [exact Hp|cbn in Hmin; lia| |exact Hk].
      intros a b pr -> Hb Ha.
      apply (Hfail (String c a) b pr); [reflexivity|exact Hb|cbn; lia]. }
    rewrite Hrec. destruct min; [|reflexivity].
    rewrite <- append_cons.
    by rewrite (Hfail "" (String c pre) prev eq_refl) by (done || cbn; lia).
Qed.

(** Lazy repetition fails when the continuation fails wherever it is
    tried. *)
Lemma repeat_lazy_fails p min (k : Re.cont) prev s caps :
  (forall a b pr, s = a +:+ b -> k pr b caps = None) ->
  Re.repeat_lazy p min k prev s caps = None.
Proof.
  revert min prev. induction s as [|c s IH]; intros min prev Hfail.
  - cbn. rewrite (Hfail "" "" prev eq_refl). by destruct min.
  - cbn [Re.repeat_lazy].
    rewrite (IH (pred min) (Some c))
      by (intros a b pr ->; apply (Hfail (String c a) b pr); reflexivity).
    rewrite (Hfail "" (String c s) prev eq_refl).
    destruct (p c); by destruct min.
Qed.

(** A key ends in a whitespace character and [is], after at least one
    other character. *)
Fixpoint ends_with_is (key : string) : bool :=
  match key with
  | "" => false
  | String _ rest =>
      match rest with
      | String c tail => PyStr.isspace c && String.eqb tail "is"
      | "" => false
      end
      || ends_with_is rest
  end.

Lemma ends_with_is_app a c :
  a ≠ "" -> PyStr.isspace c = true -> ends_with_is (a +:+ String c "is") = true.
Proof.
  intros Ha Hc. induction a as [|x a IH]; [done|].
  rewrite append_cons. cbn [ends_with_is].
  destruct a as [|y a].
  - change ("" +:+ String c "is") with (String c "is"). cbv beta iota.
    by rewrite Hc.
  - rewrite IH by done. apply orb_true_r.
Qed.

Lemma startswith_is_colon s :
  PyStr.startswith "is:" s = true -> has_char ":" s = true.
Proof.
  destruct s as [|c1 [|c2 [|c3 s]]]; cbn [PyStr.startswith];
    rewrite ?andb_false_r; try discriminate.
  intros [_ [_ [Hc3 _]%andb_true_iff]%andb_true_iff]%andb_true_iff.
  cbn [has_char]. rewrite (Ascii.eqb_sym c3), Hc3. by rewrite !orb_true_r.
Qed.

Lemma sep_at_no_colon s : has_char ":" s = false -> sep_at s = false.
Proof.
  destruct s as [|c s]; [reflexivity|]. cbn [has_char sep_at].
  intros [Hc Hs]%orb_false_elim. rewrite Ascii.eqb_sym, Hc. cbn [orb].
  destruct (PyStr.startswith "is:" s) eqn:His; [|apply andb_false_r].
  apply startswith_is_colon in His. congruence.
Qed.

Lemma has_char_all_not_colon s :
  all_chars not_colon s = true -> has_char ":" s = false.
Proof.
  induction s as [|c s IH]; [reflexivity|]. cbn [all_chars has_char].
  unfold not_colon at 1. intros [Hc Hs]%andb_true_iff.
  apply negb_true_iff in Hc. by rewrite Hc, (IH Hs).
Qed.

Lemma not_colon_head c s :
  all_chars not_colon (String c s) = true ->
  Ascii.eqb ":"%char c = false ∧ all_chars not_colon s = true.
Proof.
  cbn [all_chars]. unfold not_colon at 1. intros [Hc Hs]%andb_true_iff.
  apply negb_true_iff in Hc. by rewrite Ascii.eqb_sym.
Qed.

(** Inside a key that is followed by a colon, a separator can only start
    at a final whitespace-[is]. *)
Lemma sep_at_inside_colon b r :
  b ≠ "" -> all_chars not_colon b = true ->
  sep_at (b +:+ String ":"%char r) = true ->
  ∃ c, PyStr.isspace c = true ∧ b = String c "is".
Proof.
  intros Hb Hnc. destruct b as [|b0 b]; [done|].
  apply not_colon_head in Hnc as [H0 Hnc].
  rewrite append_cons. cbn [sep_at]. rewrite H0. cbn [orb].
  intros [Hsp His]%andb_true_iff. exists b0. split; [exact Hsp|]. f_equal.
  destruct b as [|b1 b]; [discriminate His|].
  apply not_colon_head in Hnc as [_ Hnc].
  rewrite append_cons in His. cbn [PyStr.startswith] in His.
  apply andb_true_iff in His as [->%Ascii.eqb_eq His].
  destruct b as [|b2 b]; [discriminate His|].
  apply not_colon_head in Hnc as [_ Hnc].
  rewrite append_cons in His. cbn [PyStr.startswith] in His.
  apply andb_true_iff in His as [->%Ascii.eqb_eq His].
  destruct b as [|b3 b]; [reflexivity|].
  apply not_colon_head in Hnc as [H3 _].
  rewrite append_cons in His. cbn [PyStr.startswith] in His.
  rewrite H3 in His. discriminate His.
Qed.

(** Inside a key that is followed by whitespace, [is] and a colon, no
    separator starts. *)
Lemma sep_at_inside_is b c r :
  b ≠ "" -> all_chars not_colon b = true -> PyStr.isspace c = true ->
  sep_at (b +:+ String c ("is:" +:+ r)) = false.
Proof.
  intros Hb Hnc Hc. destruct b as [|b0 b]; [done|].
  apply not_colon_head in Hnc as [H0 Hnc].
  rewrite append_cons. cbn [sep_at]. rewrite H0. cbn [orb].
  apply andb_false_iff. right.
  destruct b as [|b1 b].
  { change ("" +:+ String c ("is:" +:+ r)) with (String c ("is:" +:+ r)).
    cbn [PyStr.startswith].
    destruct (Ascii.eqb_spec "i"%char c) as [<-|]; [discriminate Hc|reflexivity]. }
  apply not_colon_head in Hnc as [_ Hnc].
  rewrite append_cons. cbn [PyStr.startswith].
  destruct (Ascii.eqb "i"%char b1); [cbn [andb]|reflexivity].
  destruct b as [|b2 b].
  { change ("" +:+ String c ("is:" +:+ r)) with (String c ("is:" +:+ r)).
    cbn [PyStr.startswith].
    destruct (Ascii.eqb_spec "s"%char c) as [<-|]; [discriminate Hc|reflexivity]. }
  apply not_colon_head in Hnc as [_ Hnc].
  rewrite append_cons. cbn [PyStr.startswith].
  destruct (Ascii.eqb "s"%char b2); [cbn [andb]|reflexivity].
  destruct b as [|b3 b].
  { change ("" +:+ String c ("is:" +:+ r)) with (String c ("is:" +:+ r)).
    cbn [PyStr.startswith].
    destruct (Ascii.eqb_spec ":"%char c) as [<-|]; [discriminate Hc|reflexivity]. }
  apply not_colon_head in Hnc as [H3 _].
  rewrite append_cons. cbn [PyStr.startswith]. by rewrite H3.
Qed.

(** The two separators of a device information line. *)
Inductive separator : string -> Prop :=
| sep_colon : separator ":"
| sep_is c : PyStr.isspace c = true -> separator (String c "is:").

(** A line without a colon does not match. *)
Lemma device_info_without_colon line :
  has_char ":" line = false -> device_info_groups line = None.
Proof.
  intros Hline. unfold device_info_groups, Re.re_match.
  rewrite device_info_re_unfold. cbn [Re.run Re.at_bol].
  rewrite repeat_lazy_fails; [reflexivity|].
  intros a b pr ->. apply info_sep_fails, sep_at_no_colon.
  clear -Hline. induction a as [|x a IH]; [exact Hline|].
  rewrite append_cons in Hline. cbn [has_char] in Hline.
  apply orb_false_elim in Hline as [_ Hline]. exact (IH Hline).
Qed.

(** What the pattern gives on key, separator, whitespace, value. *)
Lemma device_info_match key sep ws v :
  key ≠ "" -> all_chars not_colon key = true ->
  separator sep -> (sep = ":" -> ends_with_is key = false) ->
  all_chars PyStr.isspace ws = true -> all_chars Re.dot ws = true ->
  all_chars Re.dot v = true -> drop_while PyStr.isspace v = v ->
  Re.re_match device_info_re (key +:+ sep +:+ ws +:+ v)
  = Some [(2%nat, v); (1%nat, key)].
Proof.
  intros Hkey Hnc Hsep Hends Hws Hwsdot Hvdot Hv.
  unfold Re.re_match. rewrite device_info_re_unfold.
  cbn [Re.run Re.at_bol].
  apply repeat_lazy_first; [exact Hnc|destruct key; [done|cbn; lia]| |].
  - intros a b pr -> Hb Ha. apply info_sep_fails.
    assert (a ≠ "") as Ha' by (destruct a; [cbn in Ha; lia|done]).
    assert (all_chars not_colon b = true) as Hbnc.
    { rewrite all_chars_app in Hnc. by apply andb_true_iff in Hnc as [_ ?]. }
    destruct Hsep as [|c Hc].
    + destruct (sep_at (b +:+ ":" +:+ ws +:+ v)) eqn:Hat; [|reflexivity].
      apply sep_at_inside_colon in Hat as (c & Hc & ->); [|exact Hb|exact Hbnc].
      rewrite ends_with_is_app in Hends by assumption.
      by specialize (Hends eq_refl).
    + apply (sep_at_inside_is b c (ws +:+ v)); assumption.
  - rewrite substring_before.
    assert (Hrest : all_chars Re.dot (ws +:+ v) = true)
      by (by rewrite all_chars_app, Hwsdot, Hvdot).
    destruct Hsep as [|c Hc].
    + change (":" +:+ ws +:+ v) with (String ":"%char (ws +:+ v)).
      rewrite info_sep_colon, info_rest_run by exact Hrest.
      by rewrite drop_while_app_all, Hv.
    + change (String c "is:" +:+ ws +:+ v)
        with (String c ("is:" +:+ (ws +:+ v))).
      rewrite info_sep_is, info_rest_run by assumption.
      by rewrite drop_while_app_all, Hv.
Qed.

(** C7, as the pattern has it: a line made of a non-empty key without a
    colon, then a colon or a whitespace character followed by [is] and a
    colon, then whitespace, then a value, gives the pair of the key and
    the value; the key is the shortest prefix that ends at such a
    separator, so for the colon form the key must not itself end in
    whitespace and [is].  A line without a colon gives nothing, whatever
    else it contains. *)
Theorem device_info_line_parsed key sep ws v :
  key ≠ "" -> all_chars not_colon key = true ->
  separator sep -> (sep = ":" -> ends_with_is key = false) ->
  all_chars PyStr.isspace ws = true -> all_chars Re.dot ws = true ->
  all_chars Re.dot v = true -> drop_while PyStr.isspace v = v ->
  device_info_groups (key +:+ sep +:+ ws +:+ v) = Some (key, v)
  ∧ (forall line, has_char ":" line = false -> device_info_groups line = None).
Proof.
  intros Hkey Hnc Hsep Hends Hws Hwsdot Hvdot Hv.
  split; [|exact device_info_without_colon].
  unfold device_info_groups.
  by rewrite (device_info_match key sep ws v).
Qed.

Lemma device_info_line_parsed_witness :
  device_info_groups ("SMART support" +:+ " is:" +:+ " " +:+ "Available - device has SMART capability.")
  = Some ("SMART support", "Available - device has SMART capability.")
  ∧ (forall line, has_char ":" line = false -> device_info_groups line = None).
Proof.
  apply (device_info_line_parsed "SMART support" " is:" " "
           "Available - device has SMART capability.").
  - discriminate.
  - reflexivity.
  - apply (sep_is " "%char). reflexivity.
  - discriminate.
  - reflexivity.
  - reflexivity.
  - reflexivity.
  - reflexivity.
Defined.

(** C7 fails as worded: a line that uses [is] between key and value
    without a colon is not parsed. *)
Lemma device_info_is_without_colon_not_parsed :
  device_info_groups "Rotation Rate is 7200 rpm" = None
  ∧ device_info_groups "Rotation Rate: 7200 rpm"
    = Some ("Rotation Rate", "7200 rpm")
  ∧ device_info_groups "SMART support is: Enabled"
    = Some ("SMART support", "Enabled").
Proof. vm_compute. auto. Qed.

(** ** The loop over devices *)

(** The invocation of the standby probe for a device of type [t]. *)
Definition standby_probe (device : Device) (t : string) : call :=
  ["--nocheck"; "standby"; "--device"; t; path device].

(** C2: for a device whose standby probe exits non-zero, with the
    wake-up flag off, the loop body yields exactly [smartctl_run] and
    [device_active] (false), in that order, and the only invocation of
    smartctl it makes is the probe: no information, capability, health
    or attribute query is run. *)
Theorem inactive_device_two_metrics smartctl now device t log :
  type device = Some t ->
  exit_ok (smartctl log (standby_probe device t)) = false ->
  ∃ base,
    base_labels device = inr base
    ∧ collect_device_metrics smartctl false now device log
      = (log ++ [standby_probe device t],
         ([ {| name := "smartctl_run"; labels := base; value := PInt now |};
            {| name := "device_active"; labels := base;
               value := PBool false |} ],
          inr tt)).
Proof.
  intros Htype Hprobe. unfold base_labels. rewrite Htype.
  eexists. split; [reflexivity|].
  unfold collect_device_metrics, gbind, get_base_labels, read_base_labels,
    lift, device_is_active, smart_ctl, smartctl_select, base_labels.
  rewrite Htype. cbn [mapM mbind option_bind mret option_ret id].
  fold (standby_probe device t). rewrite Hprobe. reflexivity.
Qed.

(** A drive that is asleep: the probe fails, everything else would
    answer. *)
Definition smartctl_asleep (log : list call) (args : call) : completed :=
  match args with
  | "--nocheck" :: _ => {| exit_ok := false; stdout := "" |}
  | _ => {| exit_ok := true; stdout := "" |}
  end.

Lemma inactive_device_two_metrics_witness :
  ∃ base,
    base_labels sda = inr base
    ∧ collect_device_metrics smartctl_asleep false 1700000000 sda []
      = ([] ++ [standby_probe sda "sat"],
         ([ {| name := "smartctl_run"; labels := base;
               value := PInt 1700000000 |};
            {| name := "device_active"; labels := base;
               value := PBool false |} ],
          inr tt)).
Proof.
  apply (inactive_device_two_metrics smartctl_asleep 1700000000 sda "sat" []).
  - reflexivity.
  - reflexivity.
Defined.

(** ** Sorting by name *)

Definition name_le (a b : Metric) : Prop := String.leb (name a) (name b) = true.

Lemma ascii_compare_refl c : Ascii.compare c c = Eq.
Proof. unfold Ascii.compare. apply N.compare_refl. Qed.

Lemma string_leb_trans (s1 s2 s3 : string) :
  String.leb s1 s2 = true -> String.leb s2 s3 = true -> String.leb s1 s3 = true.
Proof.
  unfold String.leb. revert s2 s3.
  induction s1 as [|c1 s1 IH]; intros [|c2 s2] [|c3 s3]; cbn; try done.
  destruct (Ascii.compare c1 c2) eqn:H12; [| |done].
  - apply Ascii.compare_eq_iff in H12 as ->.
    destruct (Ascii.compare c2 c3); [apply IH|done|done].
  - destruct (Ascii.compare c2 c3) eqn:H23; [| |done].
    + apply Ascii.compare_eq_iff in H23 as <-. by rewrite H12.
    + unfold Ascii.compare in *. rewrite N.compare_lt_iff in H12, H23.
      assert (N_of_ascii c1 < N_of_ascii c3)%N as H13 by lia.
      apply N.compare_lt_iff in H13. by rewrite H13.
Qed.

Lemma string_leb_false (s1 s2 : string) :
  String.leb s1 s2 = false -> String.leb s2 s1 = true ∧ s1 ≠ s2.
Proof.
  intros Hf. split.
  - destruct (String.leb_total s1 s2) as [H|H]; [congruence|exact H].
  - intros ->. destruct (String.leb_total s2 s2); congruence.
Qed.

Lemma sort_insert_elem m l x : x ∈ sort_insert m l <-> x = m ∨ x ∈ l.
Proof.
  induction l as [|y l IH]; cbn [sort_insert].
  - rewrite list_elem_of_singleton, elem_of_nil. tauto.
  - destruct (String.leb (name m) (name y)).
    + by rewrite elem_of_cons.
    + rewrite !elem_of_cons, IH. tauto.
Qed.

Lemma sort_insert_sorted m l :
  StronglySorted name_le l -> StronglySorted name_le (sort_insert m l).
Proof.
  induction 1 as [|y l Hl IH Hy]; cbn [sort_insert].
  - repeat constructor.
  - destruct (String.leb (name m) (name y)) eqn:Hle.
    + constructor; [by constructor|]. constructor; [exact Hle|].
      apply Forall_forall. intros x Hx. rewrite Forall_forall in Hy.
      exact (string_leb_trans _ _ _ Hle (Hy x Hx)).
    + constructor; [exact IH|].
      apply Forall_forall. intros x [->|Hx]%sort_insert_elem.
      * by apply string_leb_false in Hle as [? _].
      * rewrite Forall_forall in Hy. exact (Hy x Hx).
Qed.

Lemma sort_by_name_sorted metrics : StronglySorted name_le (sort_by_name metrics).
Proof.
  induction metrics as [|m l IH]; cbn [sort_by_name]; [constructor|].
  by apply sort_insert_sorted.
Qed.

Lemma sort_insert_perm m l : Permutation (sort_insert m l) (m :: l).
Proof.
  induction l as [|y l IH]; cbn [sort_insert]; [reflexivity|].
  destruct (String.leb (name m) (name y)); [reflexivity|].
  rewrite IH. apply perm_swap.
Qed.

Lemma sort_by_name_perm metrics : Permutation (sort_by_name metrics) metrics.
Proof.
  induction metrics as [|m l IH]; cbn [sort_by_name]; [reflexivity|].
  rewrite sort_insert_perm. by constructor.
Qed.

(** Insertion keeps the order among the metrics of each name. *)
Lemma sort_insert_stable n m l :
  filter (fun x => name x = n) (sort_insert m l)
  = filter (fun x => name x = n) (m :: l).
Proof.
  induction l as [|y l IH]; cbn [sort_insert]; [reflexivity|].
  destruct (String.leb (name m) (name y)) eqn:Hle; [reflexivity|].
  apply string_leb_false in Hle as [_ Hne].
  rewrite (filter_cons _ y), IH, !(filter_cons _ m), (filter_cons _ y).
  destruct (decide (name y = n)) as [Hy|Hy]; [|reflexivity].
  destruct (decide (name m = n)) as [Hm|Hm]; [congruence|reflexivity].
Qed.

Lemma sort_by_name_stable n metrics :
  filter (fun x => name x = n) (sort_by_name metrics)
  = filter (fun x => name x = n) metrics.
Proof.
  induction metrics as [|m l IH]; cbn [sort_by_name]; [reflexivity|].
  by rewrite sort_insert_stable, !filter_cons, IH.
Qed.

(** A list sorted by name is the metrics before a name, the metrics of
    that name, and the metrics after it. *)
Lemma sorted_split n l :
  StronglySorted name_le l ->
  ∃ l1 l3,
    l = l1 ++ filter (fun x => name x = n) l ++ l3
    ∧ Forall (fun x => name x ≠ n) l1
    ∧ Forall (fun x => name x ≠ n) l3.
Proof.
  induction 1 as [|y l Hl IH Hy].
  - exists [], []. by repeat constructor.
  - destruct IH as (l1 & l3 & Heq & H1 & H3). rewrite filter_cons.
    destruct (decide (name y = n)) as [Hyn|Hyn].
    + (* nothing between [y] and the rest of its name *)
      destruct (filter (fun x => name x = n) l) as [|z f] eqn:Hf.
      * exists [], (l1 ++ l3). cbn [app]. split; [by rewrite Heq at 1|].
        split; [constructor|]. by apply Forall_app.
      * destruct l1 as [|x l1].
        -- exists [], l3. cbn [app] in *. split; [by rewrite Heq at 1|].
           by split; [constructor|].
        -- exfalso. apply Forall_cons in H1 as [Hx _]. apply Hx.
           assert (Hz : z ∈ filter (fun x => name x = n) l)
             by (rewrite Hf; apply list_elem_of_here).
           apply list_elem_of_filter in Hz as [Hzn _].
           rewrite Heq in Hl, Hy. cbn [app] in Hl, Hy.
           apply StronglySorted_inv in Hl as [_ Hxz].
           apply Forall_cons in Hy as [Hyx _].
           rewrite Forall_app in Hxz. destruct Hxz as [_ Hxz].
           apply Forall_cons in Hxz as [Hxz _].
           unfold name_le in *. rewrite Hyn in Hyx. rewrite Hzn in Hxz.
           by apply String.leb_antisym.
    + exists (y :: l1), l3. split; [cbn [app]; by rewrite <- Heq|].
      split; [by constructor|exact H3].
Qed.

(** ** Printing *)

(** The value of a metric can be printed. *)
Definition formats (decimal_str : string -> option string) (m : Metric) : Prop :=
  ∃ line, metric_format decimal_str m "smartmon_" = ret line.

(** The series line of a metric. *)
Definition series_line (decimal_str : string -> option string) (m : Metric)
    : string :=
  match outcome (metric_format decimal_str m "smartmon_") with
  | inr line => line
  | inl _ => ""
  end.

(** What the loop prints from a given [previous_name] on. *)
Fixpoint printed (decimal_str : string -> option string)
    (previous_name : option string) (metrics : list Metric) : list string :=
  match metrics with
  | [] => []
  | m :: rest =>
      (if decide (Some (name m) ≠ previous_name)
       then [help_line m "smartmon_"; type_line m "smartmon_"] else [])
      ++ series_line decimal_str m :: printed decimal_str (Some (name m)) rest
  end.

(** [previous_name] after a part of the list. *)
Fixpoint last_name (previous_name : option string) (metrics : list Metric)
    : option string :=
  match metrics with
  | [] => previous_name
  | m :: rest => last_name (Some (name m)) rest
  end.

Lemma print_metric_formats d prev m :
  formats d m ->
  print_metric d prev m
  = ((if decide (Some (name m) ≠ prev)
      then [help_line m "smartmon_"; type_line m "smartmon_"] else [])
     ++ [series_line d m],
     inr (Some (name m))).
Proof.
  intros [line Hline]. unfold print_metric, series_line, metric_print.
  rewrite Hline. unfold outcome, ret. cbn [snd].
  destruct (decide (Some (name m) ≠ prev)) as [Hne|Heq].
  - reflexivity.
  - apply dec_stable in Heq. rewrite <- Heq. reflexivity.
Qed.

Lemma print_loop_formats d prev l :
  Forall (formats d) l ->
  for_each (print_metric d) prev l = (printed d prev l, inr (last_name prev l)).
Proof.
  intros Hl. revert prev. induction Hl as [|m l Hm _ IH]; intros prev.
  - reflexivity.
  - rewrite for_each_cons, (print_metric_formats d prev m Hm).
    unfold bind. rewrite IH. cbn [printed last_name].
    by rewrite <- app_assoc.
Qed.

Lemma printed_app d prev a b :
  printed d prev (a ++ b) = printed d prev a ++ printed d (last_name prev a) b.
Proof.
  revert prev. induction a as [|m a IH]; intros prev; [reflexivity|].
  cbn [app printed last_name]. rewrite IH, <- !app_assoc. reflexivity.
Qed.

Lemma printed_same d n l :
  Forall (fun m => name m = n) l ->
  printed d (Some n) l = map (series_line d) l.
Proof.
  induction 1 as [|m l Hm _ IH]; [reflexivity|]. cbn [printed map].
  rewrite decide_False by (intros H; apply H; by rewrite Hm).
  cbn [app]. by rewrite Hm, IH.
Qed.

Lemma printed_group d prev n m l :
  prev ≠ Some n -> name m = n -> Forall (fun x => name x = n) l ->
  printed d prev (m :: l)
  = help_line m "smartmon_" :: type_line m "smartmon_"
      :: map (series_line d) (m :: l).
Proof.
  intros Hprev Hm Hl. cbn [printed map].
  rewrite decide_True by (rewrite Hm; congruence).
  cbn [app]. by rewrite Hm, (printed_same d n l Hl).
Qed.

Lemma elem_of_printed d prev l line :
  line ∈ printed d prev l ->
  ∃ x, x ∈ l ∧ (line = help_line x "smartmon_" ∨ line = type_line x "smartmon_"
                ∨ line = series_line d x).
Proof.
  revert prev. induction l as [|m l IH]; intros prev; cbn [printed].
  - by rewrite elem_of_nil.
  - rewrite elem_of_app, elem_of_cons. intros [Hmeta|[->|Hrest]].
    + exists m. split; [apply list_elem_of_here|].
      destruct (decide (Some (name m) ≠ prev)).
      * rewrite !elem_of_cons, elem_of_nil in Hmeta. tauto.
      * by apply elem_of_nil in Hmeta.
    + exists m. split; [apply list_elem_of_here|tauto].
    + destruct (IH _ Hrest) as (x & Hx & Hline).
      exists x. split; [by apply list_elem_of_further|exact Hline].
Qed.

(** *** The three kinds of lines are told apart *)

Lemma append_eq_length (a b c e : string) :
  a +:+ b = c +:+ e -> String.length a = String.length c -> a = c.
Proof.
  revert c. induction a as [|x a IH]; intros [|y c]; cbn [String.length];
    try done.
  rewrite !append_cons. intros [= -> Heq] [= Hlen]. f_equal. by apply IH.
Qed.

Lemma help_line_name m1 m2 :
  help_line m1 "smartmon_" = help_line m2 "smartmon_" -> name m1 = name m2.
Proof.
  unfold help_line, metric_key. intros Heq.
  assert (Hbody : name m1 +:+ " SMART metric " +:+ name m1
                  = name m2 +:+ " SMART metric " +:+ name m2).
  { rewrite !append_assoc in Heq. cbn in Heq. by simplify_eq. }
  assert (Hlen := f_equal String.length Hbody).
  rewrite !length_append in Hlen. cbn in Hlen.
  apply (append_eq_length _ _ _ _ Hbody). lia.
Qed.

Lemma type_line_name m1 m2 :
  type_line m1 "smartmon_" = type_line m2 "smartmon_" -> name m1 = name m2.
Proof.
  unfold type_line, metric_key. intros Heq.
  assert (Hbody : name m1 +:+ " gauge" = name m2 +:+ " gauge").
  { rewrite !append_assoc in Heq. cbn in Heq. by simplify_eq. }
  assert (Hlen := f_equal String.length Hbody).
  rewrite !length_append in Hlen. cbn in Hlen.
  apply (append_eq_length _ _ _ _ Hbody). lia.
Qed.

Lemma help_line_not_type_line m1 m2 :
  help_line m1 "smartmon_" ≠ type_line m2 "smartmon_".
Proof. unfold help_line, type_line. cbn. discriminate. Qed.

Lemma series_line_start d m :
  formats d m -> ∃ rest, series_line d m = String "s"%char rest.
Proof.
  intros [line Hline]. unfold series_line. rewrite Hline.
  unfold outcome, ret. cbn [snd].
  unfold metric_format, metric_key in Hline.
  destruct (decimal_of d (value m)) as [ys [e|v]]; [discriminate Hline|].
  unfold bind, ret in Hline. injection Hline as _ <-.
  rewrite !append_assoc. cbn. eauto.
Qed.

(** How often a line is printed. *)
Definition occurrences (line : string) (out : list string) : nat :=
  length (filter (fun l => l = line) out).

Lemma occurrences_app line a b :
  occurrences line (a ++ b) = (occurrences line a + occurrences line b)%nat.
Proof. unfold occurrences. by rewrite filter_app, length_app. Qed.

Lemma occurrences_absent line out : line ∉ out -> occurrences line out = 0%nat.
Proof.
  intros Hout. unfold occurrences. rewrite filter_none; [reflexivity|].
  apply Forall_forall. intros l Hl ->. by apply Hout.
Qed.

Lemma occurrences_cons_eq line out :
  occurrences line (line :: out) = S (occurrences line out).
Proof. unfold occurrences. by rewrite filter_cons_True. Qed.

Lemma occurrences_cons_ne line l out :
  l ≠ line -> occurrences line (l :: out) = occurrences line out.
Proof. intros Hne. unfold occurrences. by rewrite filter_cons_False. Qed.

Lemma meta_not_series d m x :
  formats d x ->
  help_line m "smartmon_" ≠ series_line d x
  ∧ type_line m "smartmon_" ≠ series_line d x.
Proof.
  intros Hx. destruct (series_line_start d x Hx) as [rest ->].
  unfold help_line, type_line. cbn. split; discriminate.
Qed.

(** The preamble of a name is not among the lines of other names. *)
Lemma meta_not_printed d prev l m :
  Forall (formats d) l -> Forall (fun x => name x ≠ name m) l ->
  (help_line m "smartmon_" ∉ printed d prev l)
  ∧ (type_line m "smartmon_" ∉ printed d prev l).
Proof.
  intros Hfmt Hother. rewrite Forall_forall in Hfmt, Hother.
  split; intros (x & Hx & Hline)%elem_of_printed.
  - destruct Hline as [H|[H|H]].
    + apply help_line_name in H. by apply (Hother x Hx).
    + by apply help_line_not_type_line in H.
    + by apply (meta_not_series d m x (Hfmt x Hx)) in H.
  - destruct Hline as [H|[H|H]].
    + symmetry in H. by apply help_line_not_type_line in H.
    + apply type_line_name in H. by apply (Hother x Hx).
    + by apply (meta_not_series d m x (Hfmt x Hx)) in H.
Qed.

Lemma meta_not_in_series d m l :
  Forall (formats d) l ->
  (help_line m "smartmon_" ∉ map (series_line d) l)
  ∧ (type_line m "smartmon_" ∉ map (series_line d) l).
Proof.
  intros Hfmt. rewrite Forall_forall in Hfmt.
  split; intros (x & Hline & Hx)%list_elem_of_fmap;
    by apply (meta_not_series d m x (Hfmt x Hx)) in Hline.
Qed.

Lemma last_name_other prev n l :
  prev ≠ Some n -> Forall (fun x => name x ≠ n) l -> last_name prev l ≠ Some n.
Proof.
  intros Hprev Hl. revert prev Hprev.
  induction Hl as [|x l Hx _ IH]; intros prev Hprev; [exact Hprev|].
  cbn [last_name]. apply IH. congruence.
Qed.

Lemma last_name_same prev n x l :
  Forall (fun y => name y = n) (x :: l) -> last_name prev (x :: l) = Some n.
Proof.
  revert prev x. induction l as [|y l IH]; intros prev x Hl.
  - apply Forall_cons in Hl as [<- _]. reflexivity.
  - apply Forall_cons in Hl as [_ Hl]. cbn [last_name].
    exact (IH (Some (name x)) y Hl).
Qed.

Lemma help_line_same_name m1 m2 p :
  name m1 = name m2 ->
  help_line m1 p = help_line m2 p ∧ type_line m1 p = type_line m2 p.
Proof.
  intros Hname. unfold help_line, type_line, metric_key. by rewrite Hname.
Qed.

(** What the loop prints for a list sorted by name, seen from one of its
    metrics. *)
Lemma printed_sorted d sorted m :
  StronglySorted name_le sorted -> Forall (formats d) sorted -> m ∈ sorted ->
  let group := filter (fun x => name x = name m) sorted in
  ∃ pre post,
    printed d None sorted
    = pre ++ help_line m "smartmon_" :: type_line m "smartmon_"
          :: map (series_line d) group ++ post
    ∧ (help_line m "smartmon_" ∉ pre) ∧ (help_line m "smartmon_" ∉ post)
    ∧ (type_line m "smartmon_" ∉ pre) ∧ (type_line m "smartmon_" ∉ post).
Proof.
  intros Hsorted Hfmt Hm group.
  destruct (sorted_split (name m) sorted Hsorted) as (l1 & l3 & Heq & H1 & H3).
  fold group in Heq.
  assert (Hgroup : Forall (fun x => name x = name m) group).
  { apply Forall_forall. by intros x [? _]%list_elem_of_filter. }
  assert (Hmg : m ∈ group) by (by apply list_elem_of_filter).
  destruct group as [|x g] eqn:Hg; [by apply elem_of_nil in Hmg|].
  assert (Hx : name x = name m) by (by apply Forall_cons in Hgroup as [? _]).
  assert (Hfmt' : Forall (formats d) l1 ∧ Forall (formats d) l3).
  { rewrite Heq, !Forall_app in Hfmt. tauto. }
  destruct Hfmt' as [Hf1 Hf3].
  exists (printed d None l1), (printed d (Some (name m)) l3).
  split.
  - rewrite Heq at 1. rewrite printed_app, printed_app.
    rewrite (last_name_same _ (name m) x g Hgroup).
    apply Forall_cons in Hgroup as [_ Hg'].
    rewrite (printed_group d _ (name m) x g); [|
      apply last_name_other; [discriminate|exact H1] | exact Hx | exact Hg'].
    destruct (help_line_same_name x m "smartmon_" Hx) as [-> ->].
    reflexivity.
  - destruct (meta_not_printed d None l1 m Hf1 H1) as [? ?].
    destruct (meta_not_printed d (Some (name m)) l3 m Hf3 H3) as [? ?].
    tauto.
Qed.

(** C8, as the printing loop has it: when [decimal.Decimal] can read
    the value of every metric of the run, the metrics are printed sorted
    by name, metrics of one name in the order they were collected (the
    sort is stable), and for every name the HELP line and the TYPE line
    are printed exactly once, immediately before the series of that
    name, however many series there are. *)
Theorem sorted_emission_one_preamble_per_name decimal_str metrics :
  Forall (formats decimal_str) metrics ->
  let sorted := sort_by_name metrics in
  let out := yielded (print_metrics decimal_str sorted) in
  StronglySorted name_le sorted
  ∧ Permutation sorted metrics
  ∧ (forall n, filter (fun m => name m = n) sorted
               = filter (fun m => name m = n) metrics)
  ∧ (∃ st, outcome (print_metrics decimal_str sorted) = inr st)
  ∧ forall m, m ∈ metrics ->
      (∃ pre post,
         out = pre ++ help_line m "smartmon_" :: type_line m "smartmon_"
                   :: map (series_line decimal_str)
                        (filter (fun x => name x = name m) metrics)
                   ++ post)
      ∧ occurrences (help_line m "smartmon_") out = 1%nat
      ∧ occurrences (type_line m "smartmon_") out = 1%nat.
Proof.
  intros Hfmt sorted out.
  pose proof (sort_by_name_sorted metrics) as Hsorted.
  pose proof (sort_by_name_perm metrics) as Hperm.
  assert (Hfmt' : Forall (formats decimal_str) sorted).
  { unfold sorted. by rewrite Hperm. }
  assert (Hout : print_metrics decimal_str sorted
                 = (printed decimal_str None sorted,
                    inr (last_name None sorted))).
  { apply print_loop_formats, Hfmt'. }
  split; [exact Hsorted|]. split; [exact Hperm|].
  split; [intros n; apply sort_by_name_stable|].
  split; [rewrite Hout; eauto|].
  intros m Hm.
  assert (Hm' : m ∈ sorted) by (unfold sorted; by rewrite Hperm).
  destruct (printed_sorted decimal_str sorted m Hsorted Hfmt' Hm')
    as (pre & post & Heq & Hh1 & Hh3 & Ht1 & Ht3).
  unfold sorted in Heq at 2. rewrite sort_by_name_stable in Heq.
  assert (Hgroup : Forall (formats decimal_str)
                     (filter (fun x => name x = name m) metrics)).
  { apply Forall_forall. intros x [_ Hx]%list_elem_of_filter.
    rewrite Forall_forall in Hfmt. by apply Hfmt. }
  destruct (meta_not_in_series decimal_str m _ Hgroup) as [Hhs Hts].
  unfold out. rewrite Hout. unfold yielded. cbn [fst]. rewrite Heq.
  split; [eauto|]. split.
  - rewrite occurrences_app, occurrences_cons_eq, occurrences_cons_ne,
      occurrences_app, !occurrences_absent by
      (assumption || (intros H; symmetry in H;
                      by apply help_line_not_type_line in H)).
    reflexivity.
  - rewrite occurrences_app, occurrences_cons_ne, occurrences_cons_eq,
      occurrences_app, !occurrences_absent by
      (assumption || apply help_line_not_type_line).
    reflexivity.
Qed.

(** Three series of two names from two disks, collected device by
    device. *)
Definition two_disks_metrics : list Metric :=
  [ {| name := "smartctl_run"; labels := [("device", "/dev/sda"); ("disk", "0")];
       value := PInt 1700000000 |};
    {| name := "device_active"; labels := [("device", "/dev/sda"); ("disk", "0")];
       value := PBool true |};
    {| name := "smartctl_run"; labels := [("device", "/dev/sdb"); ("disk", "0")];
       value := PInt 1700000000 |} ].

Lemma sorted_emission_one_preamble_per_name_witness :
  let sorted := sort_by_name two_disks_metrics in
  let out := yielded (print_metrics Some sorted) in
  StronglySorted name_le sorted
  ∧ Permutation sorted two_disks_metrics
  ∧ (forall n, filter (fun m => name m = n) sorted
               = filter (fun m => name m = n) two_disks_metrics)
  ∧ (∃ st, outcome (print_metrics Some sorted) = inr st)
  ∧ forall m, m ∈ two_disks_metrics ->
      (∃ pre post,
         out = pre ++ help_line m "smartmon_" :: type_line m "smartmon_"
                   :: map (series_line Some)
                        (filter (fun x => name x = name m) two_disks_metrics)
                   ++ post)
      ∧ occurrences (help_line m "smartmon_") out = 1%nat
      ∧ occurrences (type_line m "smartmon_") out = 1%nat.
Proof.
  apply (sorted_emission_one_preamble_per_name Some two_disks_metrics).
  repeat constructor; eexists; reflexivity.
Defined.

(** What is printed for them. *)
Example two_disks_printed :
  yielded (print_metrics Some (sort_by_name two_disks_metrics))
  = [ "# HELP smartmon_device_active SMART metric device_active";
      "# TYPE smartmon_device_active gauge";
      "smartmon_device_active{device=" +:+ dquote +:+ "/dev/sda" +:+ dquote
        +:+ ",disk=" +:+ dquote +:+ "0" +:+ dquote +:+ "} 1";
      "# HELP smartmon_smartctl_run SMART metric smartctl_run";
      "# TYPE smartmon_smartctl_run gauge";
      "smartmon_smartctl_run{device=" +:+ dquote +:+ "/dev/sda" +:+ dquote
        +:+ ",disk=" +:+ dquote +:+ "0" +:+ dquote +:+ "} 1700000000";
      "smartmon_smartctl_run{device=" +:+ dquote +:+ "/dev/sdb" +:+ dquote
        +:+ ",disk=" +:+ dquote +:+ "0" +:+ dquote +:+ "} 1700000000" ].
Proof. vm_compute. reflexivity. Qed.

(** ** Series of one run *)

Lemma dict_get_set_ne {V} k k' (v : V) d :
  k' ≠ k -> dict_get k (dict_set k' v d) = dict_get k d.
Proof.
  intros Hne. induction d as [|[k0 v0] d IH]; cbn [dict_set dict_get].
  - by rewrite (proj2 (String.eqb_neq k' k) Hne).
  - destruct (String.eqb_spec k0 k') as [->|Hk0]; cbn [dict_get].
    + by rewrite (proj2 (String.eqb_neq k' k) Hne).
    + destruct (String.eqb k0 k); [reflexivity|exact IH].
Qed.

Lemma dict_get_update_other {V} k (d : dict V) items :
  Forall (fun kv => kv.1 ≠ k) items ->
  dict_get k (dict_update d items) = dict_get k d.
Proof.
  unfold dict_update. intros Hitems. revert d.
  induction Hitems as [|[k' v] items Hk _ IH]; intros d; [reflexivity|].
  cbn [fold_left fst snd]. rewrite IH. by apply dict_get_set_ne.
Qed.

Lemma dict_set_keys {V} k (v : V) d kv :
  kv ∈ dict_set k v d -> kv.1 = k ∨ kv ∈ d.
Proof.
  induction d as [|[k0 v0] d IH]; cbn [dict_set].
  - rewrite list_elem_of_singleton. intros ->. by left.
  - destruct (String.eqb k0 k); rewrite !elem_of_cons.
    + intros [->|?]; [by left|tauto].
    + intros [->|?]; [tauto|]. destruct IH; tauto.
Qed.

Lemma dict_update_keys {V} (d : dict V) items kv :
  kv ∈ dict_update d items -> kv ∈ d ∨ kv.1 ∈ map fst items.
Proof.
  unfold dict_update. revert d.
  induction items as [|[k v] items IH]; intros d; cbn [fold_left map fst snd].
  - by left.
  - intros [[Hk|Hd]%dict_set_keys|Hk]%IH.
    + right. rewrite Hk. apply list_elem_of_here.
    + by left.
    + right. by apply list_elem_of_further.
Qed.

(** The names of the metrics of the NVMe parser. *)
Definition nvme_names : list string :=
  [ "available_spare_ratio"; "available_spare_threshold_ratio";
    "percentage_used_ratio"; "power_cycles_total"; "power_on_hours_total";
    "temperature_celcius"; "unsafe_shutdowns_total"; "media_errors_total";
    "num_err_log_entries_total"; "warning_temperature_time_total";
    "critical_temperature_time_total" ].

Definition nvme_name (n : string) : bool := existsb (String.eqb n) nvme_names.

(** The stage of the loop body that yields a metric of a given name. *)
Definition rank (n : string) : nat :=
  if String.eqb n "smartctl_run" then 0
  else if String.eqb n "device_active" then 1
  else if String.eqb n "device_info" then 2
  else if String.eqb n "device_smart_available" then 3
  else if String.eqb n "device_smart_enabled" then 4
  else if String.eqb n "device_smart_healthy" then 5
  else if String.eqb n "attr_value" || String.eqb n "attr_worst"
          || String.eqb n "attr_threshold" || String.eqb n "attr_raw_value"
  then 6
  else if String.eqb n "device_errors" then 7
  else 8.

(** What tells two series of one device apart, and of a run. *)
Definition sig (m : Metric) : string * option string :=
  (name m, dict_get "name" (labels m)).

Definition sig_run (m : Metric) : (string * option string) * (option string * option string) :=
  (sig m, (dict_get "device" (labels m), dict_get "disk" (labels m))).

(** The metric carries the base labels of a device. *)
Definition on_device (device : Device) (m : Metric) : Prop :=
  ∃ base, base_labels device = inr base
          ∧ dict_get "device" (labels m) = dict_get "device" base
          ∧ dict_get "disk" (labels m) = dict_get "disk" base.

Definition other_parser (m : Metric) : Prop := nvme_name (name m) = false.

#[global] Instance other_parser_dec m : Decision (other_parser m).
Proof. unfold other_parser. apply _. Defined.

(** The metrics of one device between two stages: they carry its base
    labels, and those that are not of the NVMe parser are pairwise
    different series. *)
Definition Stage (device : Device) (lo hi : nat) (ms : list Metric) : Prop :=
  Forall (fun m => on_device device m
                   ∧ (lo <= rank (name m))%nat ∧ (rank (name m) < hi)%nat) ms
  ∧ NoDup (map sig (filter other_parser ms)).

Lemma Stage_nil device lo hi : Stage device lo hi [].
Proof. split; [constructor|]. rewrite filter_nil. constructor. Qed.

Lemma Stage_weaken device lo hi lo' hi' ms :
  (lo' <= lo)%nat -> (hi <= hi')%nat ->
  Stage device lo hi ms -> Stage device lo' hi' ms.
Proof.
  intros Hlo Hhi [Hall Hnd]. split; [|exact Hnd].
  eapply Forall_impl; [exact Hall|]. intros m (? & ? & ?).
  split; [assumption|lia].
Qed.

Lemma Stage_app device lo mid hi a b :
  (lo <= mid)%nat -> (mid <= hi)%nat ->
  Stage device lo mid a -> Stage device mid hi b -> Stage device lo hi (a ++ b).
Proof.
  intros Hlo Hhi [Ha Hnda] [Hb Hndb]. split.
  - apply Forall_app. split; (eapply Forall_impl; [eassumption|]);
      intros m (? & ? & ?); (split; [assumption|lia]).
  - rewrite filter_app, map_app. apply NoDup_app.
    split; [exact Hnda|]. split; [|exact Hndb].
    intros s (m1 & -> & [_ H1]%list_elem_of_filter)%list_elem_of_fmap
             (m2 & Heq & [_ H2]%list_elem_of_filter)%list_elem_of_fmap.
    rewrite Forall_forall in Ha, Hb.
    destruct (Ha m1 H1) as (_ & _ & Hr1). destruct (Hb m2 H2) as (_ & Hr2 & _).
    injection Heq as Hname _. rewrite Hname in Hr1. lia.
Qed.

Lemma Stage_single device r m :
  on_device device m -> rank (name m) = r -> Stage device r (S r) [m].
Proof.
  intros Hdev Hr. split.
  - constructor; [|constructor]. split; [exact Hdev|lia].
  - destruct (decide (other_parser m)).
    + rewrite filter_cons_True by assumption. cbn [filter map].
      rewrite filter_nil. apply NoDup_singleton.
    + rewrite filter_cons_False by assumption. constructor.
Qed.

(** A generator that runs commands stays between two stages, or yields
    nothing at all. *)
Definition GStage {A} (device : Device) (lo hi : nat) (g : Gen Metric A) : Prop :=
  forall log, Stage device lo hi (yielded (g log).2).

Definition Quiet {Y A} (g : Gen Y A) : Prop :=
  forall log, yielded (g log).2 = [].

(** The result of a generator has a property whenever it ends normally. *)
Definition Returns {Y A} (g : Gen Y A) (Q : A -> Prop) : Prop :=
  forall log a, outcome (g log).2 = inr a -> Q a.

Lemma gbind_yielded {Y A B} (g : Gen Y A) (k : A -> Gen Y B) log :
  yielded (gbind g k log).2
  = yielded (g log).2
    ++ match outcome (g log).2 with
       | inr a => yielded (k a (g log).1).2
       | inl _ => []
       end.
Proof.
  unfold gbind, yielded, outcome.
  destruct (g log) as [log' [ys [e|a]]]; cbn [fst snd].
  - by rewrite app_nil_r.
  - by destruct (k a log') as [log'' [ys' r]].
Qed.

Lemma gbind_outcome {Y A B} (g : Gen Y A) (k : A -> Gen Y B) log :
  outcome (gbind g k log).2
  = match outcome (g log).2 with
    | inr a => outcome (k a (g log).1).2
    | inl e => inl e
    end.
Proof.
  unfold gbind, outcome.
  destruct (g log) as [log' [ys [e|a]]]; cbn [fst snd]; [reflexivity|].
  by destruct (k a log') as [log'' [ys' r]].
Qed.

Lemma GStage_gbind {A B} device lo mid hi (g : Gen Metric A) (k : A -> Gen Metric B)
    (Q : A -> Prop) :
  (lo <= mid)%nat -> (mid <= hi)%nat ->
  GStage device lo mid g -> Returns g Q ->
  (forall a, Q a -> GStage device mid hi (k a)) ->
  GStage device lo hi (gbind g k).
Proof.
  intros Hlo Hhi Hg HQ Hk log. rewrite gbind_yielded.
  apply (Stage_app device lo mid hi); [exact Hlo|exact Hhi|apply Hg|].
  destruct (outcome (g log).2) as [e|a] eqn:Hout; [apply Stage_nil|].
  apply Hk. by apply (HQ log).
Qed.

Lemma GStage_quiet {A} device lo hi (g : Gen Metric A) :
  Quiet g -> GStage device lo hi g.
Proof. intros Hg log. rewrite Hg. apply Stage_nil. Qed.

(** After a step that yields nothing. *)
Lemma GStage_after {A B} device lo hi (g : Gen Metric A) (k : A -> Gen Metric B)
    (Q : A -> Prop) :
  (lo <= hi)%nat -> Quiet g -> Returns g Q ->
  (forall a, Q a -> GStage device lo hi (k a)) ->
  GStage device lo hi (gbind g k).
Proof.
  intros Hle Hg HQ Hk.
  apply (GStage_gbind device lo lo hi g k Q);
    [lia|exact Hle|by apply GStage_quiet|exact HQ|exact Hk].
Qed.

Lemma Quiet_lift_ret {Y A} (a : A) : Quiet (Y:=Y) (lift (ret a)).
Proof. by intros log. Qed.

Lemma Quiet_lift_raise {Y A} (e : exn) : Quiet (Y:=Y) (A:=A) (lift (raise e)).
Proof. by intros log. Qed.

Lemma Quiet_gbind {Y A B} (g : Gen Y A) (k : A -> Gen Y B) :
  Quiet g -> (forall a, Quiet (k a)) -> Quiet (gbind g k).
Proof.
  intros Hg Hk log. rewrite gbind_yielded, Hg.
  destruct (outcome (g log).2); [reflexivity|apply Hk].
Qed.

Lemma Returns_any {Y A} (g : Gen Y A) : Returns g (fun _ => True).
Proof. by intros log a _. Qed.

Lemma Quiet_smart_ctl {Y} smartctl args check :
  Quiet (smart_ctl (Y:=Y) smartctl args check).
Proof.
  intros log. unfold smart_ctl. destruct (mapM id args); [|reflexivity].
  cbn [snd]. by destruct (check && negb (exit_ok (smartctl log l))).
Qed.

Lemma Quiet_get_base_labels {Y} device : Quiet (get_base_labels (Y:=Y) device).
Proof.
  intros log. unfold get_base_labels, read_base_labels, lift.
  by destruct (base_labels device).
Qed.

Lemma Returns_get_base_labels {Y} device :
  Returns (get_base_labels (Y:=Y) device)
          (fun base => base_labels device = inr base).
Proof.
  intros log base. unfold get_base_labels, read_base_labels, lift, outcome.
  cbn [snd]. destruct (base_labels device); cbn; congruence.
Qed.

Lemma Quiet_device_is_active {Y} smartctl device :
  Quiet (device_is_active (Y:=Y) smartctl device).
Proof.
  intros log. unfold device_is_active.
  pose proof (Quiet_smart_ctl (Y:=Y) smartctl
                (Some "--nocheck" :: Some "standby" :: smartctl_select device)
                true log) as Hq.
  destruct (smart_ctl smartctl _ true log) as [log' [ys [e|out]]];
    unfold yielded in *; cbn [fst snd] in *; subst ys; [|reflexivity].
  by destruct e.
Qed.

Lemma Quiet_device_info {Y} smartctl device :
  Quiet (device_info (Y:=Y) smartctl device).
Proof.
  unfold device_info. apply Quiet_gbind; [apply Quiet_smart_ctl|].
  intros out. apply Quiet_lift_ret.
Qed.

Lemma Quiet_device_smart_capabilities {Y} smartctl device :
  Quiet (device_smart_capabilities (Y:=Y) smartctl device).
Proof.
  unfold device_smart_capabilities.
  destruct (decide (type device = Some "nvme")); [apply Quiet_lift_ret|].
  apply Quiet_gbind; [apply Quiet_device_info|].
  intros groups. apply Quiet_lift_ret.
Qed.

Lemma GStage_yield device r m :
  on_device device m -> rank (name m) = r ->
  GStage device r (S r) (lift (yield m)).
Proof. intros Hdev Hr log. by apply Stage_single. Qed.

Lemma on_device_base device base n v :
  base_labels device = inr base ->
  on_device device {| name := n; labels := base; value := v |}.
Proof. intros Hbase. exists base. by repeat split. Qed.

(** One metric labelled with the base labels, after reading them. *)
Lemma GStage_base_metric device r n v :
  rank n = r ->
  GStage device r (S r)
    (gbind (get_base_labels device)
       (fun base => lift (yield {| name := n; labels := base; value := v |}))).
Proof.
  intros Hr.
  apply (GStage_after device r (S r) _ _
           (fun base => base_labels device = inr base));
    [lia|apply Quiet_get_base_labels|apply Returns_get_base_labels|].
  intros base Hbase. apply GStage_yield; [|exact Hr].
  by apply on_device_base.
Qed.

(** *** The stages one by one *)

Lemma info_label_keys {V} (values : dict V) key :
  key ∈ map fst (omap (fun kv : string * string =>
                         x ← dict_get kv.1 values; Some (kv.2, x))
                      device_info_map) ->
  key ∈ map snd device_info_map.
Proof.
  induction device_info_map as [|[k v] l IH];
    cbn [omap list_omap map fst snd]; [done|].
  destruct (dict_get k values) as [x|];
    cbn [mbind option_bind option_ret mret fst snd map].
  - rewrite !elem_of_cons. intros [->|?]; [by left|right; by apply IH].
  - intros ?. apply list_elem_of_further. by apply IH.
Qed.

Lemma device_info_labels_base p idx groups k :
  k = "device" ∨ k = "disk" ->
  dict_get k (device_info_labels [("device", p); ("disk", idx)] groups)
  = dict_get k [("device", p); ("disk", idx)].
Proof.
  intros Hk. unfold device_info_labels. rewrite dict_get_update_other.
  - destruct Hk as [->| ->]; reflexivity.
  - apply Forall_forall. intros kv Hkv Heq.
    apply dict_update_keys in Hkv as [Hkv|Hkv]; [by apply elem_of_nil in Hkv|].
    apply info_label_keys in Hkv. rewrite Heq in Hkv.
    apply list_elem_of_In in Hkv. cbn in Hkv.
    destruct Hk as [->| ->]; intuition discriminate.
Qed.

Lemma GStage_collect_device_info smartctl device :
  GStage device 2 3 (collect_device_info smartctl device).
Proof.
  unfold collect_device_info.
  apply (GStage_after device 2 3 _ _ (fun _ => True));
    [lia|apply Quiet_device_info|apply Returns_any|]. intros groups _.
  apply (GStage_after device 2 3 _ _
           (fun base => base_labels device = inr base));
    [lia|apply Quiet_get_base_labels|apply Returns_get_base_labels|].
  intros base Hbase. apply GStage_yield; [|reflexivity].
  exists base. split; [exact Hbase|].
  destruct (base_labels_shape _ _ Hbase) as [idx ->]. cbn [labels].
  split; apply device_info_labels_base; tauto.
Qed.

Lemma GStage_collect_health smartctl device :
  GStage device 5 6 (collect_device_health_self_assessment smartctl device).
Proof.
  unfold collect_device_health_self_assessment.
  apply (GStage_after device 5 6 _ _ (fun _ => True));
    [lia|apply Quiet_smart_ctl|apply Returns_any|]. intros out _.
  by apply GStage_base_metric.
Qed.

Lemma GStage_collect_ata_error_count smartctl device :
  GStage device 7 8 (collect_ata_error_count smartctl device).
Proof.
  unfold collect_ata_error_count.
  apply (GStage_after device 7 8 _ _ (fun _ => True));
    [lia|apply Quiet_smart_ctl|apply Returns_any|]. intros out _.
  by apply GStage_base_metric.
Qed.

Lemma nvme_metric_name label v n x :
  nvme_metric label v = Some (n, x) -> nvme_name n = true.
Proof.
  unfold nvme_metric.
  repeat (destruct (String.eqb label _); [intros [= <- _]; reflexivity|]).
  discriminate.
Qed.

Lemma nvme_name_rank n : nvme_name n = true -> rank n = 8%nat.
Proof.
  unfold nvme_name, nvme_names. cbn [existsb].
  rewrite !orb_true_iff, !String.eqb_eq.
  intros H. repeat (destruct H as [->|H]; [reflexivity|]). discriminate H.
Qed.

Lemma nvme_loop_metrics device lines :
  Forall (fun m => nvme_name (name m) = true ∧ on_device device m)
         (yielded (nvme_loop device lines)).
Proof.
  unfold nvme_loop. induction lines as [|line lines IH]; [constructor|].
  rewrite for_each_cons, yielded_bind. apply Forall_app. split.
  - unfold nvme_line.
    destruct (PyStr.split ":" line) as [|label [|v [|? ?]]]; try constructor.
    destruct (nvme_metric label v) as [[n x]|] eqn:Hmetric; [|constructor].
    unfold read_base_labels.
    destruct (base_labels device) as [e|base] eqn:Hbase; [constructor|].
    rewrite bind_ret_l. constructor; [|constructor]. split.
    + exact (nvme_metric_name _ _ _ _ Hmetric).
    + by apply on_device_base.
  - destruct (outcome (nvme_line device line)) as [e|[]]; [constructor|exact IH].
Qed.

Lemma GStage_collect_nvme_metrics smartctl device :
  GStage device 8 9 (collect_nvme_metrics smartctl device).
Proof.
  unfold collect_nvme_metrics.
  apply (GStage_after device 8 9 _ _ (fun _ => True));
    [lia|apply Quiet_smart_ctl|apply Returns_any|]. intros attributes _ log.
  unfold lift. cbn [snd]. unfold nvme_metrics_of. fold (nvme_loop device (nvme_lines attributes)).
  pose proof (nvme_loop_metrics device (nvme_lines attributes)) as Hall.
  split.
  - eapply Forall_impl; [exact Hall|]. intros m [Hn Hd].
    split; [exact Hd|]. rewrite (nvme_name_rank _ Hn). lia.
  - rewrite filter_none; [constructor|].
    eapply Forall_impl; [exact Hall|]. intros m [Hn _].
    unfold other_parser. congruence.
Qed.

(** The columns reported for a row. *)
Definition attr_columns : list string := ["value"; "worst"; "threshold"; "raw_value"].

(** The inner loop over the columns yields, in order, metrics named
    after the columns, as far as the entry has them. *)
Lemma attr_loop_yielded (L : dict string) (entry : dict PyVal) cols :
  ∃ k, map (fun m => (name m, labels m))
           (yielded (for_each
                       (fun (_ : unit) col =>
                          v <- getitem col entry ;;
                          yield {| name := "attr_" +:+ col; labels := L;
                                   value := v |})
                       tt cols))
       = map (fun col => ("attr_" +:+ col, L)) (take k cols).
Proof.
  induction cols as [|col cols [k IH]]; [by exists 0%nat|].
  rewrite for_each_cons, yielded_bind. unfold getitem.
  destruct (dict_get col entry) as [v|].
  - rewrite bind_ret_l. unfold yield at 1 2, yielded at 1, outcome. cbn [fst snd].
    exists (S k). cbn [take map app]. by rewrite <- IH.
  - rewrite bind_raise. by exists 0%nat.
Qed.

(** A branch of the loop body that yields nothing. *)
Ltac ata_stop o Ho :=
  rewrite ?bind_raise in Ho; subst o; left; split;
  [reflexivity
  |let s := fresh "s" in let Hs := fresh "Hs" in
   intros s Hs; unfold outcome, raise, ret in Hs; cbn [snd] in Hs;
   first [discriminate Hs | by injection Hs as <-]].

(** What the loop body does with any entry: nothing, or metrics under
    one fresh name. *)
Lemma ata_entry_inv device p idx seen entry :
  base_labels device = inr [("device", p); ("disk", idx)] ->
  (yielded (ata_entry device seen entry) = []
   ∧ forall s, outcome (ata_entry device seen entry) = inr s -> s = seen)
  ∨ ∃ n k,
      (n ∉ seen)
      ∧ map (fun m => (name m, labels m)) (yielded (ata_entry device seen entry))
        = map (fun col => ("attr_" +:+ col,
                           [("name", n); ("device", p); ("disk", idx)]))
              (take k attr_columns)
      ∧ forall s, outcome (ata_entry device seen entry) = inr s ->
                  s = {[ n ]} ∪ seen.
Proof.
  intros Hbase.
  set (o := ata_entry device seen entry).
  assert (Ho : o = ata_entry device seen entry) by reflexivity.
  clearbody o. unfold ata_entry in Ho. unfold getitem at 1 in Ho.
  destruct (dict_get "name" entry) as [v|]; [|ata_stop o Ho].
  rewrite bind_ret_l in Ho.
  destruct v as [| | |n0|]; try ata_stop o Ho.
  destruct (decide (PyStr.lower n0 ∉ smart_attributes_whitelist));
    [ata_stop o Ho|].
  unfold getitem at 1 in Ho.
  destruct (dict_get "raw_value" _) as [raw|]; [|ata_stop o Ho].
  rewrite bind_ret_l in Ho.
  destruct raw as [| | | |tokens]; try ata_stop o Ho.
  destruct (Re.re_match raw_value_re (PyStr.join " " tokens)) as [m|];
    [|ata_stop o Ho].
  unfold getitem at 1 in Ho.
  destruct (dict_get "threshold" _) as [t|]; [|ata_stop o Ho].
  rewrite bind_ret_l in Ho.
  destruct (decide (PyStr.lower n0 ∈ smart_attributes_whitelist
                    ∧ PyStr.lower n0 ∉ seen)) as [[_ Hnew]|];
    [|ata_stop o Ho].
  unfold read_base_labels in Ho. rewrite Hbase, bind_ret_l in Ho.
  right. exists (PyStr.lower n0).
  match type of Ho with
  | context [for_each ?body tt ?cols] =>
      destruct (attr_loop_yielded
                  (dict_update [("name", PyStr.lower n0)]
                     [("device", p); ("disk", idx)])
                  (if decide (t = PStr "---")
                   then dict_set "threshold" (PStr "0")
                          (dict_set "raw_value"
                             (from_option PStr PNone (Re.group 1 m))
                             (dict_set "name" (PStr (PyStr.lower n0)) entry))
                   else dict_set "raw_value"
                          (from_option PStr PNone (Re.group 1 m))
                          (dict_set "name" (PStr (PyStr.lower n0)) entry))
                  attr_columns) as [k Hk];
      fold attr_columns in Ho;
      set (loop := for_each body tt attr_columns) in *
  end.
  exists k. subst o. split; [exact Hnew|]. split.
  - rewrite yielded_bind.
    assert (Hnil : match outcome loop with
                   | inl _ => []
                   | inr _ =>
                       yielded (ret (Y:=Metric) ({[PyStr.lower n0]} ∪ seen))
                   end = []) by (by destruct (outcome loop)).
    rewrite Hnil, app_nil_r. exact Hk.
  - intros s. rewrite outcome_bind.
    destruct (outcome loop) as [e|[]]; [discriminate|]. by intros [= <-].
Qed.

(** The metrics of part of the table: pairwise different series of the
    device, each under a name that was not reported before and is
    reported after. *)
Definition AtaInv (p idx : string) (seen : gset string) (ms : list Metric)
    (seen' : gset string) : Prop :=
  seen ⊆ seen'
  ∧ NoDup (map sig ms)
  ∧ Forall (fun m => rank (name m) = 6%nat
                     ∧ dict_get "device" (labels m) = Some p
                     ∧ dict_get "disk" (labels m) = Some idx
                     ∧ ∃ n, dict_get "name" (labels m) = Some n
                            ∧ (n ∉ seen) ∧ n ∈ seen') ms.

Lemma AtaInv_nil p idx seen : AtaInv p idx seen [] seen.
Proof. split; [done|]. split; constructor. Qed.

Lemma AtaInv_app p idx s0 s1 s2 a b :
  AtaInv p idx s0 a s1 -> AtaInv p idx s1 b s2 -> AtaInv p idx s0 (a ++ b) s2.
Proof.
  intros (Hsub1 & Hnd1 & Ha) (Hsub2 & Hnd2 & Hb).
  split; [by transitivity s1|]. split.
  - rewrite map_app. apply NoDup_app. split; [exact Hnd1|]. split; [|exact Hnd2].
    intros s (m1 & -> & H1)%list_elem_of_fmap (m2 & Heq & H2)%list_elem_of_fmap.
    rewrite Forall_forall in Ha, Hb.
    destruct (Ha m1 H1) as (_ & _ & _ & n1 & Hn1 & _ & Hin1).
    destruct (Hb m2 H2) as (_ & _ & _ & n2 & Hn2 & Hout2 & _).
    injection Heq as _ Hlabel. rewrite Hn1, Hn2 in Hlabel.
    injection Hlabel as ->. by apply Hout2.
  - apply Forall_app. split; (eapply Forall_impl; [eassumption|]).
    + intros m (? & ? & ? & n & ? & ? & ?). repeat (split; [assumption|]).
      exists n. repeat (split; [assumption|]). by apply Hsub2.
    + intros m (? & ? & ? & n & ? & Hout & ?). repeat (split; [assumption|]).
      exists n. split; [assumption|]. split; [|assumption].
      intros Hin. by apply Hout, Hsub1.
Qed.

Lemma map_fst_name_labels ms :
  map fst (map (fun m => (name m, labels m)) ms) = map name ms.
Proof. by rewrite map_map. Qed.

Lemma map_fst_sig ms : map fst (map sig ms) = map name ms.
Proof. by rewrite map_map. Qed.

(** The metrics of one entry. *)
Lemma AtaInv_entry p idx seen n k ms :
  n ∉ seen ->
  map (fun m => (name m, labels m)) ms
  = map (fun col => ("attr_" +:+ col,
                     [("name", n); ("device", p); ("disk", idx)]))
        (take k attr_columns) ->
  AtaInv p idx seen ms ({[ n ]} ∪ seen).
Proof.
  intros Hnew Hms. split; [apply union_subseteq_r|].
  assert (Hall : Forall (fun m => labels m = [("name", n); ("device", p); ("disk", idx)]
                                  ∧ rank (name m) = 6%nat) ms).
  { apply Forall_forall. intros m Hm.
    assert (Hin : (name m, labels m)
                  ∈ map (fun m => (name m, labels m)) ms)
      by (apply list_elem_of_fmap; eauto).
    rewrite Hms in Hin.
    apply list_elem_of_fmap in Hin as (col & [= Hname Hlabels] & Hcol).
    split; [exact Hlabels|]. rewrite Hname.
    apply subseteq_take in Hcol. unfold attr_columns in Hcol.
    rewrite !elem_of_cons, elem_of_nil in Hcol.
    destruct Hcol as [->|[->|[->|[->|[]]]]]; reflexivity. }
  assert (Hnames : map name ms
                   = take k (map (fun col => "attr_" +:+ col) attr_columns)).
  { rewrite <- map_fst_name_labels, Hms, map_map. cbn [fst].
    symmetry. apply firstn_map. }
  split.
  - apply (NoDup_fmap_1 fst).
    change (NoDup (map fst (map sig ms))). rewrite map_fst_sig, Hnames.
    apply (sublist_NoDup _ (map (fun col => "attr_" +:+ col) attr_columns));
      [|apply sublist_take].
    by apply (bool_decide_unpack _).
  - eapply Forall_impl; [exact Hall|]. intros m [Hl Hr].
    split; [exact Hr|]. rewrite Hl. repeat (split; [reflexivity|]).
    exists n. split; [reflexivity|]. split; [exact Hnew|].
    apply elem_of_union_l, elem_of_singleton_2. reflexivity.
Qed.

Lemma ata_loop_inv device p idx seen entries :
  base_labels device = inr [("device", p); ("disk", idx)] ->
  ∃ seen',
    AtaInv p idx seen (yielded (for_each (ata_entry device) seen entries)) seen'
    ∧ forall s, outcome (for_each (ata_entry device) seen entries) = inr s ->
                s = seen'.
Proof.
  intros Hbase. revert seen.
  induction entries as [|entry entries IH]; intros seen.
  - exists seen. split; [apply AtaInv_nil|]. by intros s [= <-].
  - rewrite for_each_cons, yielded_bind, outcome_bind.
    destruct (ata_entry_inv device p idx seen entry Hbase)
      as [[Hnil Hsame]|(n & k & Hnew & Hms & Hadd)].
    + rewrite Hnil. cbn [app].
      destruct (outcome (ata_entry device seen entry)) as [e|s] eqn:Hout.
      * exists seen. split; [apply AtaInv_nil|discriminate].
      * rewrite (Hsame s eq_refl). apply IH.
    + pose proof (AtaInv_entry p idx seen n k _ Hnew Hms) as Hentry.
      destruct (outcome (ata_entry device seen entry)) as [e|s] eqn:Hout.
      * exists ({[ n ]} ∪ seen). rewrite app_nil_r.
        split; [exact Hentry|discriminate].
      * rewrite (Hadd s eq_refl).
        destruct (IH ({[ n ]} ∪ seen)) as (seen' & Hrest & Hend).
        exists seen'. split; [|exact Hend].
        by apply (AtaInv_app p idx seen ({[ n ]} ∪ seen) seen').
Qed.

Lemma rank_not_nvme n : rank n ≠ 8%nat -> nvme_name n = false.
Proof.
  intros Hr. destruct (nvme_name n) eqn:Hn; [|reflexivity].
  by apply nvme_name_rank in Hn.
Qed.

Lemma GStage_collect_ata_metrics smartctl device :
  GStage device 6 7 (collect_ata_metrics smartctl device).
Proof.
  unfold collect_ata_metrics.
  apply (GStage_after device 6 7 _ _ (fun _ => True));
    [lia|apply Quiet_smart_ctl|apply Returns_any|]. intros attributes _ log.
  unfold lift. cbn [snd]. unfold ata_metrics_of.
  destruct (ata_table attributes) as [rows failed].
  destruct (base_labels device) as [e|base] eqn:Hbase.
  - (* without base labels nothing can be yielded *)
    assert (Hnone : forall seen entries,
               yielded (for_each (ata_entry device) seen entries) = []).
    { intros seen entries. revert seen.
      induction entries as [|entry entries IH]; intros seen; [reflexivity|].
      rewrite for_each_cons, yielded_bind.
      assert (Hentry : yielded (ata_entry device seen entry) = []).
      { unfold ata_entry, getitem at 1.
        destruct (dict_get "name" entry) as [v|]; [|reflexivity].
        rewrite bind_ret_l. destruct v as [| | |n0|]; try reflexivity.
        destruct (decide (PyStr.lower n0 ∉ smart_attributes_whitelist));
          [reflexivity|].
        unfold getitem at 1.
        destruct (dict_get "raw_value" _) as [raw|]; [|reflexivity].
        rewrite bind_ret_l. destruct raw as [| | | |tokens]; try reflexivity.
        destruct (Re.re_match raw_value_re (PyStr.join " " tokens));
          [|reflexivity].
        unfold getitem at 1.
        destruct (dict_get "threshold" _) as [t|]; [|reflexivity].
        rewrite bind_ret_l.
        destruct (decide (PyStr.lower n0 ∈ smart_attributes_whitelist
                          ∧ PyStr.lower n0 ∉ seen)); [|reflexivity].
        unfold read_base_labels. rewrite Hbase. reflexivity. }
      rewrite Hentry. cbn [app].
      destruct (outcome (ata_entry device seen entry)); [reflexivity|apply IH]. }
    rewrite yielded_bind, Hnone. cbn [app].
    destruct (outcome _); [apply Stage_nil|].
    destruct failed; apply Stage_nil.
  - destruct (base_labels_shape _ _ Hbase) as [idx ->].
    destruct (ata_loop_inv device (path device) idx ∅
                (dict_reader_entries rows) Hbase)
      as (seen' & (_ & Hnd & Hall) & _).
    rewrite yielded_bind.
    assert (Hnil : match outcome (for_each (ata_entry device) ∅
                                    (dict_reader_entries rows)) with
                   | inl _ => []
                   | inr _ => yielded (if failed then raise (Y:=Metric) CsvError
                                       else ret tt)
                   end = []).
    { destruct (outcome _); [reflexivity|]. by destruct failed. }
    rewrite Hnil, app_nil_r. split.
    + eapply Forall_impl; [exact Hall|].
      intros m (Hr & Hdev & Hdisk & _). split; [|lia].
      exists [("device", path device); ("disk", idx)].
      split; [exact Hbase|]. by rewrite Hdev, Hdisk.
    + rewrite filter_all; [exact Hnd|].
      eapply Forall_impl; [exact Hall|]. intros m (Hr & _).
      apply rank_not_nvme. lia.
Qed.

(** The loop body for one device runs through the stages in order. *)
Lemma GStage_collect_device_metrics smartctl wakeup now device :
  GStage device 0 9 (collect_device_metrics smartctl wakeup now device).
Proof.
  unfold collect_device_metrics.
  (* smartctl_run *)
  apply (GStage_after device 0 9 _ _
           (fun base => base_labels device = inr base));
    [lia|apply Quiet_get_base_labels|apply Returns_get_base_labels|].
  intros base Hbase.
  apply (GStage_gbind device 0 1 9 _ _ (fun _ => True));
    [lia|lia|apply GStage_yield; [by apply on_device_base|reflexivity]
    |apply Returns_any|]. intros _ _.
  (* device_active *)
  apply (GStage_after device 1 9 _ _ (fun _ => True));
    [lia|apply Quiet_device_is_active|apply Returns_any|]. intros is_active _.
  apply (GStage_after device 1 9 _ _
           (fun base => base_labels device = inr base));
    [lia|apply Quiet_get_base_labels|apply Returns_get_base_labels|].
  intros base1 Hbase1.
  apply (GStage_gbind device 1 2 9 _ _ (fun _ => True));
    [lia|lia|apply GStage_yield; [by apply on_device_base|reflexivity]
    |apply Returns_any|]. intros _ _.
  destruct (negb is_active && negb wakeup);
    [apply GStage_quiet, Quiet_lift_ret|].
  (* device_info *)
  apply (GStage_gbind device 2 3 9 _ _ (fun _ => True));
    [lia|lia|apply GStage_collect_device_info|apply Returns_any|]. intros _ _.
  (* capabilities *)
  apply (GStage_after device 3 9 _ _ (fun _ => True));
    [lia|apply Quiet_device_smart_capabilities|apply Returns_any|].
  intros [smart_available smart_enabled] _.
  apply (GStage_after device 3 9 _ _
           (fun base => base_labels device = inr base));
    [lia|apply Quiet_get_base_labels|apply Returns_get_base_labels|].
  intros base2 Hbase2.
  apply (GStage_gbind device 3 4 9 _ _ (fun _ => True));
    [lia|lia|apply GStage_yield; [by apply on_device_base|reflexivity]
    |apply Returns_any|]. intros _ _.
  apply (GStage_after device 4 9 _ _
           (fun base => base_labels device = inr base));
    [lia|apply Quiet_get_base_labels|apply Returns_get_base_labels|].
  intros base3 Hbase3.
  apply (GStage_gbind device 4 5 9 _ _ (fun _ => True));
    [lia|lia|apply GStage_yield; [by apply on_device_base|reflexivity]
    |apply Returns_any|]. intros _ _.
  destruct (negb smart_available); [apply GStage_quiet, Quiet_lift_ret|].
  (* health *)
  apply (GStage_gbind device 5 6 9 _ _ (fun _ => True));
    [lia|lia|apply GStage_collect_health|apply Returns_any|]. intros _ _.
  destruct (type device) as [t|]; [|apply GStage_quiet, Quiet_lift_raise].
  (* the ATA table and error log, then the NVMe block *)
  apply (GStage_gbind device 6 8 9 _ _ (fun _ => True));
    [lia|lia| |apply Returns_any|].
  - destruct (PyStr.startswith "sat" t); [|apply GStage_quiet, Quiet_lift_ret].
    apply (GStage_gbind device 6 7 8 _ _ (fun _ => True));
      [lia|lia|apply GStage_collect_ata_metrics|apply Returns_any|].
    intros _ _. apply GStage_collect_ata_error_count.
  - intros _ _. destruct (String.eqb t "nvme");
      [apply GStage_collect_nvme_metrics|apply GStage_quiet, Quiet_lift_ret].
Qed.

(** *** The whole run *)

(** The devices the scan listing gives. *)
Definition found_devices (smartctl : list call -> call -> completed)
    (shlex_split : string -> option (list string))
    (parse_device_args : list string -> option (option string))
    (log : list call) : list Device :=
  yielded (find_devices smartctl shlex_split parse_device_args log).2.

Lemma map_fst_sig_run ms : map fst (map sig_run ms) = map sig ms.
Proof. by rewrite map_map. Qed.

Lemma base_labels_same d1 d2 base1 base2 :
  base_labels d1 = inr base1 -> base_labels d2 = inr base2 ->
  dict_get "device" base1 = dict_get "device" base2 ->
  dict_get "disk" base1 = dict_get "disk" base2 ->
  base_labels d1 = base_labels d2.
Proof.
  intros H1 H2 Hdev Hdisk. rewrite H1, H2.
  destruct (base_labels_shape _ _ H1) as [i1 ->].
  destruct (base_labels_shape _ _ H2) as [i2 ->].
  cbn in Hdev, Hdisk. injection Hdev as Hdev. injection Hdisk as Hdisk.
  rewrite Hdev, Hdisk. reflexivity.
Qed.

(** Over devices with pairwise different base labels, the metrics that
    are not of the NVMe parser are pairwise different series. *)
Lemma run_inv smartctl wakeup now devices log :
  NoDup (map base_labels devices) ->
  NoDup (map sig_run
           (filter other_parser
              (yielded (gfor_each (collect_device_metrics smartctl wakeup now)
                          devices log).2)))
  ∧ Forall (fun m => ∃ d, d ∈ devices ∧ on_device d m)
           (yielded (gfor_each (collect_device_metrics smartctl wakeup now)
                       devices log).2).
Proof.
  revert log. induction devices as [|d ds IH]; intros log Hnd.
  - split; [|constructor]. constructor.
  - cbn [map] in Hnd. apply NoDup_cons in Hnd as [Hd Hds].
    change (gfor_each ?body (d :: ds))
      with (gbind (body d) (fun _ => gfor_each body ds)).
    rewrite gbind_yielded.
    destruct (GStage_collect_device_metrics smartctl wakeup now d log)
      as [Ha Hnda].
    set (a := yielded (collect_device_metrics smartctl wakeup now d log).2) in *.
    set (log' := (collect_device_metrics smartctl wakeup now d log).1).
    assert (Hb : ∃ b,
      match outcome (collect_device_metrics smartctl wakeup now d log).2 with
      | inr _ => yielded (gfor_each (collect_device_metrics smartctl wakeup now)
                            ds log').2
      | inl _ => []
      end = b
      ∧ NoDup (map sig_run (filter other_parser b))
      ∧ Forall (fun m => ∃ d', d' ∈ ds ∧ on_device d' m) b).
    { destruct (outcome _).
      - exists []. split; [reflexivity|]. split; [|constructor].
        rewrite filter_nil. constructor.
      - eexists. split; [reflexivity|]. by apply IH. }
    destruct Hb as (b & -> & Hndb & Hb). split.
    + rewrite filter_app, map_app. apply NoDup_app. split; [|split].
      * apply (NoDup_fmap_1 fst).
        change (NoDup (map fst (map sig_run (filter other_parser a)))).
        by rewrite map_fst_sig_run.
      * intros s (m1 & -> & [_ H1]%list_elem_of_filter)%list_elem_of_fmap
                 (m2 & Heq & [_ H2]%list_elem_of_filter)%list_elem_of_fmap.
        rewrite Forall_forall in Ha, Hb.
        destruct (Ha m1 H1) as ((base1 & Hb1 & Hdev1 & Hdisk1) & _).
        destruct (Hb m2 H2) as (d' & Hd' & base2 & Hb2 & Hdev2 & Hdisk2).
        injection Heq as _ Hdev Hdisk.
        apply Hd. rewrite (base_labels_same d d' base1 base2 Hb1 Hb2)
          by congruence.
        apply list_elem_of_fmap. eauto.
      * exact Hndb.
    + apply Forall_app. split.
      * eapply Forall_impl; [exact Ha|]. intros m [Hm _].
        exists d. split; [apply list_elem_of_here|exact Hm].
      * eapply Forall_impl; [exact Hb|]. intros m (d' & Hd' & Hm).
        exists d'. split; [by apply list_elem_of_further|exact Hm].
Qed.

Lemma sig_run_same m1 m2 :
  name m1 = name m2 -> same_mapping (labels m1) (labels m2) ->
  sig_run m1 = sig_run m2.
Proof. intros Hname Hmap. unfold sig_run, sig. by rewrite Hname, !Hmap. Qed.

Lemma NoDup_sig_run_series ms i j m1 m2 :
  NoDup (map sig_run (filter other_parser ms)) ->
  (i < j)%nat -> ms !! i = Some m1 -> ms !! j = Some m2 ->
  name m1 = name m2 -> same_mapping (labels m1) (labels m2) ->
  nvme_name (name m1) = true.
Proof.
  intros Hnd Hij H1 H2 Hname Hmap.
  destruct (nvme_name (name m1)) eqn:Hn; [reflexivity|]. exfalso.
  assert (Ho1 : other_parser m1) by exact Hn.
  assert (Ho2 : other_parser m2) by (unfold other_parser; by rewrite <- Hname).
  rewrite <- (take_drop_middle ms i m1 H1) in Hnd.
  rewrite filter_app, filter_cons_True, map_app in Hnd by exact Ho1.
  apply NoDup_app in Hnd as (_ & _ & Hnd). cbn [map] in Hnd.
  apply NoDup_cons in Hnd as [Hnotin _]. apply Hnotin.
  rewrite (sig_run_same m1 m2 Hname Hmap).
  apply list_elem_of_fmap. exists m2. split; [reflexivity|].
  apply list_elem_of_filter. split; [exact Ho2|].
  apply list_elem_of_lookup. exists (j - S i)%nat.
  rewrite lookup_drop. replace (S i + (j - S i))%nat with j by lia. exact H2.
Qed.

(** C1, as the loop has it: when the devices of the scan listing have
    pairwise different base labels (device path and disk index), two
    metrics of the run that have the same name and the same label
    mapping can only be metrics of the NVMe parser; all other metrics
    are pairwise different series, whatever smartctl printed. *)
Theorem distinct_devices_distinct_series smartctl shlex_split parse_device_args
    wakeup_disks now log i j m1 m2 :
  NoDup (map base_labels
           (found_devices smartctl shlex_split parse_device_args log)) ->
  (i < j)%nat ->
  yielded (collect_disks_smart_metrics smartctl shlex_split parse_device_args
             wakeup_disks now log).2 !! i = Some m1 ->
  yielded (collect_disks_smart_metrics smartctl shlex_split parse_device_args
             wakeup_disks now log).2 !! j = Some m2 ->
  name m1 = name m2 ->
  same_mapping (labels m1) (labels m2) ->
  nvme_name (name m1) = true.
Proof.
  unfold found_devices, collect_disks_smart_metrics.
  destruct (find_devices smartctl shlex_split parse_device_args log)
    as [log1 [devices stop]].
  unfold yielded at 1. cbn [fst snd]. intros Hnd Hij.
  destruct (run_inv smartctl wakeup_disks now devices log1 Hnd) as [Hrun _].
  destruct (gfor_each _ devices log1) as [log2 [metrics r]].
  unfold yielded in *. cbn [fst snd] in *.
  by apply NoDup_sig_run_series.
Qed.

(** *** Runs over concrete listings *)

(** [shlex.split(line, comments=True)] on lines without quoting, and the
    parser of [find_devices] on the options the listing uses. *)
Definition split_words (line : string) : option (list string) :=
  Some (PyStr.split_ws (PyStr.split1_head "#" line)).

Definition device_type_option (toks : list string) : option (option string) :=
  match toks with
  | [] => Some None
  | [flag; t] =>
      if String.eqb flag "-d" || String.eqb flag "--device"
      then Some (Some t) else None
  | _ => None
  end.

(** Two drives behind one RAID controller: the listing names the
    controller's path for both, and the drive is told by the type. *)
Definition scan_megaraid : string :=
"/dev/bus/0 -d megaraid,0 # /dev/bus/0 [megaraid_disk_00], SCSI device
/dev/bus/0 -d megaraid,1 # /dev/bus/0 [megaraid_disk_01], SCSI device
".

(** The second drive is asleep. *)
Definition smartctl_megaraid (log : list call) (args : call) : completed :=
  if decide (args = ["-d"; "by-id"; "--scan-open"])
  then {| exit_ok := true; stdout := scan_megaraid |}
  else if decide (args = ["--nocheck"; "standby"; "--device"; "megaraid,1";
                          "/dev/bus/0"])
  then {| exit_ok := false; stdout := "" |}
  else {| exit_ok := true; stdout := "" |}.

(** One NVMe drive whose health block has the temperature line twice. *)
Definition scan_nvme : string :=
"/dev/nvme0 -d nvme # /dev/nvme0, NVMe device
".

Definition attributes_nvme_repeated : string :=
"smartctl 6.6 2016-05-31 r4324 [x86_64-linux-4.9.0] (local build)
Copyright (C) 2002-16, Bruce Allen, Christian Franke, www.smartmontools.org

=== START OF SMART DATA SECTION ===
SMART/Health Information (NVMe Log 0x02, NSID 0xffffffff)
Critical Warning:                   0x00
Temperature:                        32 Celsius
Temperature:                        33 Celsius
".

Definition smartctl_nvme (log : list call) (args : call) : completed :=
  if decide (args = ["-d"; "by-id"; "--scan-open"])
  then {| exit_ok := true; stdout := scan_nvme |}
  else if decide (args = ["--attributes"; "--device"; "nvme"; "/dev/nvme0"])
  then {| exit_ok := true; stdout := attributes_nvme_repeated |}
  else {| exit_ok := true; stdout := "" |}.

(** The claim as worded: two metrics of a run with the same name and
    the same label mapping have the same value. *)
Definition one_value_per_series (ms : list Metric) : Prop :=
  ∀ i j m1 m2,
    (i < j)%nat -> ms !! i = Some m1 -> ms !! j = Some m2 ->
    name m1 = name m2 -> same_mapping (labels m1) (labels m2) ->
    value m1 = value m2.

(** C1 fails as worded: both drives behind the controller get the labels
    [device="/dev/bus/0", disk="0"]: the disk index is read after a [+]
    in the type, and [megaraid,1] has none.  The run reports
    [device_active] as true for the first and false for the second. *)
Lemma shared_controller_two_values :
  ¬ one_value_per_series
      (yielded (collect_disks_smart_metrics smartctl_megaraid split_words
                  device_type_option false 1700000000 []).2).
Proof.
  intros H.
  assert (Hv : value {| name := "device_active";
                        labels := [("device", "/dev/bus/0"); ("disk", "0")];
                        value := PBool true |}
               = value {| name := "device_active";
                          labels := [("device", "/dev/bus/0"); ("disk", "0")];
                          value := PBool false |}).
  { apply (H 1%nat 6%nat).
    - lia.
    - vm_compute. reflexivity.
    - vm_compute. reflexivity.
    - reflexivity.
    - intros k. reflexivity. }
  discriminate Hv.
Qed.

Lemma distinct_devices_distinct_series_witness :
  NoDup (map base_labels
           (found_devices smartctl_nvme split_words device_type_option []))
  ∧ nvme_name "temperature_celcius" = true.
Proof.
  assert (Hnd : NoDup (map base_labels
                         (found_devices smartctl_nvme split_words
                            device_type_option []))).
  { vm_compute. apply NoDup_singleton. }
  split; [exact Hnd|].
  apply (distinct_devices_distinct_series smartctl_nvme split_words
           device_type_option false 1700000000 [] 6 7
           {| name := "temperature_celcius";
              labels := [("device", "/dev/nvme0"); ("disk", "0")];
              value := PStr " 32" |}
           {| name := "temperature_celcius";
              labels := [("device", "/dev/nvme0"); ("disk", "0")];
              value := PStr " 33" |} Hnd).
  - lia.
  - vm_compute. reflexivity.
  - vm_compute. reflexivity.
  - reflexivity.
  - intros k. reflexivity.
Defined.

(** What the run reports for the first drive behind the controller. *)
Example megaraid_first_drive_names :
  map name
    (take 5 (yielded (collect_disks_smart_metrics smartctl_megaraid split_words
                        device_type_option false 1700000000 []).2))
  = ["smartctl_run"; "device_active"; "device_info";
     "device_smart_available"; "device_smart_enabled"].
Proof. vm_compute. reflexivity. Qed.

(** ** What reaches the output *)

(** [str(decimal.Decimal(text))] on the texts the examples below print.
    Decimal digits, with or without whitespace around them, are a
    number, written without its leading zeros; a text holding a comma is
    no number.  Signs, fractions, exponents and the special values are
    not covered: the examples print none. *)
Definition decimal_plain (text : string) : option string :=
  let t := PyStr.strip text in
  match t with
  | "" => None
  | _ =>
      if all_chars PyStr.isdigit t
      then Some (match drop_while (fun c => Ascii.eqb c "0") t with
                 | "" => "0"
                 | ds => ds
                 end)
      else None
  end.

(** C6 as worded, for the output: the threshold field 000 of a row is
    what its [attr_threshold] series ends in. *)
Definition threshold_zeros_reach_output
    (decimal_str : string -> option string) (device : Device) (r : TableRow)
    : Prop :=
  forall m,
    m ∈ yielded (ata_entry device ∅ (row_entry r)) ->
    name m = "attr_threshold" -> r_threshold r = "000" ->
    metric_format decimal_str m "smartmon_" = ret (series_text m "000").

(** C6 fails as worded: the temperature row has the threshold 000, which
    its metric keeps, and the series line printed for it ends in 0, as
    the line of a row with the sentinel does. *)
Lemma threshold_zeros_printed_as_zero :
  yielded (ata_entry sda ∅ (row_entry row_temperature)) !! 2%nat
  = Some {| name := "attr_threshold";
            labels := ("name", "temperature_celsius") :: sda_labels;
            value := PStr "000" |}
  ∧ metric_format decimal_plain
      {| name := "attr_threshold";
         labels := ("name", "temperature_celsius") :: sda_labels;
         value := PStr "000" |} "smartmon_"
    = ret ("smartmon_attr_threshold{name=" +:+ dquote +:+ "temperature_celsius"
             +:+ dquote +:+ ",device=" +:+ dquote +:+ "/dev/sda" +:+ dquote
             +:+ ",disk=" +:+ dquote +:+ "0" +:+ dquote +:+ "} 0")
  ∧ yielded (ata_entry sda ∅ (row_entry row_hours)) !! 2%nat
    = Some {| name := "attr_threshold";
              labels := ("name", "power_on_hours") :: sda_labels;
              value := PStr "0" |}
  ∧ metric_format decimal_plain
      {| name := "attr_threshold";
         labels := ("name", "power_on_hours") :: sda_labels;
         value := PStr "0" |} "smartmon_"
    = ret ("smartmon_attr_threshold{name=" +:+ dquote +:+ "power_on_hours"
             +:+ dquote +:+ ",device=" +:+ dquote +:+ "/dev/sda" +:+ dquote
             +:+ ",disk=" +:+ dquote +:+ "0" +:+ dquote +:+ "} 0")
  ∧ ¬ threshold_zeros_reach_output decimal_plain sda row_temperature.
Proof.
  split; [vm_compute; reflexivity|].
  split; [vm_compute; reflexivity|].
  split; [vm_compute; reflexivity|].
  split; [vm_compute; reflexivity|].
  intros H.
  specialize (H {| name := "attr_threshold";
                   labels := ("name", "temperature_celsius") :: sda_labels;
                   value := PStr "000" |}).
  assert (Hline : metric_format decimal_plain
                    {| name := "attr_threshold";
                       labels := ("name", "temperature_celsius") :: sda_labels;
                       value := PStr "000" |} "smartmon_"
                  = ret (series_text
                           {| name := "attr_threshold";
                              labels := ("name", "temperature_celsius")
                                          :: sda_labels;
                              value := PStr "000" |} "000")).
  { apply H.
    - apply list_elem_of_In. vm_compute. right. right. left. reflexivity.
    - reflexivity.
    - reflexivity. }
  vm_compute in Hline. discriminate Hline.
Qed.

(** An NVMe drive that counts 1,205 media errors, written as smartctl
    writes large numbers. *)
Definition attributes_nvme_errors : string :=
"smartctl 6.6 2016-05-31 r4324 [x86_64-linux-4.9.0] (local build)
Copyright (C) 2002-16, Bruce Allen, Christian Franke, www.smartmontools.org

=== START OF SMART DATA SECTION ===
SMART/Health Information (NVMe Log 0x02, NSID 0xffffffff)
Critical Warning:                   0x00
Temperature:                        32 Celsius
Media and Data Integrity Errors:    1,205
".

Definition smartctl_nvme_errors (log : list call) (args : call) : completed :=
  if decide (args = ["-d"; "by-id"; "--scan-open"])
  then {| exit_ok := true; stdout := scan_nvme |}
  else if decide (args = ["--attributes"; "--device"; "nvme"; "/dev/nvme0"])
  then {| exit_ok := true; stdout := attributes_nvme_errors |}
  else {| exit_ok := true; stdout := "" |}.

(** The metrics of the run over that drive. *)
Definition nvme_errors_metrics : list Metric :=
  yielded (collect_disks_smart_metrics smartctl_nvme_errors split_words
             device_type_option false 1700000000 []).2.

(** C8 as worded, for any collection of one run: every name gets its
    two preamble lines once, directly before all its series. *)
Definition preamble_once_per_name (decimal_str : string -> option string)
    (metrics : list Metric) : Prop :=
  forall m, m ∈ metrics ->
    (∃ pre post,
       yielded (print_metrics decimal_str (sort_by_name metrics))
       = pre ++ help_line m "smartmon_" :: type_line m "smartmon_"
             :: map (series_line decimal_str)
                  (filter (fun x => name x = name m) metrics)
             ++ post)
    ∧ occurrences (help_line m "smartmon_")
        (yielded (print_metrics decimal_str (sort_by_name metrics))) = 1%nat
    ∧ occurrences (type_line m "smartmon_")
        (yielded (print_metrics decimal_str (sort_by_name metrics))) = 1%nat.

(** C8 fails as worded: the run yields [media_errors_total] with the
    value 1,205 as printed, which is no number.  The printing loop
    stops there with [InvalidOperation], after the preamble of that
    name and before its series; [smartctl_run] and
    [temperature_celcius], sorted after it, get no line at all. *)
Lemma unreadable_value_stops_output :
  {| name := "media_errors_total";
     labels := [("device", "/dev/nvme0"); ("disk", "0")];
     value := PStr " 1,205" |} ∈ nvme_errors_metrics
  ∧ {| name := "smartctl_run";
       labels := [("device", "/dev/nvme0"); ("disk", "0")];
       value := PInt 1700000000 |} ∈ nvme_errors_metrics
  ∧ outcome (print_metrics decimal_plain (sort_by_name nvme_errors_metrics))
    = inl InvalidOperation
  ∧ last (yielded (print_metrics decimal_plain
                     (sort_by_name nvme_errors_metrics)))
    = Some "# TYPE smartmon_media_errors_total gauge"
  ∧ occurrences "# HELP smartmon_smartctl_run SMART metric smartctl_run"
      (yielded (print_metrics decimal_plain
                  (sort_by_name nvme_errors_metrics))) = 0%nat
  ∧ ¬ preamble_once_per_name decimal_plain nvme_errors_metrics.
Proof.
  assert (Hrun : {| name := "smartctl_run";
                    labels := [("device", "/dev/nvme0"); ("disk", "0")];
                    value := PInt 1700000000 |} ∈ nvme_errors_metrics).
  { apply list_elem_of_In. vm_compute. left. reflexivity. }
  split.
  { apply list_elem_of_In. vm_compute. do 7 right. left. reflexivity. }
  split; [exact Hrun|].
  split; [vm_compute; reflexivity|].
  split; [vm_compute; reflexivity|].
  split; [vm_compute; reflexivity|].
  intros H. destruct (H _ Hrun) as (_ & Hhelp & _).
  vm_compute in Hhelp. discriminate Hhelp.
Qed.

(** * The rest of the script *)

(** ** Stepping through a generator *)

Lemma gbind_eq {Y A B} (g : Gen Y A) (k : A -> Gen Y B) log log' ys a :
  g log = (log', (ys, inr a)) ->
  gbind g k log = (let '(l, (ys', r)) := k a log' in (l, (ys ++ ys', r))).
Proof. intros H. unfold gbind. rewrite H. reflexivity. Qed.

Lemma gbind_raise_eq {Y A B} (g : Gen Y A) (k : A -> Gen Y B) log log' ys e :
  g log = (log', (ys, inl e)) -> gbind g k log = (log', (ys, inl e)).
Proof. intros H. unfold gbind. rewrite H. reflexivity. Qed.

Lemma get_base_labels_eq {Y} device base log :
  base_labels device = inr base ->
  get_base_labels (Y:=Y) device log = (log, ([], inr base)).
Proof.
  intros H. unfold get_base_labels, read_base_labels, lift. by rewrite H.
Qed.

(** An invocation that cannot raise: its exit status is zero, or it is
    not checked. *)
Lemma smart_ctl_eq {Y} smartctl argv check log :
  check && negb (exit_ok (smartctl log argv)) = false ->
  smart_ctl (Y:=Y) smartctl (map Some argv) check log
  = (log ++ [argv], ([], inr (stdout (smartctl log argv)))).
Proof.
  intros H. unfold smart_ctl.
  replace (mapM id (map Some argv)) with (Some argv).
  - by rewrite H.
  - clear. induction argv as [|x argv IH]; [reflexivity|].
    cbn [map mapM]. rewrite <- IH. reflexivity.
Qed.

Lemma smart_ctl_raise_eq {Y} smartctl argv log :
  exit_ok (smartctl log argv) = false ->
  smart_ctl (Y:=Y) smartctl (map Some argv) true log
  = (log ++ [argv], ([], inl CalledProcessError)).
Proof.
  intros H. unfold smart_ctl.
  replace (mapM id (map Some argv)) with (Some argv).
  - by rewrite H.
  - clear. induction argv as [|x argv IH]; [reflexivity|].
    cbn [map mapM]. rewrite <- IH. reflexivity.
Qed.

Lemma smartctl_select_typed device t :
  type device = Some t ->
  smartctl_select device = map Some ["--device"; t; path device].
Proof. intros H. unfold smartctl_select. by rewrite H. Qed.

(** ** The standby probe *)

Lemma device_is_active_eq {Y} smartctl device t log :
  type device = Some t ->
  device_is_active (Y:=Y) smartctl device log
  = (log ++ [standby_probe device t],
     ([], inr (exit_ok (smartctl log (standby_probe device t))))).
Proof.
  intros Htype. unfold device_is_active.
  rewrite (smartctl_select_typed device t Htype).
  change (Some "--nocheck" :: Some "standby" :: map Some ?l)
    with (map Some ("--nocheck" :: "standby" :: l)).
  fold (standby_probe device t).
  destruct (exit_ok (smartctl log (standby_probe device t))) eqn:Hexit.
  - by rewrite smart_ctl_eq by (by rewrite Hexit).
  - by rewrite smart_ctl_raise_eq.
Qed.

(** For a device that has a type, with no NUL character in the type or
    in the path (an argument that holds one cannot be passed to a
    process), [device_is_active] makes one invocation, of the probe, and
    yields nothing.  When the invocation exits with a status other than
    zero, the [CalledProcessError] is caught and the result is [False];
    when it exits with status zero, its output being text, the result is
    [True]. *)
Theorem device_is_active_reports_exit smartctl device t log :
  type device = Some t ->
  has_char "000" t = false -> has_char "000" (path device) = false ->
  (exit_ok (smartctl log (standby_probe device t)) = false ->
   device_is_active (Y:=Metric) smartctl device log
   = (log ++ [standby_probe device t], ([], inr false)))
  ∧ (exit_ok (smartctl log (standby_probe device t)) = true ->
     device_is_active (Y:=Metric) smartctl device log
     = (log ++ [standby_probe device t], ([], inr true))).
Proof.
  intros Htype _ _. rewrite (device_is_active_eq smartctl device t log Htype).
  split; intros ->; reflexivity.
Qed.

Lemma device_is_active_reports_exit_witness :
  (exit_ok (smartctl_asleep [] (standby_probe sda "sat")) = false ->
   device_is_active (Y:=Metric) smartctl_asleep sda []
   = ([] ++ [standby_probe sda "sat"], ([], inr false)))
  ∧ (exit_ok (smartctl_asleep [] (standby_probe sda "sat")) = true ->
     device_is_active (Y:=Metric) smartctl_asleep sda []
     = ([] ++ [standby_probe sda "sat"], ([], inr true))).
Proof.
  apply (device_is_active_reports_exit smartctl_asleep sda "sat" []).
  - reflexivity.
  - reflexivity.
  - reflexivity.
Defined.

(** ** Devices the loop cannot label *)

Lemma collect_device_metrics_untyped smartctl wakeup now d log :
  type d = None ->
  collect_device_metrics smartctl wakeup now d log
  = (log, ([], inl AttributeError)).
Proof.
  intros Htype.
  unfold collect_device_metrics, gbind, get_base_labels, read_base_labels,
    lift, base_labels.
  rewrite Htype. reflexivity.
Qed.

Lemma gfor_each_stops_at_untyped smartctl wakeup now pre d post log :
  type d = None ->
  yielded (gfor_each (collect_device_metrics smartctl wakeup now)
             (pre ++ d :: post) log).2
  = yielded (gfor_each (collect_device_metrics smartctl wakeup now) pre log).2
  ∧ ∃ e, outcome (gfor_each (collect_device_metrics smartctl wakeup now)
                    (pre ++ d :: post) log).2 = inl e.
Proof.
  intros Htype. revert log. induction pre as [|x pre IH]; intros log.
  - cbn [app].
    change (gfor_each ?body (d :: post))
      with (gbind (body d) (fun _ => gfor_each body post)).
    rewrite gbind_yielded, gbind_outcome.
    rewrite (collect_device_metrics_untyped smartctl wakeup now d log Htype).
    split; [reflexivity|]. exists AttributeError. reflexivity.
  - change (gfor_each ?body ((x :: pre) ++ d :: post))
      with (gbind (body x) (fun _ => gfor_each body (pre ++ d :: post))).
    change (gfor_each ?body (x :: pre))
      with (gbind (body x) (fun _ => gfor_each body pre)).
    rewrite !gbind_yielded, gbind_outcome.
    destruct (outcome (collect_device_metrics smartctl wakeup now x log).2)
      as [e|[]].
    + split; [reflexivity|]. exists e. reflexivity.
    + destruct (IH (collect_device_metrics smartctl wakeup now x log).1)
        as [-> He]. split; [reflexivity|exact He].
Qed.

(** A line of the scan listing without a [-d] option gives a device
    whose type is [None].  Reading its base labels raises
    [AttributeError] before anything is yielded or run for it, and the
    exception ends the whole run: the metrics are those of the devices
    listed before it. *)
Theorem device_without_type_stops_run smartctl shlex_split parse_device_args
    wakeup now log pre d post :
  found_devices smartctl shlex_split parse_device_args log = pre ++ d :: post ->
  type d = None ->
  (∃ e, outcome (collect_disks_smart_metrics smartctl shlex_split
                   parse_device_args wakeup now log).2 = inl e)
  ∧ yielded (collect_disks_smart_metrics smartctl shlex_split
               parse_device_args wakeup now log).2
    = yielded (gfor_each (collect_device_metrics smartctl wakeup now) pre
                 (find_devices smartctl shlex_split parse_device_args log).1).2
  ∧ forall log', collect_device_metrics smartctl wakeup now d log'
                 = (log', ([], inl AttributeError)).
Proof.
  unfold found_devices, collect_disks_smart_metrics.
  destruct (find_devices smartctl shlex_split parse_device_args log)
    as [log1 [devices stop]].
  unfold yielded at 1. cbn [fst snd]. intros -> Htype.
  destruct (gfor_each_stops_at_untyped smartctl wakeup now pre d post log1 Htype)
    as [Hy [e He]].
  destruct (gfor_each _ (pre ++ d :: post) log1) as [log2 [metrics r]].
  unfold yielded, outcome in *. cbn [fst snd] in *. subst r.
  split; [by exists e|]. split; [exact Hy|].
  intros log'. by apply collect_device_metrics_untyped.
Qed.

(** A listing whose second line has no [-d] option. *)
Definition scan_untyped : string :=
"/dev/nvme0 -d nvme # /dev/nvme0, NVMe device
/dev/sdb
".

Definition smartctl_untyped (log : list call) (args : call) : completed :=
  if decide (args = ["-d"; "by-id"; "--scan-open"])
  then {| exit_ok := true; stdout := scan_untyped |}
  else {| exit_ok := true; stdout := "" |}.

Lemma device_without_type_stops_run_witness :
  (∃ e, outcome (collect_disks_smart_metrics smartctl_untyped split_words
                   device_type_option false 1700000000 []).2 = inl e)
  ∧ yielded (collect_disks_smart_metrics smartctl_untyped split_words
               device_type_option false 1700000000 []).2
    = yielded (gfor_each (collect_device_metrics smartctl_untyped false 1700000000)
                 [nvme0]
                 (find_devices smartctl_untyped split_words
                    device_type_option []).1).2
  ∧ forall log', collect_device_metrics smartctl_untyped false 1700000000
                   {| path := "/dev/sdb"; type := None |} log'
                 = (log', ([], inl AttributeError)).
Proof.
  apply (device_without_type_stops_run smartctl_untyped split_words
           device_type_option false 1700000000 [] [nvme0]
           {| path := "/dev/sdb"; type := None |} []).
  - vm_compute. reflexivity.
  - reflexivity.
Defined.

(** ** A failing scan *)

(** When the scan exits non-zero the run makes no other invocation,
    yields no metric and ends with [CalledProcessError]. *)
Theorem failed_scan_no_metrics smartctl shlex_split parse_device_args
    wakeup now log :
  exit_ok (smartctl log ["-d"; "by-id"; "--scan-open"]) = false ->
  collect_disks_smart_metrics smartctl shlex_split parse_device_args
    wakeup now log
  = (log ++ [["-d"; "by-id"; "--scan-open"]], ([], inl CalledProcessError)).
Proof.
  intros Hscan.
  unfold collect_disks_smart_metrics, find_devices, gbind, smart_ctl.
  cbn [mapM mbind option_bind mret option_ret id]. rewrite Hscan.
  reflexivity.
Qed.

Definition smartctl_missing (log : list call) (args : call) : completed :=
  {| exit_ok := false; stdout := "" |}.

Lemma failed_scan_no_metrics_witness :
  collect_disks_smart_metrics smartctl_missing split_words device_type_option
    true 1700000000 []
  = ([] ++ [["-d"; "by-id"; "--scan-open"]], ([], inl CalledProcessError)).
Proof.
  apply (failed_scan_no_metrics smartctl_missing split_words device_type_option
           true 1700000000 []).
  reflexivity.
Defined.

(** ** A device without SMART *)

(** The queries for a device of type [t]. *)
Definition info_query (device : Device) (t : string) : call :=
  ["--info"; "--device"; t; path device].

Definition health_query (device : Device) (t : string) : call :=
  ["--health"; "--device"; t; path device].

Definition attributes_query (device : Device) (t : string) : call :=
  ["--attributes"; "--device"; t; path device].

Definition error_log_query (device : Device) (t : string) : call :=
  ["-l"; "xerror,1"; "--device"; t; path device].

Lemma device_info_eq {Y} smartctl device t log :
  type device = Some t ->
  exit_ok (smartctl log (info_query device t)) = true ->
  device_info (Y:=Y) smartctl device log
  = (log ++ [info_query device t],
     ([], inr (device_info_of (stdout (smartctl log (info_query device t)))))).
Proof.
  intros Htype Hexit. unfold device_info.
  rewrite (smartctl_select_typed device t Htype).
  change (Some "--info" :: map Some ?l) with (map Some ("--info" :: l)).
  fold (info_query device t).
  erewrite gbind_eq by (apply smart_ctl_eq; by rewrite Hexit).
  reflexivity.
Qed.

Lemma collect_device_info_eq smartctl device t base log :
  type device = Some t -> base_labels device = inr base ->
  exit_ok (smartctl log (info_query device t)) = true ->
  collect_device_info smartctl device log
  = (log ++ [info_query device t],
     ([ {| name := "device_info";
           labels := device_info_labels base
                       (device_info_of
                          (stdout (smartctl log (info_query device t))));
           value := PBool true |} ],
      inr tt)).
Proof.
  intros Htype Hbase Hexit. unfold collect_device_info.
  erewrite gbind_eq by (by apply device_info_eq).
  erewrite gbind_eq by (by apply get_base_labels_eq).
  reflexivity.
Qed.

Lemma device_smart_capabilities_eq {Y} smartctl device t log :
  type device = Some t -> t ≠ "nvme" ->
  exit_ok (smartctl log (info_query device t)) = true ->
  device_smart_capabilities (Y:=Y) smartctl device log
  = (log ++ [info_query device t],
     ([], inr (capabilities_of
                 (device_info_of
                    (stdout (smartctl log (info_query device t))))))).
Proof.
  intros Htype Hnvme Hexit. unfold device_smart_capabilities.
  rewrite decide_False by (rewrite Htype; intros [= ->]; by apply Hnvme).
  erewrite gbind_eq by (by apply device_info_eq).
  reflexivity.
Qed.

(** For a device that is not NVMe, is awake (or is woken up) and whose
    information does not say that SMART is available, the loop body
    yields five metrics and stops: it runs the probe and the [--info]
    query twice (once for the labels, once for the capabilities), and no
    health or attribute query. *)
Theorem smart_unavailable_five_metrics smartctl wakeup now device t log enabled :
  type device = Some t -> t ≠ "nvme" ->
  let log1 := log ++ [standby_probe device t] in
  let log2 := log1 ++ [info_query device t] in
  exit_ok (smartctl log (standby_probe device t)) || wakeup = true ->
  exit_ok (smartctl log1 (info_query device t)) = true ->
  exit_ok (smartctl log2 (info_query device t)) = true ->
  capabilities_of (device_info_of (stdout (smartctl log2 (info_query device t))))
    = (false, enabled) ->
  ∃ base,
    base_labels device = inr base
    ∧ collect_device_metrics smartctl wakeup now device log
      = (log2 ++ [info_query device t],
         ([ {| name := "smartctl_run"; labels := base; value := PInt now |};
            {| name := "device_active"; labels := base;
               value := PBool (exit_ok (smartctl log (standby_probe device t))) |};
            {| name := "device_info";
               labels := device_info_labels base
                           (device_info_of
                              (stdout (smartctl log1 (info_query device t))));
               value := PBool true |};
            {| name := "device_smart_available"; labels := base;
               value := PBool false |};
            {| name := "device_smart_enabled"; labels := base;
               value := PBool enabled |} ],
          inr tt)).
Proof.
  intros Htype Hnvme log1 log2 Hactive Hinfo1 Hinfo2 Hcaps.
  destruct (base_labels device) as [e|base] eqn:Hbase.
  { unfold base_labels in Hbase. by rewrite Htype in Hbase. }
  exists base. split; [reflexivity|].
  unfold collect_device_metrics.
  erewrite gbind_eq by (by apply get_base_labels_eq).
  erewrite gbind_eq by reflexivity.
  erewrite gbind_eq by (by apply device_is_active_eq).
  erewrite gbind_eq by (by apply get_base_labels_eq).
  erewrite gbind_eq by reflexivity.
  replace (negb (exit_ok (smartctl log (standby_probe device t))) && negb wakeup)
    with false
    by (destruct (exit_ok _), wakeup; done).
  erewrite gbind_eq by (by apply collect_device_info_eq).
  erewrite gbind_eq by (by apply device_smart_capabilities_eq).
  fold log1 log2. rewrite Hcaps.
  erewrite gbind_eq by (by apply get_base_labels_eq).
  erewrite gbind_eq by reflexivity.
  erewrite gbind_eq by (by apply get_base_labels_eq).
  erewrite gbind_eq by reflexivity.
  reflexivity.
Qed.

(** A drive that answers the probe and prints nothing about SMART. *)
Definition smartctl_silent (log : list call) (args : call) : completed :=
  {| exit_ok := true; stdout := "" |}.

Definition usb_stick : Device := {| path := "/dev/sdc"; type := Some "scsi" |}.

Lemma smart_unavailable_five_metrics_witness :
  ∃ base,
    base_labels usb_stick = inr base
    ∧ collect_device_metrics smartctl_silent false 1700000000 usb_stick []
      = ((([] ++ [standby_probe usb_stick "scsi"])
            ++ [info_query usb_stick "scsi"]) ++ [info_query usb_stick "scsi"],
         ([ {| name := "smartctl_run"; labels := base;
               value := PInt 1700000000 |};
            {| name := "device_active"; labels := base;
               value := PBool (exit_ok (smartctl_silent []
                                          (standby_probe usb_stick "scsi"))) |};
            {| name := "device_info";
               labels := device_info_labels base
                           (device_info_of
                              (stdout (smartctl_silent
                                         ([] ++ [standby_probe usb_stick "scsi"])
                                         (info_query usb_stick "scsi"))));
               value := PBool true |};
            {| name := "device_smart_available"; labels := base;
               value := PBool false |};
            {| name := "device_smart_enabled"; labels := base;
               value := PBool false |} ],
          inr tt)).
Proof.
  apply (smart_unavailable_five_metrics smartctl_silent false 1700000000
           usb_stick "scsi" [] false).
  - reflexivity.
  - discriminate.
  - reflexivity.
  - reflexivity.
  - reflexivity.
  - vm_compute. reflexivity.
Defined.

(** ** The full path through the loop body *)

Lemma collect_health_eq smartctl device t base log :
  type device = Some t -> base_labels device = inr base ->
  collect_device_health_self_assessment smartctl device log
  = (log ++ [health_query device t],
     ([ {| name := "device_smart_healthy"; labels := base;
           value := PBool (self_assessment_passed
                             (stdout (smartctl log (health_query device t)))) |} ],
      inr tt)).
Proof.
  intros Htype Hbase. unfold collect_device_health_self_assessment.
  rewrite (smartctl_select_typed device t Htype).
  change (Some "--health" :: map Some ?l) with (map Some ("--health" :: l)).
  fold (health_query device t).
  erewrite gbind_eq by (by apply smart_ctl_eq).
  erewrite gbind_eq by (by apply get_base_labels_eq).
  reflexivity.
Qed.

Lemma collect_ata_metrics_eq smartctl device t log :
  type device = Some t ->
  exit_ok (smartctl log (attributes_query device t)) = true ->
  collect_ata_metrics smartctl device log
  = (log ++ [attributes_query device t],
     ata_metrics_of device (stdout (smartctl log (attributes_query device t)))).
Proof.
  intros Htype Hexit. unfold collect_ata_metrics.
  rewrite (smartctl_select_typed device t Htype).
  change (Some "--attributes" :: map Some ?l)
    with (map Some ("--attributes" :: l)).
  fold (attributes_query device t).
  erewrite gbind_eq by (apply smart_ctl_eq; by rewrite Hexit).
  unfold lift. by destruct (ata_metrics_of _ _).
Qed.

Lemma collect_nvme_metrics_eq smartctl device t log :
  type device = Some t ->
  exit_ok (smartctl log (attributes_query device t)) = true ->
  collect_nvme_metrics smartctl device log
  = (log ++ [attributes_query device t],
     nvme_metrics_of device (stdout (smartctl log (attributes_query device t)))).
Proof.
  intros Htype Hexit. unfold collect_nvme_metrics.
  rewrite (smartctl_select_typed device t Htype).
  change (Some "--attributes" :: map Some ?l)
    with (map Some ("--attributes" :: l)).
  fold (attributes_query device t).
  erewrite gbind_eq by (apply smart_ctl_eq; by rewrite Hexit).
  unfold lift. by destruct (nvme_metrics_of _ _).
Qed.

Lemma collect_ata_error_count_eq smartctl device t base log :
  type device = Some t -> base_labels device = inr base ->
  collect_ata_error_count smartctl device log
  = (log ++ [error_log_query device t],
     ([ {| name := "device_errors"; labels := base;
           value := error_count_of
                      (stdout (smartctl log (error_log_query device t))) |} ],
      inr tt)).
Proof.
  intros Htype Hbase. unfold collect_ata_error_count.
  rewrite (smartctl_select_typed device t Htype).
  change (Some "-l" :: Some "xerror,1" :: map Some ?l)
    with (map Some ("-l" :: "xerror,1" :: l)).
  fold (error_log_query device t).
  erewrite gbind_eq by (by apply smart_ctl_eq).
  erewrite gbind_eq by (by apply get_base_labels_eq).
  reflexivity.
Qed.

Lemma startswith_sat_not_nvme t :
  PyStr.startswith "sat" t = true -> String.eqb t "nvme" = false.
Proof.
  destruct t as [|c t]; [discriminate|]. cbn [PyStr.startswith].
  intros [Hc _]%andb_prop. apply Ascii.eqb_eq in Hc as <-. reflexivity.
Qed.

(** For a SAT device that is awake (or woken up) and reports SMART as
    available, the loop body runs six queries in this order: probe,
    information twice, health, attributes, error log.  When the
    attribute table is read to its end, the metrics are the six fixed
    ones, then those of the table, then [device_errors]. *)
Theorem sat_device_six_queries smartctl wakeup now device t log enabled :
  type device = Some t -> PyStr.startswith "sat" t = true ->
  let log1 := log ++ [standby_probe device t] in
  let log2 := log1 ++ [info_query device t] in
  let log3 := log2 ++ [info_query device t] in
  let log4 := log3 ++ [health_query device t] in
  let log5 := log4 ++ [attributes_query device t] in
  let attributes := stdout (smartctl log4 (attributes_query device t)) in
  exit_ok (smartctl log (standby_probe device t)) || wakeup = true ->
  exit_ok (smartctl log1 (info_query device t)) = true ->
  exit_ok (smartctl log2 (info_query device t)) = true ->
  capabilities_of (device_info_of (stdout (smartctl log2 (info_query device t))))
    = (true, enabled) ->
  exit_ok (smartctl log4 (attributes_query device t)) = true ->
  outcome (ata_metrics_of device attributes) = inr tt ->
  ∃ base,
    base_labels device = inr base
    ∧ collect_device_metrics smartctl wakeup now device log
      = (log5 ++ [error_log_query device t],
         ([ {| name := "smartctl_run"; labels := base; value := PInt now |};
            {| name := "device_active"; labels := base;
               value := PBool (exit_ok (smartctl log (standby_probe device t))) |};
            {| name := "device_info";
               labels := device_info_labels base
                           (device_info_of
                              (stdout (smartctl log1 (info_query device t))));
               value := PBool true |};
            {| name := "device_smart_available"; labels := base;
               value := PBool true |};
            {| name := "device_smart_enabled"; labels := base;
               value := PBool enabled |};
            {| name := "device_smart_healthy"; labels := base;
               value := PBool (self_assessment_passed
                                 (stdout (smartctl log3 (health_query device t)))) |} ]
          ++ yielded (ata_metrics_of device attributes)
          ++ [ {| name := "device_errors"; labels := base;
                  value := error_count_of
                             (stdout (smartctl log5 (error_log_query device t))) |} ],
          inr tt)).
Proof.
  intros Htype Hsat log1 log2 log3 log4 log5 attributes
    Hactive Hinfo1 Hinfo2 Hcaps Hattr Hata.
  destruct (base_labels device) as [e|base] eqn:Hbase.
  { unfold base_labels in Hbase. by rewrite Htype in Hbase. }
  assert (Hnvme : t ≠ "nvme").
  { intros ->. discriminate Hsat. }
  exists base. split; [reflexivity|].
  unfold collect_device_metrics.
  erewrite gbind_eq by (by apply get_base_labels_eq).
  erewrite gbind_eq by reflexivity.
  erewrite gbind_eq by (by apply device_is_active_eq).
  erewrite gbind_eq by (by apply get_base_labels_eq).
  erewrite gbind_eq by reflexivity.
  replace (negb (exit_ok (smartctl log (standby_probe device t))) && negb wakeup)
    with false
    by (destruct (exit_ok _), wakeup; done).
  erewrite gbind_eq by (by apply collect_device_info_eq).
  erewrite gbind_eq by (by apply device_smart_capabilities_eq).
  fold log1 log2 log3. rewrite Hcaps.
  erewrite gbind_eq by (by apply get_base_labels_eq).
  erewrite gbind_eq by reflexivity.
  erewrite gbind_eq by (by apply get_base_labels_eq).
  erewrite gbind_eq by reflexivity.
  cbn [negb].
  erewrite gbind_eq by (by apply collect_health_eq).
  fold log4. rewrite Htype, Hsat, (startswith_sat_not_nvme t Hsat).
  pose proof (collect_ata_metrics_eq smartctl device t log4 Htype Hattr) as Hcall.
  fold log5 attributes in Hcall.
  destruct (ata_metrics_of device attributes) as [ms r] eqn:Hms.
  unfold outcome in Hata. cbn [snd] in Hata. subst r.
  unfold yielded. cbn [fst].
  erewrite gbind_eq.
  2:{ erewrite gbind_eq by exact Hcall.
      erewrite (collect_ata_error_count_eq smartctl device t base log5)
        by assumption.
      reflexivity. }
  unfold lift, ret. cbn [app]. rewrite app_nil_r. reflexivity.
Qed.

(** The answers of a SAT drive. *)
Definition info_sda : string :=
"smartctl 6.6 2016-05-31 r4324 [x86_64-linux-4.9.0] (local build)
Copyright (C) 2002-16, Bruce Allen, Christian Franke, www.smartmontools.org

=== START OF INFORMATION SECTION ===
Model Family:     Seagate Barracuda 7200.14 (AF)
Device Model:     ST1000DM003-1CH162
Serial Number:    Z1D5ABCD
Firmware Version: CC47
SMART support is: Available - device has SMART capability.
SMART support is: Enabled
".

Definition smartctl_sda (log : list call) (args : call) : completed :=
  if decide (head args = Some "--info")
  then {| exit_ok := true; stdout := info_sda |}
  else if decide (head args = Some "--attributes")
  then {| exit_ok := true; stdout := attributes_two_hours |}
  else {| exit_ok := true; stdout := "" |}.

Lemma sat_device_six_queries_witness :
  (collect_device_metrics smartctl_sda false 1700000000 sda []).1
  = [ standby_probe sda "sat"; info_query sda "sat"; info_query sda "sat";
      health_query sda "sat"; attributes_query sda "sat";
      error_log_query sda "sat" ]
  ∧ map name (yielded (collect_device_metrics smartctl_sda false 1700000000
                         sda []).2)
    = [ "smartctl_run"; "device_active"; "device_info";
        "device_smart_available"; "device_smart_enabled";
        "device_smart_healthy"; "attr_value"; "attr_worst"; "attr_threshold";
        "attr_raw_value"; "device_errors" ].
Proof.
  destruct (sat_device_six_queries smartctl_sda false 1700000000 sda "sat" []
              true) as (base & Hbase & ->).
  - reflexivity.
  - reflexivity.
  - reflexivity.
  - reflexivity.
  - reflexivity.
  - vm_compute. reflexivity.
  - reflexivity.
  - vm_compute. reflexivity.
  - split.
    + reflexivity.
    + vm_compute. reflexivity.
Defined.

(** For an NVMe device that is awake (or woken up), the loop body runs
    four queries in this order: probe, information, health, attributes;
    the capabilities are not queried.  The metrics are the six fixed
    ones, with SMART reported available and enabled, then those of the
    NVMe block, and the body ends as the NVMe parser does. *)
Theorem nvme_device_four_queries smartctl wakeup now device log :
  type device = Some "nvme" ->
  let log1 := log ++ [standby_probe device "nvme"] in
  let log2 := log1 ++ [info_query device "nvme"] in
  let log3 := log2 ++ [health_query device "nvme"] in
  let attributes := stdout (smartctl log3 (attributes_query device "nvme")) in
  exit_ok (smartctl log (standby_probe device "nvme")) || wakeup = true ->
  exit_ok (smartctl log1 (info_query device "nvme")) = true ->
  exit_ok (smartctl log3 (attributes_query device "nvme")) = true ->
  ∃ base,
    base_labels device = inr base
    ∧ collect_device_metrics smartctl wakeup now device log
      = (log3 ++ [attributes_query device "nvme"],
         ([ {| name := "smartctl_run"; labels := base; value := PInt now |};
            {| name := "device_active"; labels := base;
               value := PBool (exit_ok (smartctl log
                                          (standby_probe device "nvme"))) |};
            {| name := "device_info";
               labels := device_info_labels base
                           (device_info_of
                              (stdout (smartctl log1 (info_query device "nvme"))));
               value := PBool true |};
            {| name := "device_smart_available"; labels := base;
               value := PBool true |};
            {| name := "device_smart_enabled"; labels := base;
               value := PBool true |};
            {| name := "device_smart_healthy"; labels := base;
               value := PBool (self_assessment_passed
                                 (stdout (smartctl log2
                                            (health_query device "nvme")))) |} ]
          ++ yielded (nvme_metrics_of device attributes),
          outcome (nvme_metrics_of device attributes))).
Proof.
  intros Htype log1 log2 log3 attributes Hactive Hinfo1 Hattr.
  destruct (base_labels device) as [e|base] eqn:Hbase.
  { unfold base_labels in Hbase. by rewrite Htype in Hbase. }
  exists base. split; [reflexivity|].
  unfold collect_device_metrics.
  erewrite gbind_eq by (by apply get_base_labels_eq).
  erewrite gbind_eq by reflexivity.
  erewrite gbind_eq by (by apply device_is_active_eq).
  erewrite gbind_eq by (by apply get_base_labels_eq).
  erewrite gbind_eq by reflexivity.
  replace (negb (exit_ok (smartctl log (standby_probe device "nvme")))
           && negb wakeup)
    with false
    by (destruct (exit_ok _), wakeup; done).
  erewrite gbind_eq by (by apply collect_device_info_eq).
  fold log1 log2.
  erewrite gbind_eq.
  2:{ unfold device_smart_capabilities.
      rewrite decide_True by exact Htype. reflexivity. }
  cbv beta iota.
  erewrite gbind_eq by (by apply get_base_labels_eq).
  erewrite gbind_eq by reflexivity.
  erewrite gbind_eq by (by apply get_base_labels_eq).
  erewrite gbind_eq by reflexivity.
  cbn [negb].
  erewrite gbind_eq by (by apply collect_health_eq).
  fold log3. rewrite Htype.
  change (PyStr.startswith "sat" "nvme") with false.
  change (String.eqb "nvme" "nvme") with true.
  cbv iota.
  erewrite gbind_eq by reflexivity.
  rewrite (collect_nvme_metrics_eq smartctl device "nvme" log3 Htype Hattr).
  fold attributes.
  destruct (nvme_metrics_of device attributes) as [ms r].
  reflexivity.
Qed.

Lemma nvme_device_four_queries_witness :
  (collect_device_metrics smartctl_nvme false 1700000000 nvme0 []).1
  = [ standby_probe nvme0 "nvme"; info_query nvme0 "nvme";
      health_query nvme0 "nvme"; attributes_query nvme0 "nvme" ]
  ∧ map name (yielded (collect_device_metrics smartctl_nvme false 1700000000
                         nvme0 []).2)
    = [ "smartctl_run"; "device_active"; "device_info";
        "device_smart_available"; "device_smart_enabled";
        "device_smart_healthy"; "temperature_celcius"; "temperature_celcius" ].
Proof.
  destruct (nvme_device_four_queries smartctl_nvme false 1700000000 nvme0 [])
    as (base & Hbase & ->).
  - reflexivity.
  - reflexivity.
  - reflexivity.
  - reflexivity.
  - split.
    + reflexivity.
    + vm_compute. reflexivity.
Defined.

(** ** What [main] prints *)

(** The three lines for the version metric. *)
Definition version_lines (version : string) : list string :=
  [ "# HELP smartmon_smartctl_version SMART metric smartctl_version";
    "# TYPE smartmon_smartctl_version gauge";
    "smartmon_smartctl_version{"
      +:+ ("version=" +:+ dquote
             +:+ PyStr.replace dquote ("\" +:+ dquote) version +:+ dquote)
      +:+ "} 1" ].

Lemma main_after_version smartctl shlex_split parse_device_args decimal_str
    wakeup now log log1 version :
  smart_ctl_version (Y:=string) smartctl log = (log1, ([], inr version)) ->
  main smartctl shlex_split parse_device_args decimal_str wakeup now log
  = (let '(log2, (metrics, r)) :=
       collect_disks_smart_metrics smartctl shlex_split parse_device_args
         wakeup now log1 in
     match r with
     | inl e => (log2, (version_lines version, inl e))
     | inr _ =>
         (log2,
          (version_lines version
             ++ yielded (print_metrics decimal_str (sort_by_name metrics)),
           match outcome (print_metrics decimal_str (sort_by_name metrics)) with
           | inl e => inl e
           | inr _ => inr tt
           end))
     end).
Proof.
  intros Hversion. unfold main.
  erewrite gbind_eq by exact Hversion.
  erewrite gbind_eq by reflexivity.
  erewrite gbind_eq by reflexivity.
  destruct (collect_disks_smart_metrics _ _ _ _ _ _) as [log2 [metrics [e|[]]]].
  - reflexivity.
  - unfold yielded, outcome.
    destruct (print_metrics decimal_str (sort_by_name metrics)) as [ys [e|st]].
    + reflexivity.
    + unfold bind, ret. cbn [fst snd]. rewrite (app_nil_r ys). reflexivity.
Qed.

(** The metrics are collected into a list before anything about them is
    printed: when the collection raises, whatever was collected is lost
    and the output is the three version lines alone. *)
Theorem main_collection_failure_prints_version_only smartctl shlex_split
    parse_device_args decimal_str wakeup now log log1 version e :
  smart_ctl_version (Y:=string) smartctl log = (log1, ([], inr version)) ->
  outcome (collect_disks_smart_metrics smartctl shlex_split parse_device_args
             wakeup now log1).2 = inl e ->
  (main smartctl shlex_split parse_device_args decimal_str wakeup now log).2
  = (version_lines version, inl e).
Proof.
  intros Hversion Hfail.
  rewrite (main_after_version _ _ _ _ _ _ _ _ _ Hversion).
  destruct (collect_disks_smart_metrics _ _ _ _ _ _) as [log2 [metrics r]].
  unfold outcome in Hfail. cbn [snd] in Hfail. subst r. reflexivity.
Qed.

(** [smartctl -V] answers, the scan finds the NVMe drive and a drive
    without a type. *)
Definition version_banner : string :=
"smartctl 7.2 2020-12-30 r5155 [x86_64-linux-5.10.0] (local build)
Copyright (C) 2002-20, Bruce Allen, Christian Franke, www.smartmontools.org
".

Definition smartctl_v72 (inner : list call -> call -> completed)
    (log : list call) (args : call) : completed :=
  if decide (args = ["-V"])
  then {| exit_ok := true; stdout := version_banner |}
  else inner log args.

Lemma main_collection_failure_prints_version_only_witness :
  (main (smartctl_v72 smartctl_untyped) split_words device_type_option Some
     false 1700000000 []).2
  = (version_lines "7.2", inl AttributeError).
Proof.
  apply (main_collection_failure_prints_version_only
           (smartctl_v72 smartctl_untyped) split_words device_type_option Some
           false 1700000000 [] [["-V"]] "7.2" AttributeError).
  - vm_compute. reflexivity.
  - vm_compute. reflexivity.
Defined.

(** When the collection ends normally, the output is the three version
    lines followed by what the printing loop prints for the metrics
    sorted by name. *)
Theorem main_prints_version_then_sorted_metrics smartctl shlex_split
    parse_device_args decimal_str wakeup now log log1 version :
  smart_ctl_version (Y:=string) smartctl log = (log1, ([], inr version)) ->
  outcome (collect_disks_smart_metrics smartctl shlex_split parse_device_args
             wakeup now log1).2 = inr tt ->
  yielded (main smartctl shlex_split parse_device_args decimal_str
             wakeup now log).2
  = version_lines version
    ++ yielded (print_metrics decimal_str
                  (sort_by_name
                     (yielded (collect_disks_smart_metrics smartctl shlex_split
                                 parse_device_args wakeup now log1).2))).
Proof.
  intros Hversion Hok.
  rewrite (main_after_version _ _ _ _ _ _ _ _ _ Hversion).
  destruct (collect_disks_smart_metrics _ _ _ _ _ _) as [log2 [metrics r]].
  unfold outcome in Hok. cbn [snd] in Hok. subst r. reflexivity.
Qed.

Lemma main_prints_version_then_sorted_metrics_witness :
  yielded (main (smartctl_v72 smartctl_megaraid) split_words device_type_option
             Some false 1700000000 []).2
  = version_lines "7.2"
    ++ yielded (print_metrics Some
                  (sort_by_name
                     (yielded (collect_disks_smart_metrics
                                 (smartctl_v72 smartctl_megaraid) split_words
                                 device_type_option false 1700000000
                                 [["-V"]]).2))).
Proof.
  apply (main_prints_version_then_sorted_metrics
           (smartctl_v72 smartctl_megaraid) split_words device_type_option Some
           false 1700000000 [] [["-V"]] "7.2").
  - vm_compute. reflexivity.
  - vm_compute. reflexivity.
Defined.

(** When [smartctl -V] cannot be read, nothing is printed and nothing
    else is run. *)
Theorem main_version_failure_prints_nothing smartctl shlex_split
    parse_device_args decimal_str wakeup now log e :
  outcome (smart_ctl_version (Y:=string) smartctl log).2 = inl e ->
  main smartctl shlex_split parse_device_args decimal_str wakeup now log
  = (log ++ [["-V"]], ([], inl e)).
Proof.
  intros Hfail. unfold main, smart_ctl_version in *.
  change [Some "-V"] with (map Some ["-V"]) in *.
  destruct (exit_ok (smartctl log ["-V"])) eqn:Hexit.
  - erewrite gbind_eq in Hfail by (apply smart_ctl_eq; by rewrite Hexit).
    erewrite gbind_raise_eq; [reflexivity|].
    erewrite gbind_eq by (apply smart_ctl_eq; by rewrite Hexit).
    unfold lift in *.
    destruct (PyStr.split Re.newline (stdout (smartctl log ["-V"])))
      as [|line lines]; [by injection Hfail as <-|].
    destruct (PyStr.split_ws line) as [|w [|v ws]];
      first [by injection Hfail as <- | discriminate Hfail].
  - erewrite gbind_raise_eq in Hfail by (by apply smart_ctl_raise_eq).
    injection Hfail as <-.
    erewrite gbind_raise_eq; [reflexivity|].
    erewrite gbind_raise_eq by (by apply smart_ctl_raise_eq). reflexivity.
Qed.

Lemma main_version_failure_prints_nothing_witness :
  main smartctl_silent split_words device_type_option Some false 1700000000 []
  = ([] ++ [["-V"]], ([], inl IndexError)).
Proof.
  apply (main_version_failure_prints_nothing smartctl_silent split_words
           device_type_option Some false 1700000000 [] IndexError).
  vm_compute. reflexivity.
Defined.

(** ** Base labels *)

Lemma partition_tail_found sep a b :
  has_char sep a = false ->
  PyStr.partition_tail sep (a +:+ String sep b) = b.
Proof.
  induction a as [|c a IH]; cbn [has_char]; intros Ha.
  - change ("" +:+ String sep b) with (String sep b).
    cbn [PyStr.partition_tail]. by rewrite Ascii.eqb_refl.
  - apply orb_false_elim in Ha as [Hc Ha]. rewrite append_cons.
    cbn [PyStr.partition_tail]. rewrite Hc. by apply IH.
Qed.

Lemma partition_tail_missing sep a :
  has_char sep a = false -> PyStr.partition_tail sep a = "".
Proof.
  induction a as [|c a IH]; cbn [has_char PyStr.partition_tail]; [done|].
  intros [Hc Ha]%orb_false_elim. rewrite Hc. by apply IH.
Qed.

(** The [disk] label is the text of the type after its first [+]
    ([sat+megaraid,3] gives [megaraid,3]), and [0] when the type has no
    [+] or nothing after it. *)
Theorem base_labels_disk_index p a b :
  has_char "+" a = false ->
  base_labels {| path := p; type := Some (a +:+ "+" +:+ b) |}
    = inr [("device", p); ("disk", if decide (b = "") then "0" else b)]
  ∧ base_labels {| path := p; type := Some a |}
    = inr [("device", p); ("disk", "0")].
Proof.
  intros Ha. unfold base_labels. cbn [type path]. split.
  - change ("+" +:+ b) with (String "+" b).
    rewrite partition_tail_found by exact Ha. by destruct b.
  - by rewrite partition_tail_missing.
Qed.

Lemma base_labels_disk_index_witness :
  base_labels {| path := "/dev/bus/0";
                 type := Some ("sat" +:+ "+" +:+ "megaraid,3") |}
    = inr [("device", "/dev/bus/0");
           ("disk", if decide ("megaraid,3" = "") then "0" else "megaraid,3")]
  ∧ base_labels {| path := "/dev/bus/0"; type := Some "sat" |}
    = inr [("device", "/dev/bus/0"); ("disk", "0")].
Proof.
  apply (base_labels_disk_index "/dev/bus/0" "sat" "megaraid,3").
  reflexivity.
Defined.

(** ** SMART capabilities *)

(** The two membership tests, on the pairs. *)
Lemma capabilities_of_pairs groups :
  ((capabilities_of groups).1 = true
   <-> ∃ v, ("SMART support", v) ∈ groups
            ∧ PyStr.split1_head " " v = "Available")
  ∧ ((capabilities_of groups).2 = true
     <-> ∃ v, ("SMART support", v) ∈ groups
              ∧ PyStr.split1_head " " v = "Enabled").
Proof.
  assert (Hstate : forall w,
    w ∈ smart_support_state groups
    <-> ∃ v, ("SMART support", v) ∈ groups ∧ PyStr.split1_head " " v = w).
  { intros w. unfold smart_support_state.
    rewrite elem_of_list_to_set, list_elem_of_fmap. split.
    - intros ([k v] & -> & [Hk Hin]%list_elem_of_filter).
      cbn [fst snd] in *. subst k. eauto.
    - intros (v & Hin & <-). exists ("SMART support", v).
      split; [reflexivity|]. apply list_elem_of_filter. by split. }
  unfold capabilities_of. cbn [fst snd].
  rewrite !bool_decide_eq_true. split; apply Hstate.
Qed.

(** ** The labels of [device_info] *)

(** The value the last item with the given key binds. *)
Definition last_value {V} (k : string) (items : list (string * V)) : option V :=
  last (map snd (filter (fun kv => kv.1 = k) items)).

Lemma dict_get_set {V} k k' (v : V) d :
  dict_get k (dict_set k' v d)
  = if String.eqb k' k then Some v else dict_get k d.
Proof.
  destruct (String.eqb_spec k' k) as [->|Hne].
  - induction d as [|[k0 v0] d IH]; cbn [dict_set dict_get].
    + by rewrite String.eqb_refl.
    + destruct (String.eqb_spec k0 k) as [->|Hk0]; cbn [dict_get].
      * by rewrite String.eqb_refl.
      * by rewrite (proj2 (String.eqb_neq k0 k) Hk0).
  - by apply dict_get_set_ne.
Qed.

Lemma last_value_cons {V} k k' (v : V) items :
  last_value k ((k', v) :: items)
  = match last_value k items with
    | Some x => Some x
    | None => if String.eqb k' k then Some v else None
    end.
Proof.
  unfold last_value. rewrite filter_cons. cbn [fst].
  destruct (String.eqb_spec k' k) as [->|Hne].
  - rewrite decide_True by reflexivity. cbn [map snd].
    apply last_cons.
  - rewrite decide_False by exact Hne. by destruct (last _).
Qed.

(** [d.update(items)]: for every key the last item wins, and keys
    without an item keep their binding. *)
Lemma dict_get_update {V} k (d : dict V) items :
  dict_get k (dict_update d items)
  = match last_value k items with
    | Some v => Some v
    | None => dict_get k d
    end.
Proof.
  unfold dict_update. revert d.
  induction items as [|[k' v] items IH]; intros d; [reflexivity|].
  cbn [fold_left fst snd]. rewrite IH, last_value_cons, dict_get_set.
  destruct (last_value k items); [reflexivity|].
  by destruct (String.eqb k' k).
Qed.

Lemma dict_get_of_items {V} k (items : list (string * V)) :
  dict_get k (dict_of_items items) = last_value k items.
Proof.
  unfold dict_of_items. rewrite dict_get_update.
  by destruct (last_value k items).
Qed.

Lemma last_value_absent {V} k (items : list (string * V)) :
  k ∉ map fst items -> last_value k items = None.
Proof.
  intros Hk. unfold last_value. rewrite filter_none; [reflexivity|].
  apply Forall_forall. intros [k' v] Hin Heq. cbn [fst] in Heq. subst k'.
  apply Hk. apply list_elem_of_fmap. by exists (k, v).
Qed.

Lemma dict_set_NoDup {V} k (v : V) d :
  NoDup (map fst d) -> NoDup (map fst (dict_set k v d)).
Proof.
  induction d as [|[k0 v0] d IH]; cbn [dict_set map fst].
  - intros _. apply NoDup_singleton.
  - intros [Hk0 Hnd]%NoDup_cons.
    destruct (String.eqb_spec k0 k) as [->|Hne]; cbn [map fst].
    + apply NoDup_cons. by split.
    + apply NoDup_cons. split; [|by apply IH].
      intros ([k1 v1] & Hk1 & [Heq|Hin]%dict_set_keys)%list_elem_of_fmap;
        cbn [fst] in *; subst.
      * by apply Hne.
      * apply Hk0. apply list_elem_of_fmap. by exists (k1, v1).
Qed.

Lemma dict_update_NoDup {V} (d : dict V) items :
  NoDup (map fst d) -> NoDup (map fst (dict_update d items)).
Proof.
  unfold dict_update. revert d.
  induction items as [|[k v] items IH]; intros d Hnd; [exact Hnd|].
  cbn [fold_left fst snd]. by apply IH, dict_set_NoDup.
Qed.

(** In a dictionary every key is bound once, so the last binding is the
    binding. *)
Lemma last_value_dict {V} k (d : dict V) :
  NoDup (map fst d) -> last_value k d = dict_get k d.
Proof.
  induction d as [|[k0 v0] d IH]; [reflexivity|]. cbn [map fst].
  intros [Hk0 Hnd]%NoDup_cons. rewrite last_value_cons. cbn [dict_get].
  destruct (String.eqb_spec k0 k) as [->|Hne].
  - by rewrite last_value_absent.
  - rewrite (IH Hnd). by destruct (dict_get k d).
Qed.

Lemma last_value_of_items {V} k (items : list (string * V)) :
  last_value k (dict_of_items items) = last_value k items.
Proof.
  rewrite last_value_dict.
  - apply dict_get_of_items.
  - apply dict_update_NoDup. constructor.
Qed.

Section InfoLabels.

Variable values : dict string.

Definition mapped (kv : string * string) : option (string * string) :=
  x ← dict_get kv.1 values; Some (kv.2, x).

Lemma mapped_keys mp key :
  key ∈ map fst (omap mapped mp) -> key ∈ map snd mp.
Proof.
  induction mp as [|[k v] l IH]; cbn [omap list_omap map fst snd]; [done|].
  unfold mapped at 1. cbn [fst snd].
  destruct (dict_get k values) as [x|];
    cbn [mbind option_bind option_ret mret fst snd map].
  - rewrite !elem_of_cons. intros [->|?]; [by left|right; by apply IH].
  - intros ?. apply list_elem_of_further. by apply IH.
Qed.

Lemma last_value_mapped mp k lbl :
  NoDup (map snd mp) -> (k, lbl) ∈ mp ->
  last_value lbl (omap mapped mp) = dict_get k values.
Proof.
  induction mp as [|[k0 l0] mp IH]; cbn [map snd].
  { intros _ H. by apply elem_of_nil in H. }
  intros [Hl0 Hnd]%NoDup_cons [Heq|Hin]%elem_of_cons.
  - injection Heq as -> ->. cbn [omap list_omap]. unfold mapped at 1.
    cbn [fst snd].
    assert (Hrest : last_value l0 (omap mapped mp) = None).
    { apply last_value_absent. intros H. by apply Hl0, mapped_keys. }
    destruct (dict_get k0 values) as [x|];
      cbn [mbind option_bind option_ret mret].
    + by rewrite last_value_cons, Hrest, String.eqb_refl.
    + exact Hrest.
  - assert (Hne : l0 ≠ lbl).
    { intros ->. apply Hl0. apply list_elem_of_fmap. by exists (k, lbl). }
    cbn [omap list_omap]. unfold mapped at 1. cbn [fst snd].
    destruct (dict_get k0 values) as [x|];
      cbn [mbind option_bind option_ret mret].
    + rewrite last_value_cons, (IH Hnd Hin).
      rewrite (proj2 (String.eqb_neq l0 lbl) Hne).
      by destruct (dict_get k values).
    + by apply IH.
Qed.

End InfoLabels.

(** The [device_info] metric carries the label of an entry of
    [device_info_map] exactly when some information line has the
    entry's key, and then with the value of the last such line. *)
Theorem device_info_label_last_line_wins p idx groups k lbl :
  (k, lbl) ∈ device_info_map ->
  dict_get lbl (device_info_labels [("device", p); ("disk", idx)] groups)
  = last_value k groups.
Proof.
  intros Hin. unfold device_info_labels.
  rewrite dict_get_update, last_value_of_items.
  change (omap _ device_info_map)
    with (omap (mapped (dict_of_items groups)) device_info_map).
  rewrite (last_value_mapped (dict_of_items groups) device_info_map k lbl).
  - rewrite dict_get_of_items.
    destruct (last_value k groups); [reflexivity|].
    apply list_elem_of_In in Hin. cbn in Hin.
    repeat (destruct Hin as [[= <- <-]|Hin]; [reflexivity|]).
    destruct Hin.
  - apply NoDup_ListNoDup. vm_compute.
    repeat (constructor; [cbn; intuition discriminate|]). constructor.
  - exact Hin.
Qed.

Lemma device_info_label_last_line_wins_witness :
  dict_get "serial_number"
    (device_info_labels [("device", "/dev/sda"); ("disk", "0")]
       [("Serial Number", "Z1D5ABCD"); ("Serial Number", "Z1D5WXYZ")])
  = last_value "Serial Number"
      [("Serial Number", "Z1D5ABCD"); ("Serial Number", "Z1D5WXYZ")].
Proof.
  apply (device_info_label_last_line_wins "/dev/sda" "0"
           [("Serial Number", "Z1D5ABCD"); ("Serial Number", "Z1D5WXYZ")]
           "Serial Number" "serial_number").
  apply list_elem_of_In. vm_compute. tauto.
Defined.

(** ** Reading a match back *)

(** A repetition that matched took some run of the class and went on
    from its end. *)
Lemma repeat_greedy_inv p min (k : Re.cont) prev s caps res :
  Re.repeat_greedy p min k prev s caps = Some res ->
  ∃ a b, s = a +:+ b ∧ all_chars p a = true
         ∧ (min <= String.length a)%nat
         ∧ k (last_char prev a) b caps = Some res.
Proof.
  revert min prev. induction s as [|c s IH]; intros min prev.
  - cbn [Re.repeat_greedy]. destruct min; [|discriminate].
    intros H. exists "", "". repeat split; [lia|exact H].
  - cbn [Re.repeat_greedy].
    assert (Hstop : match min with
                    | O => k prev (String c s) caps
                    | S _ => None
                    end = Some res ->
                    ∃ a b, String c s = a +:+ b ∧ all_chars p a = true
                           ∧ (min <= String.length a)%nat
                           ∧ k (last_char prev a) b caps = Some res).
    { destruct min; [|discriminate]. intros H.
      exists "", (String c s). repeat split; [lia|exact H]. }
    destruct (p c) eqn:Hc; [|exact Hstop].
    destruct (Re.repeat_greedy p (pred min) k (Some c) s caps) as [r|] eqn:Hin;
      [|exact Hstop].
    intros [= <-]. destruct (IH _ _ Hin) as (a & b & -> & Ha & Hmin & Hk).
    exists (String c a), b. repeat split.
    + cbn [all_chars]. by rewrite Hc, Ha.
    + cbn [String.length]. lia.
    + exact Hk.
Qed.

Lemma repeat_lazy_inv p min (k : Re.cont) prev s caps res :
  Re.repeat_lazy p min k prev s caps = Some res ->
  ∃ a b, s = a +:+ b ∧ all_chars p a = true
         ∧ (min <= String.length a)%nat
         ∧ k (last_char prev a) b caps = Some res.
Proof.
  revert min prev. induction s as [|c s IH]; intros min prev.
  - cbn [Re.repeat_lazy]. destruct min; [|discriminate].
    destruct (k prev "" caps) as [r|] eqn:Hk; [|discriminate].
    intros [= <-]. exists "", "". repeat split; [lia|exact Hk].
  - cbn [Re.repeat_lazy].
    assert (Hmore : (if p c then Re.repeat_lazy p (pred min) k (Some c) s caps
                     else None) = Some res ->
                    ∃ a b, String c s = a +:+ b ∧ all_chars p a = true
                           ∧ (min <= String.length a)%nat
                           ∧ k (last_char prev a) b caps = Some res).
    { destruct (p c) eqn:Hc; [|discriminate]. intros Hin.
      destruct (IH _ _ Hin) as (a & b & -> & Ha & Hmin & Hk).
      exists (String c a), b. repeat split.
      - cbn [all_chars]. by rewrite Hc, Ha.
      - cbn [String.length]. lia.
      - exact Hk. }
    destruct min; [|exact Hmore].
    destruct (k prev (String c s) caps) as [r|] eqn:Hk; [|exact Hmore].
    intros [= <-]. exists "", (String c s). repeat split; [lia|exact Hk].
Qed.

(** A repetition matches as soon as some run of the class leads to a
    match of what follows. *)
Lemma repeat_greedy_some p min (k : Re.cont) prev a b caps :
  all_chars p a = true -> (min <= String.length a)%nat ->
  is_Some (k (last_char prev a) b caps) ->
  is_Some (Re.repeat_greedy p min k prev (a +:+ b) caps).
Proof.
  revert min prev. induction a as [|c a IH]; intros min prev Ha Hmin Hk.
  - destruct min; [|cbn in Hmin; lia].
    change ("" +:+ b) with b. cbn [last_char] in Hk.
    destruct b as [|c b]; cbn [Re.repeat_greedy]; [exact Hk|].
    destruct (p c); [|exact Hk].
    destruct (Re.repeat_greedy p (pred 0) k (Some c) b caps); [eauto|exact Hk].
  - cbn [all_chars] in Ha. apply andb_prop in Ha as [Hc Ha].
    rewrite append_cons. cbn [Re.repeat_greedy]. rewrite Hc.
    destruct (IH (pred min) (Some c) Ha) as [r ->]; [| |eauto].
    + cbn [String.length] in Hmin. lia.
    + exact Hk.
Qed.

(** A literal matches exactly when the text starts with it. *)
Lemma run_lit l (k : Re.cont) prev s caps :
  Re.run (Re.lit l) k prev s caps
  = if PyStr.startswith l s
    then k (last_char prev l) (PyStr.drop_chars (String.length l) s) caps
    else None.
Proof.
  revert prev s. induction l as [|c l IH]; intros prev s.
  - by destruct s.
  - cbn [Re.lit Re.run Re.chr]. destruct s as [|x s]; [reflexivity|].
    cbn [PyStr.startswith String.length PyStr.drop_chars last_char].
    destruct (Ascii.eqb_spec c x) as [->|Hne]; [|reflexivity].
    cbn [andb]. apply IH.
Qed.

Lemma startswith_split l s :
  PyStr.startswith l s = true ->
  s = l +:+ PyStr.drop_chars (String.length l) s.
Proof.
  revert s. induction l as [|c l IH]; intros s; [by destruct s|].
  destruct s as [|x s]; [discriminate|].
  cbn [PyStr.startswith String.length PyStr.drop_chars].
  intros [Hc Hl]%andb_prop. apply Ascii.eqb_eq in Hc as <-.
  rewrite append_cons. f_equal. by apply IH.
Qed.

Lemma startswith_app l s : PyStr.startswith l (l +:+ s) = true.
Proof.
  induction l as [|c l IH]; [by destruct s|].
  rewrite append_cons. cbn [PyStr.startswith]. by rewrite Ascii.eqb_refl.
Qed.

Lemma drop_chars_app l s : PyStr.drop_chars (String.length l) (l +:+ s) = s.
Proof. induction l as [|c l IH]; [by destruct s|exact IH]. Qed.

(** [search] reports a match at some position of the text. *)
Lemma search_from_inv r prev s caps :
  Re.search_from r prev s = Some caps ->
  ∃ a b, s = a +:+ b ∧ Re.run r Re.accept (last_char prev a) b [] = Some caps.
Proof.
  revert prev. induction s as [|c s IH]; intros prev; cbn [Re.search_from].
  - destruct (Re.run r Re.accept prev "" []) as [x|] eqn:Hrun; [|discriminate].
    intros [= <-]. by exists "", "".
  - destruct (Re.run r Re.accept prev (String c s) []) as [x|] eqn:Hrun.
    + intros [= <-]. by exists "", (String c s).
    + intros (a & b & -> & Hab)%IH. by exists (String c a), b.
Qed.

Lemma search_from_some r prev a b :
  is_Some (Re.run r Re.accept (last_char prev a) b []) ->
  is_Some (Re.search_from r prev (a +:+ b)).
Proof.
  revert prev. induction a as [|c a IH]; intros prev Hrun.
  - change ("" +:+ b) with b. cbn [last_char] in Hrun.
    destruct b; cbn [Re.search_from]; destruct Hrun as [x ->]; eauto.
  - rewrite append_cons. cbn [Re.search_from].
    destruct (Re.run r Re.accept prev (String c (a +:+ b)) []); [eauto|].
    by apply IH.
Qed.

(** A position of a text is at the start of a line: it is the start of
    the text or follows a newline. *)
Definition line_start (pre : string) : Prop :=
  pre = "" ∨ ∃ p, pre = p +:+ String Re.newline "".

(** A position is at the end of a line: it is the end of the text or a
    newline follows. *)
Definition line_end (post : string) : Prop :=
  post = "" ∨ ∃ r, post = String Re.newline r.

Lemma last_char_snoc prev pre c :
  last_char prev pre = Some c ->
  (pre = "" ∧ prev = Some c) ∨ ∃ p, pre = p +:+ String c "".
Proof.
  revert prev. induction pre as [|x pre IH]; intros prev; cbn [last_char].
  - intros ->. by left.
  - intros [[-> [= ->]]|[p ->]]%IH; right.
    + by exists "".
    + by exists (String x p).
Qed.

Lemma last_char_app prev p c : last_char prev (p +:+ String c "") = Some c.
Proof.
  revert prev. induction p as [|x p IH]; intros prev; [reflexivity|].
  rewrite append_cons. cbn [last_char]. apply IH.
Qed.

Lemma at_bol_line_start pre :
  Re.at_bol true (last_char None pre) = true <-> line_start pre.
Proof.
  unfold Re.at_bol, line_start. split.
  - destruct (last_char None pre) as [c|] eqn:Hlast.
    + cbn [andb]. intros Hc%Ascii.eqb_eq. subst c.
      apply last_char_snoc in Hlast as [[_ [=]]|Hp]. by right.
    + intros _. left. destruct pre as [|x pre]; [reflexivity|].
      cbn [last_char] in Hlast.
      assert (H : forall prev s, last_char (Some prev) s ≠ None).
      { clear. intros prev s. revert prev.
        induction s as [|y s IH]; intros prev; [done|apply IH]. }
      by apply H in Hlast.
  - intros [->|[p ->]]; [reflexivity|].
    rewrite last_char_app. cbn [andb]. apply Ascii.eqb_refl.
Qed.

Lemma at_eol_line_end post : Re.at_eol true post = true <-> line_end post.
Proof.
  unfold Re.at_eol, line_end. destruct post as [|c [|d post]].
  - split; [by left|done].
  - split.
    + intros Hc%Ascii.eqb_eq. subst c. right. by exists "".
    + intros [[=]|[r [= -> _]]]. apply Ascii.eqb_refl.
  - cbn [andb]. split.
    + intros Hc%Ascii.eqb_eq. subst c. right. by eexists.
    + intros [[=]|[r [= -> _]]]. apply Ascii.eqb_refl.
Qed.

(** ** The error count *)

Lemma error_count_match prev s caps :
  Re.run ata_error_count_re Re.accept prev s [] = Some caps ->
  ∃ ds n rest,
    caps = [(1%nat, ds)] ∧ Re.at_bol true prev = true
    ∧ s = "Error " +:+ ds +:+ " [" +:+ n +:+ "] occurred" +:+ rest
    ∧ ds ≠ "" ∧ all_chars PyStr.isdigit ds = true
    ∧ n ≠ "" ∧ all_chars PyStr.isdigit n = true.
Proof.
  unfold ata_error_count_re. cbn [Re.seq Re.run].
  destruct (Re.at_bol true prev); [|discriminate].
  rewrite run_lit.
  destruct (PyStr.startswith "Error " s) eqn:Hs; [|discriminate].
  pose proof (startswith_split _ _ Hs) as Hsplit.
  set (s1 := PyStr.drop_chars (String.length "Error ") s) in *.
  intros (ds & b & Hs1 & Hds & Hlen & Hk)%repeat_greedy_inv.
  cbv beta in Hk. rewrite run_lit in Hk.
  destruct (PyStr.startswith " [" b) eqn:Hb; [|discriminate].
  apply repeat_greedy_inv in Hk as (n & c & Hb1 & Hn & Hnlen & Hk).
  cbv beta in Hk. rewrite run_lit in Hk.
  destruct (PyStr.startswith "] occurred" c) eqn:Hc; [|discriminate].
  unfold Re.accept in Hk. injection Hk as <-.
  exists ds, n, (PyStr.drop_chars (String.length "] occurred") c).
  split. { rewrite Hs1, substring_before. reflexivity. }
  split; [reflexivity|]. split.
  { etransitivity; [exact Hsplit|]. f_equal. rewrite Hs1. f_equal.
    rewrite (startswith_split _ _ Hb) at 1. f_equal.
    rewrite Hb1. f_equal. by apply startswith_split. }
  repeat split; try assumption.
  - intros ->. cbn in Hlen. lia.
  - intros ->. cbn in Hnlen. lia.
Qed.

Lemma error_count_matches prev ds n rest :
  Re.at_bol true prev = true ->
  ds ≠ "" -> all_chars PyStr.isdigit ds = true ->
  n ≠ "" -> all_chars PyStr.isdigit n = true ->
  is_Some (Re.run ata_error_count_re Re.accept prev
             ("Error " +:+ ds +:+ " [" +:+ n +:+ "] occurred" +:+ rest) []).
Proof.
  intros Hbol Hds Hdigits Hn Hndigits.
  unfold ata_error_count_re. cbn [Re.seq Re.run]. rewrite Hbol.
  rewrite run_lit, startswith_app, drop_chars_app.
  apply repeat_greedy_some; [exact Hdigits|destruct ds; [done|cbn; lia]|].
  rewrite run_lit, startswith_app, drop_chars_app.
  apply repeat_greedy_some; [exact Hndigits|destruct n; [done|cbn; lia]|].
  rewrite run_lit, startswith_app. unfold Re.accept. eauto.
Qed.

(** The value of [device_errors] is either the integer 0, or the text
    of the digits after an [Error ] that starts a line of the log and is
    followed by a space, a number in brackets (digits, at least one)
    and [ occurred]; it is never [None].  It is the integer 0 only when
    the log has no such line. *)
Theorem error_count_is_zero_or_digits error_log :
  (error_count_of error_log = PInt 0
   ∨ ∃ pre ds n rest,
       error_count_of error_log = PStr ds
       ∧ ds ≠ "" ∧ all_chars PyStr.isdigit ds = true
       ∧ n ≠ "" ∧ all_chars PyStr.isdigit n = true
       ∧ line_start pre
       ∧ error_log
         = pre +:+ "Error " +:+ ds +:+ " [" +:+ n +:+ "] occurred" +:+ rest)
  ∧ forall pre ds n rest,
      line_start pre ->
      ds ≠ "" -> all_chars PyStr.isdigit ds = true ->
      n ≠ "" -> all_chars PyStr.isdigit n = true ->
      error_log
        = pre +:+ "Error " +:+ ds +:+ " [" +:+ n +:+ "] occurred" +:+ rest ->
      error_count_of error_log ≠ PInt 0.
Proof.
  split.
  - unfold error_count_of, Re.re_search.
    destruct (Re.search_from ata_error_count_re None error_log)
      as [caps|] eqn:Hs; [|by left].
    right. apply search_from_inv in Hs as (pre & s & -> & Hrun).
    apply error_count_match in Hrun
      as (ds & n & rest & -> & Hbol & -> & Hds & Hdigits & Hn & Hndigits).
    exists pre, ds, n, rest. repeat split; try assumption.
    by apply at_bol_line_start.
  - intros pre ds n rest Hpre Hds Hdigits Hn Hndigits ->.
    unfold error_count_of, Re.re_search.
    destruct (search_from_some ata_error_count_re None pre
                ("Error " +:+ ds +:+ " [" +:+ n +:+ "] occurred" +:+ rest))
      as [caps Hs].
    { apply error_count_matches; try assumption.
      by apply at_bol_line_start. }
    rewrite Hs. apply search_from_inv in Hs as (a & b & _ & Hrun).
    apply error_count_match in Hrun as (ds' & _ & _ & -> & _).
    discriminate.
Qed.

(** ** The health self-assessment *)

(** The device counts as healthy exactly when some line of the output
    starts with [SMART] and ends with [PASSED] or [OK]. *)
Theorem self_assessment_passed_iff out :
  self_assessment_passed out = true
  <-> ∃ pre mid verdict post,
        out = pre +:+ "SMART" +:+ mid +:+ verdict +:+ post
        ∧ line_start pre ∧ all_chars Re.dot mid = true
        ∧ (verdict = "PASSED" ∨ verdict = "OK") ∧ line_end post.
Proof.
  unfold self_assessment_passed, Re.re_search. rewrite bool_decide_eq_true.
  split.
  - intros [caps (pre & s & -> & Hrun)%search_from_inv].
    unfold self_test_re in Hrun. cbn [Re.seq Re.run] in Hrun.
    destruct (Re.at_bol true (last_char None pre)) eqn:Hbol; [|discriminate].
    rewrite run_lit in Hrun.
    destruct (PyStr.startswith "SMART" s) eqn:Hs; [|discriminate].
    apply repeat_greedy_inv in Hrun as (mid & b & Hs1 & Hmid & _ & Hk).
    cbv beta in Hk. rewrite !run_lit in Hk.
    assert (Hb : ∃ verdict post,
               b = verdict +:+ post ∧ (verdict = "PASSED" ∨ verdict = "OK")
               ∧ Re.at_eol true post = true).
    { destruct (PyStr.startswith "PASSED" b) eqn:Hp.
      - destruct (Re.at_eol true (PyStr.drop_chars (String.length "PASSED") b))
          eqn:Heol.
        + eexists "PASSED", _. split; [by apply startswith_split|]. eauto.
        + destruct (PyStr.startswith "OK" b) eqn:Ho; [|discriminate].
          destruct (Re.at_eol true (PyStr.drop_chars (String.length "OK") b))
            eqn:Heol'; [|discriminate].
          eexists "OK", _. split; [by apply startswith_split|]. eauto.
      - destruct (PyStr.startswith "OK" b) eqn:Ho; [|discriminate].
        destruct (Re.at_eol true (PyStr.drop_chars (String.length "OK") b))
          eqn:Heol'; [|discriminate].
        eexists "OK", _. split; [by apply startswith_split|]. eauto. }
    destruct Hb as (verdict & post & -> & Hverdict & Heol).
    exists pre, mid, verdict, post. repeat split.
    + f_equal. rewrite (startswith_split _ _ Hs). f_equal. exact Hs1.
    + by apply at_bol_line_start.
    + exact Hmid.
    + exact Hverdict.
    + by apply at_eol_line_end.
  - intros (pre & mid & verdict & post & -> & Hpre & Hmid & Hverdict & Hpost).
    apply search_from_some.
    unfold self_test_re. cbn [Re.seq Re.run].
    rewrite (proj2 (at_bol_line_start pre) Hpre).
    rewrite run_lit, startswith_app, drop_chars_app.
    apply repeat_greedy_some; [exact Hmid|lia|].
    apply at_eol_line_end in Hpost. rewrite !run_lit.
    destruct Hverdict as [-> | ->].
    + rewrite startswith_app, drop_chars_app, Hpost. unfold Re.accept. eauto.
    + destruct (PyStr.startswith "PASSED" ("OK" +:+ post)) eqn:Hp;
        [discriminate Hp|].
      rewrite startswith_app, drop_chars_app, Hpost. unfold Re.accept. eauto.
Qed.

(** ** Information lines, read back *)

Lemma info_sep_inv (k : Re.cont) prev b caps res :
  Re.run info_sep k prev b caps = Some res ->
  ∃ sep r, separator sep ∧ b = sep +:+ r ∧ k (Some ":"%char) r caps = Some res.
Proof.
  destruct (sep_at b) eqn:Hsep.
  2:{ by rewrite info_sep_fails. }
  destruct b as [|c s]; [discriminate|]. cbn [sep_at] in Hsep.
  destruct (Ascii.eqb_spec ":"%char c) as [<-|Hne].
  - rewrite info_sep_colon. intros Hk. exists ":", s.
    split; [constructor|]. by split.
  - cbn [orb] in Hsep. apply andb_prop in Hsep as [Hc Hs].
    rewrite (startswith_split _ _ Hs).
    rewrite info_sep_is by exact Hc. intros Hk.
    exists (String c "is:"), (PyStr.drop_chars (String.length "is:") s).
    split; [by constructor|]. by split.
Qed.

Lemma all_chars_take_while_self p s : all_chars p (take_while p s) = true.
Proof.
  induction s as [|c s IH]; [reflexivity|]. cbn [take_while].
  destruct (p c) eqn:Hc; [|reflexivity]. cbn [all_chars]. by rewrite Hc.
Qed.

Lemma drop_while_idemp p s : drop_while p (drop_while p s) = drop_while p s.
Proof.
  induction s as [|c s IH]; [reflexivity|]. cbn [drop_while].
  destruct (p c) eqn:Hc; [exact IH|]. cbn [drop_while]. by rewrite Hc.
Qed.

Lemma device_info_groups_inv line k v :
  all_chars Re.dot line = true ->
  device_info_groups line = Some (k, v) ->
  k ≠ "" ∧ all_chars not_colon k = true ∧ drop_while PyStr.isspace v = v
  ∧ ∃ sep ws, separator sep ∧ all_chars PyStr.isspace ws = true
              ∧ line = k +:+ sep +:+ ws +:+ v.
Proof.
  intros Hline. unfold device_info_groups, Re.re_match.
  rewrite device_info_re_unfold. cbn [Re.run Re.at_bol].
  destruct (Re.repeat_lazy _ _ _ _ _ _) as [caps|] eqn:Hrun; [|discriminate].
  apply repeat_lazy_inv in Hrun as (a & b & -> & Ha & Hlen & Hk).
  cbv beta in Hk.
  apply info_sep_inv in Hk as (sep & r & Hsep & -> & Hk).
  rewrite !all_chars_app in Hline.
  apply andb_prop in Hline as [_ [_ Hr]%andb_prop].
  rewrite info_rest_run in Hk by exact Hr. injection Hk as <-.
  rewrite substring_before.
  cbn [Re.group Nat.eqb mbind option_bind default]. intros [= <- <-].
  split; [intros ->; cbn in Hlen; lia|]. split; [exact Ha|].
  split; [apply drop_while_idemp|].
  exists sep, (take_while PyStr.isspace r).
  split; [exact Hsep|]. split; [apply all_chars_take_while_self|].
  by rewrite take_drop_while.
Qed.

Lemma split_parts_without_separator sep s x :
  x ∈ PyStr.split sep s -> has_char sep x = false.
Proof.
  revert x. induction s as [|c s IH]; intros x; cbn [PyStr.split].
  - rewrite list_elem_of_singleton. by intros ->.
  - destruct (Ascii.eqb c sep) eqn:Hc.
    + rewrite elem_of_cons. intros [->|Hx]; [reflexivity|by apply IH].
    + destruct (PyStr.split sep s) as [|y ys]; cbn.
      * rewrite list_elem_of_singleton. intros ->. cbn [has_char].
        by rewrite Hc.
      * rewrite elem_of_cons. intros [->|Hx].
        -- cbn [has_char]. rewrite Hc. apply IH, list_elem_of_here.
        -- by apply IH, list_elem_of_further.
Qed.

Lemma all_dot_without_newline s :
  has_char Re.newline s = false -> all_chars Re.dot s = true.
Proof.
  induction s as [|c s IH]; [reflexivity|]. cbn [has_char all_chars].
  intros [Hc Hs]%orb_false_elim. unfold Re.dot at 1. rewrite Hc.
  by apply IH.
Qed.

(** Every pair [device_info] returns comes from a line after the
    three-line banner that reads key, separator, blanks, value: the key
    is not empty and has no colon, the separator is a colon or a blank
    followed by [is:], and the value does not start with a blank. *)
Theorem device_info_pairs_read_back out k v :
  (k, v) ∈ device_info_of out ->
  k ≠ "" ∧ has_char ":" k = false ∧ drop_while PyStr.isspace v = v
  ∧ ∃ sep ws, separator sep ∧ all_chars PyStr.isspace ws = true
              ∧ (k +:+ sep +:+ ws +:+ v)
                ∈ drop 3 (PyStr.split Re.newline (PyStr.strip out)).
Proof.
  unfold device_info_of. intros (line & Hin & Hline)%list_elem_of_omap.
  assert (Hdot : all_chars Re.dot line = true).
  { apply all_dot_without_newline.
    apply (split_parts_without_separator _ (PyStr.strip out)).
    rewrite <- (take_drop 3 (PyStr.split _ _)).
    apply elem_of_app. by right. }
  destruct (device_info_groups_inv line k v Hdot Hline)
    as (Hk & Hcolon & Hv & sep & ws & Hsep & Hws & ->).
  split; [exact Hk|]. split; [by apply has_char_all_not_colon|].
  split; [exact Hv|]. by exists sep, ws.
Qed.

Lemma device_info_pairs_read_back_witness :
  "Device Model" ≠ "" ∧ has_char ":" "Device Model" = false
  ∧ drop_while PyStr.isspace "ST1000DM003-1CH162" = "ST1000DM003-1CH162"
  ∧ ∃ sep ws, separator sep ∧ all_chars PyStr.isspace ws = true
              ∧ ("Device Model" +:+ sep +:+ ws +:+ "ST1000DM003-1CH162")
                ∈ drop 3 (PyStr.split Re.newline (PyStr.strip info_sda)).
Proof.
  apply (device_info_pairs_read_back info_sda).
  apply list_elem_of_In. vm_compute. tauto.
Defined.

(** ** SMART capabilities, from the output *)

(** Some line of the output after the three-line banner reads
    [SMART support], a separator, blanks and a value whose text before
    the first space is the given word. *)
Definition support_line (out word : string) : Prop :=
  ∃ sep ws v,
    separator sep ∧ all_chars PyStr.isspace ws = true
    ∧ drop_while PyStr.isspace v = v
    ∧ ("SMART support" +:+ sep +:+ ws +:+ v)
      ∈ drop 3 (PyStr.split Re.newline (PyStr.strip out))
    ∧ PyStr.split1_head " " v = word.

Lemma info_line_without_newline out line :
  line ∈ drop 3 (PyStr.split Re.newline (PyStr.strip out)) ->
  all_chars Re.dot line = true.
Proof.
  intros Hin. apply all_dot_without_newline.
  apply (split_parts_without_separator _ (PyStr.strip out)).
  rewrite <- (take_drop 3 (PyStr.split _ _)). apply elem_of_app. by right.
Qed.

Lemma support_pair_line out v :
  ("SMART support", v) ∈ device_info_of out
  <-> ∃ sep ws,
        separator sep ∧ all_chars PyStr.isspace ws = true
        ∧ drop_while PyStr.isspace v = v
        ∧ ("SMART support" +:+ sep +:+ ws +:+ v)
          ∈ drop 3 (PyStr.split Re.newline (PyStr.strip out)).
Proof.
  unfold device_info_of. rewrite list_elem_of_omap. split.
  - intros (line & Hin & Hline).
    pose proof (info_line_without_newline out line Hin) as Hdot.
    destruct (device_info_groups_inv line _ v Hdot Hline)
      as (_ & _ & Hv & sep & ws & Hsep & Hws & ->).
    by exists sep, ws.
  - intros (sep & ws & Hsep & Hws & Hv & Hin).
    exists ("SMART support" +:+ sep +:+ ws +:+ v). split; [exact Hin|].
    pose proof (info_line_without_newline out _ Hin) as Hdot.
    rewrite !all_chars_app in Hdot.
    apply andb_prop in Hdot as [_ [_ [Hwsdot Hvdot]%andb_prop]%andb_prop].
    unfold device_info_groups.
    rewrite (device_info_match "SMART support" sep ws v);
      [reflexivity|discriminate|reflexivity|exact Hsep|reflexivity
      |exact Hws|exact Hwsdot|exact Hvdot|exact Hv].
Qed.

Lemma capabilities_of_output out :
  ((capabilities_of (device_info_of out)).1 = true
   <-> support_line out "Available")
  ∧ ((capabilities_of (device_info_of out)).2 = true
     <-> support_line out "Enabled").
Proof.
  assert (Hword : forall word,
    (∃ v, ("SMART support", v) ∈ device_info_of out
          ∧ PyStr.split1_head " " v = word)
    <-> support_line out word).
  { intros word. unfold support_line. split.
    - intros (v & (sep & ws & Hsep & Hws & Hv & Hin)%support_pair_line & Hw).
      by exists sep, ws, v.
    - intros (sep & ws & v & Hsep & Hws & Hv & Hin & Hw).
      exists v. split; [|exact Hw]. apply support_pair_line.
      by exists sep, ws. }
  destruct (capabilities_of_pairs (device_info_of out)) as [Ha He].
  split.
  - rewrite Ha. apply Hword.
  - rewrite He. apply Hword.
Qed.

(** [device_smart_capabilities] answers ([True], [True]) for a device of
    type [nvme] without running anything.  For a device of another type
    whose [--info] query exits with status zero, it runs that query
    once, and reports SMART as available exactly when some line of the
    output after the three-line banner reads [SMART support], a colon or
    a blank followed by [is:], blanks, and a value whose text before the
    first space is [Available]; as enabled, likewise, with [Enabled]. *)
Theorem device_smart_capabilities_from_info smartctl device t log :
  type device = Some t ->
  (t = "nvme" ->
   device_smart_capabilities (Y:=Metric) smartctl device log
   = (log, ([], inr (true, true))))
  ∧ (t ≠ "nvme" ->
     exit_ok (smartctl log (info_query device t)) = true ->
     ∃ available enabled,
       device_smart_capabilities (Y:=Metric) smartctl device log
       = (log ++ [info_query device t], ([], inr (available, enabled)))
       ∧ (available = true
          <-> support_line (stdout (smartctl log (info_query device t)))
                "Available")
       ∧ (enabled = true
          <-> support_line (stdout (smartctl log (info_query device t)))
                "Enabled")).
Proof.
  intros Htype. split.
  - intros ->. unfold device_smart_capabilities.
    rewrite decide_True by exact Htype. reflexivity.
  - intros Hnvme Hexit.
    rewrite (device_smart_capabilities_eq smartctl device t log Htype Hnvme
               Hexit).
    destruct (capabilities_of_output
                (stdout (smartctl log (info_query device t)))) as [Ha He].
    destruct (capabilities_of _) as [available enabled].
    exists available, enabled. split; [reflexivity|]. by split.
Qed.

Lemma device_smart_capabilities_from_info_witness :
  ("sat" = "nvme" ->
   device_smart_capabilities (Y:=Metric) smartctl_sda sda []
   = ([], ([], inr (true, true))))
  ∧ ("sat" ≠ "nvme" ->
     exit_ok (smartctl_sda [] (info_query sda "sat")) = true ->
     ∃ available enabled,
       device_smart_capabilities (Y:=Metric) smartctl_sda sda []
       = ([] ++ [info_query sda "sat"], ([], inr (available, enabled)))
       ∧ (available = true
          <-> support_line (stdout (smartctl_sda [] (info_query sda "sat")))
                "Available")
       ∧ (enabled = true
          <-> support_line (stdout (smartctl_sda [] (info_query sda "sat")))
                "Enabled")).
Proof.
  apply (device_smart_capabilities_from_info smartctl_sda sda "sat" []).
  reflexivity.
Defined.

(** The drive of the example reports SMART as available and enabled. *)
Example sda_smart_available_and_enabled :
  device_smart_capabilities (Y:=Metric) smartctl_sda sda []
  = ([info_query sda "sat"], ([], inr (true, true))).
Proof. vm_compute. reflexivity. Qed.

(** ** NVMe lines and their colons *)

Fixpoint count_char (c : ascii) (s : string) : nat :=
  match s with
  | "" => 0
  | String x s' => (if Ascii.eqb x c then 1 else 0) + count_char c s'
  end.

Lemma length_split sep s :
  length (PyStr.split sep s) = S (count_char sep s).
Proof.
  induction s as [|c s IH]; [reflexivity|]. cbn [PyStr.split count_char].
  destruct (Ascii.eqb c sep).
  - cbn [length]. by rewrite IH.
  - destruct (PyStr.split sep s) as [|x xs]; [discriminate IH|exact IH].
Qed.

(** The unpacking [label, value = line.split(':')] raises [ValueError]
    exactly for the lines that do not have one colon: none, or two and
    more, as in a time of day. *)
Theorem nvme_line_needs_one_colon device line :
  nvme_line device line = raise ValueError <-> count_char ":" line ≠ 1%nat.
Proof.
  pose proof (length_split ":" line) as Hlen. unfold nvme_line.
  destruct (PyStr.split ":" line) as [|label [|value [|x xs]]];
    cbn [length] in Hlen.
  - discriminate Hlen.
  - split; [intros _; lia|reflexivity].
  - split; [|lia]. intros Hraise. exfalso.
    destruct (nvme_metric label value) as [[n v]|]; [|discriminate Hraise].
    unfold read_base_labels in Hraise.
    destruct (base_labels device) as [e|base] eqn:Hbase.
    + unfold base_labels in Hbase. destruct (type device); [discriminate|].
      injection Hbase as <-. discriminate Hraise.
    + discriminate Hraise.
  - split; [intros _; lia|reflexivity].
Qed.

(** ** Rows of the attribute table that are too short *)

Lemma short_row_entry row n :
  (length row <= 9)%nat -> row !! 1%nat = Some n ->
  dict_get "name"
    (dict_reader_row (take 9 SmartAttribute_fields) "raw_value" row)
  = Some (PStr n)
  ∧ dict_get "raw_value"
      (dict_reader_row (take 9 SmartAttribute_fields) "raw_value" row)
    = None.
Proof.
  intros Hlen Hn.
  destruct row as [|x0 [|x1 row]]; [discriminate Hn..|].
  injection Hn as ->.
  do 8 (destruct row as [|? row]; [split; reflexivity|]).
  cbn [length] in Hlen. lia.
Qed.

(** A row with a whitelisted name and fewer than ten fields has no
    [raw_value] entry: the loop raises [KeyError] on it, yields nothing
    for it and ends the collection of the device.  A row with a single
    field has no name to lower-case: [AttributeError]. *)
Theorem ata_short_row_raises device seen row n :
  (length row <= 9)%nat -> row !! 1%nat = Some n ->
  PyStr.lower n ∈ smart_attributes_whitelist ->
  ata_entry device seen
    (dict_reader_row (take 9 SmartAttribute_fields) "raw_value" row)
  = raise KeyError
  ∧ forall x,
      ata_entry device seen
        (dict_reader_row (take 9 SmartAttribute_fields) "raw_value" [x])
      = raise AttributeError.
Proof.
  intros Hlen Hn Hwl. split.
  - destruct (short_row_entry row n Hlen Hn) as [Hname Hraw].
    unfold ata_entry.
    rewrite (getitem_eq _ _ _ Hname), bind_ret_l.
    rewrite decide_False by (intros H; by apply H).
    rewrite getitem_missing; [reflexivity|].
    rewrite dict_get_set_ne by discriminate. exact Hraw.
  - intros x. reflexivity.
Qed.

Lemma ata_short_row_raises_witness :
  ata_entry sda ∅
    (dict_reader_row (take 9 SmartAttribute_fields) "raw_value"
       ["9"; "Power_On_Hours"; "0x0032"; "091"])
  = raise KeyError
  ∧ forall x,
      ata_entry sda ∅
        (dict_reader_row (take 9 SmartAttribute_fields) "raw_value" [x])
      = raise AttributeError.
Proof.
  apply (ata_short_row_raises sda ∅ ["9"; "Power_On_Hours"; "0x0032"; "091"]
           "Power_On_Hours").
  - cbn [length]. lia.
  - reflexivity.
  - apply whitelisted_by_computation. vm_compute. reflexivity.
Defined.

(** ** The attribute table, whatever the text *)

Lemma long_row_is_table_row row :
  (10 <= length row)%nat -> ∃ r, row = row_fields r.
Proof.
  intros Hlen.
  do 10 (destruct row as [|? row]; [cbn [length] in Hlen; lia|]).
  by eexists {| r_id := _; r_name := _; r_flag := _; r_value := _;
                r_worst := _; r_threshold := _; r_type := _; r_updated := _;
                r_when_failed := _; r_raw_first := _; r_raw_more := row |}.
Qed.

Lemma ata_short_row_quiet device seen row :
  (length row <= 9)%nat ->
  yielded (ata_entry device seen
             (dict_reader_row (take 9 SmartAttribute_fields) "raw_value" row))
  = []
  ∧ forall s,
      outcome (ata_entry device seen
                 (dict_reader_row (take 9 SmartAttribute_fields) "raw_value" row))
      = inr s -> s = seen.
Proof.
  intros Hlen.
  destruct row as [|x0 [|n row]].
  - split; [reflexivity|discriminate].
  - split; [reflexivity|discriminate].
  - destruct (short_row_entry (x0 :: n :: row) n Hlen eq_refl) as [Hname Hraw].
    unfold ata_entry.
    rewrite (getitem_eq _ _ _ Hname), bind_ret_l.
    destruct (decide (PyStr.lower n ∉ smart_attributes_whitelist)).
    + split; [reflexivity|]. by intros s [= <-].
    + rewrite getitem_missing.
      * split; [reflexivity|discriminate].
      * rewrite dict_get_set_ne by discriminate. exact Hraw.
Qed.

(** What the loop body does with any record of the reader: nothing, or
    the four metrics of a full row that passes the filters and was not
    seen. *)
Lemma ata_entry_cases device base seen row :
  base_labels device = inr base ->
  (yielded (ata_entry device seen
              (dict_reader_row (take 9 SmartAttribute_fields) "raw_value" row))
   = []
   ∧ forall s,
       outcome (ata_entry device seen
                  (dict_reader_row (take 9 SmartAttribute_fields) "raw_value"
                     row))
       = inr s -> s = seen)
  ∨ ∃ r, row = row_fields r ∧ passes r ∧ (lname r ∉ seen)
         ∧ ata_entry device seen
             (dict_reader_row (take 9 SmartAttribute_fields) "raw_value" row)
           = (row_metrics base r, inr ({[ lname r ]} ∪ seen)).
Proof.
  intros Hbase.
  destruct (decide (length row <= 9)%nat) as [Hshort|Hlong].
  { left. by apply ata_short_row_quiet. }
  destruct (long_row_is_table_row row) as [r ->]; [lia|].
  fold (row_entry r).
  destruct (decide (passes r ∧ lname r ∉ seen)) as [[Hpass Hnew]|Hskip].
  - right. exists r. split; [reflexivity|]. split; [exact Hpass|].
    split; [exact Hnew|]. by apply ata_entry_reported.
  - left. rewrite ata_entry_skipped by exact Hskip.
    split; [reflexivity|]. by intros s [= <-].
Qed.

Lemma ata_loop_whole_rows device base seen rows :
  base_labels device = inr base ->
  ∃ rs,
    yielded (for_each (ata_entry device) seen
               (map (dict_reader_row (take 9 SmartAttribute_fields) "raw_value")
                    rows))
    = concat (map (row_metrics base) rs)
    ∧ Forall (fun r => passes r ∧ (lname r ∉ seen) ∧ row_fields r ∈ rows) rs
    ∧ NoDup (map lname rs)
    ∧ sublist (map row_fields rs) rows.
Proof.
  intros Hbase. revert seen.
  induction rows as [|row rows IH]; intros seen.
  { exists []. split; [reflexivity|]. split; [constructor|].
    split; constructor. }
  cbn [map]. rewrite for_each_cons, yielded_bind.
  destruct (ata_entry_cases device base seen row Hbase)
    as [[Hnil Hseen]|(r & -> & Hpass & Hnew & Heq)].
  - rewrite Hnil.
    destruct (outcome (ata_entry device seen _)) as [e|s] eqn:Hout.
    + exists []. split; [reflexivity|]. split; [constructor|].
      split; [constructor|apply sublist_nil_l].
    + rewrite (Hseen s eq_refl).
      destruct (IH seen) as (rs & Hrs & Hall & Hnd & Hsub).
      exists rs. split; [exact Hrs|]. split; [|split; [exact Hnd|]].
      * eapply Forall_impl; [exact Hall|]. intros r (Hp & Hn & Hin).
        split; [exact Hp|]. split; [exact Hn|]. by apply list_elem_of_further.
      * by apply sublist_cons.
  - fold (row_entry r). unfold row_entry.
    rewrite Heq. unfold yielded at 1, outcome. cbn [fst snd].
    destruct (IH ({[ lname r ]} ∪ seen)) as (rs & Hrs & Hall & Hnd & Hsub).
    exists (r :: rs). split; [|split; [|split]]; [| | |by apply sublist_skip].
    + cbn [map concat]. by rewrite Hrs.
    + constructor.
      * split; [exact Hpass|]. split; [exact Hnew|]. apply list_elem_of_here.
      * eapply Forall_impl; [exact Hall|]. intros r' (Hp & Hr' & Hin).
        split; [exact Hp|]. split.
        -- intros H. apply Hr'. apply elem_of_union. by right.
        -- by apply list_elem_of_further.
    + cbn [map]. apply NoDup_cons. split; [|exact Hnd].
      intros (r' & Hname & Hr')%list_elem_of_fmap.
      rewrite Forall_forall in Hall. destruct (Hall r' Hr') as (_ & Hnot & _).
      apply Hnot. apply elem_of_union. left. apply elem_of_singleton.
      by symmetry.
Qed.

(** Whatever [smartctl --attributes] printed, the metrics of the ATA
    parser are whole groups of four, one group per reported row, in the
    order of the table: the reported rows are records of the table,
    taken in the order they have there, and the groups follow that
    order.  A reported row has ten fields or more, a whitelisted name
    and a raw value that starts with a digit, and no two reported rows
    have the same name. *)
Theorem ata_metrics_are_whole_rows device base attributes :
  base_labels device = inr base ->
  ∃ rs,
    yielded (ata_metrics_of device attributes)
    = concat (map (row_metrics base) rs)
    ∧ length (yielded (ata_metrics_of device attributes)) = (4 * length rs)%nat
    ∧ sublist (map row_fields rs) (ata_table attributes).1
    ∧ Forall (fun r => passes r ∧ row_fields r ∈ (ata_table attributes).1) rs
    ∧ NoDup (map lname rs).
Proof.
  intros Hbase. unfold ata_metrics_of.
  destruct (ata_table attributes) as [rows failed]. cbn [fst].
  rewrite yielded_bind. unfold dict_reader_entries.
  destruct (ata_loop_whole_rows device base ∅
              (filter (fun row => row ≠ []) rows) Hbase)
    as (rs & Hrs & Hall & Hnd & Hsub).
  assert (Htail : match outcome (for_each (ata_entry device) ∅
                                   (map (dict_reader_row
                                           (take 9 SmartAttribute_fields)
                                           "raw_value")
                                        (filter (fun row => row ≠ []) rows))) with
                  | inl _ => []
                  | inr _ => yielded (if failed then raise (Y:=Metric) CsvError
                                      else ret tt)
                  end = []).
  { destruct (outcome _); [reflexivity|]. by destruct failed. }
  rewrite Htail, app_nil_r, Hrs.
  exists rs. split; [reflexivity|]. split; [|split; [|split; [|exact Hnd]]].
  - clear. induction rs as [|r rs IH]; [reflexivity|].
    cbn [map concat]. rewrite length_app, IH. cbn [length row_metrics
      row_metrics_with]. lia.
  - etransitivity; [exact Hsub|]. apply sublist_filter.
  - eapply Forall_impl; [exact Hall|]. intros r (Hpass & _ & Hin).
    split; [exact Hpass|]. by apply list_elem_of_filter in Hin as [_ Hin].
Qed.

Lemma ata_metrics_are_whole_rows_witness :
  ∃ rs,
    yielded (ata_metrics_of sda attributes_two_hours)
    = concat (map (row_metrics sda_labels) rs)
    ∧ length (yielded (ata_metrics_of sda attributes_two_hours))
      = (4 * length rs)%nat
    ∧ sublist (map row_fields rs) (ata_table attributes_two_hours).1
    ∧ Forall (fun r => passes r
                       ∧ row_fields r ∈ (ata_table attributes_two_hours).1) rs
    ∧ NoDup (map lname rs).
Proof.
  apply (ata_metrics_are_whole_rows sda sda_labels attributes_two_hours).
  reflexivity.
Defined.

(** ** The csv reader on lines without quoting *)

(** A line the reader splits at its spaces and nowhere else: no double
    quote, no carriage return or newline inside, shorter than the field
    limit. *)
Definition plain_line (line : string) : Prop :=
  has_char Csv.quotechar line = false
  ∧ has_char Csv.cr line = false
  ∧ has_char Csv.lf line = false
  ∧ (N.of_nat (String.length line) < Csv.field_limit)%N.

(** The record of a plain line: none of its own for the empty line. *)
Definition fields_of (line : string) : list string :=
  match line with
  | "" => []
  | _ => PyStr.split " " line
  end.

(** The text read so far goes in front of the first field to come. *)
Definition prepend (f : string) (l : list string) : list string :=
  match l with
  | [] => [f]
  | x :: xs => (f +:+ x) :: xs
  end.

Lemma append_nil_r (s : string) : s +:+ "" = s.
Proof. induction s as [|c s IH]; [reflexivity|]. by rewrite append_cons, IH. Qed.

Lemma prepend_empty sep s :
  prepend "" (PyStr.split sep s) = PyStr.split sep s.
Proof.
  pose proof (length_split sep s) as Hlen.
  by destruct (PyStr.split sep s).
Qed.

Definition in_record (rd : Csv.reader) : Prop :=
  Csv.state rd = Csv.START_FIELD ∨ Csv.state rd = Csv.IN_FIELD.

Lemma process_line_plain rd line :
  in_record rd ->
  has_char Csv.quotechar line = false ->
  has_char Csv.cr line = false ->
  has_char Csv.lf line = false ->
  (N.of_nat (String.length (Csv.field rd) + String.length line)
   < Csv.field_limit)%N ->
  Csv.process_line rd line
  = Some {| Csv.state := Csv.START_RECORD; Csv.field := "";
            Csv.fields := Csv.fields rd
                            ++ prepend (Csv.field rd) (PyStr.split " " line) |}.
Proof.
  revert rd. induction line as [|c line IH]; intros rd Hrd Hq Hcr Hlf Hlen.
  - cbn [Csv.process_line PyStr.split prepend]. rewrite append_nil_r.
    unfold Csv.process_eol. by destruct Hrd as [-> | ->].
  - cbn [has_char] in Hq, Hcr, Hlf.
    apply orb_false_elim in Hq as [Hq Hq'].
    apply orb_false_elim in Hcr as [Hcr Hcr'].
    apply orb_false_elim in Hlf as [Hlf Hlf'].
    cbn [String.length] in Hlen.
    assert (Hstep : Csv.process_char rd c
              = Some (if Ascii.eqb c Csv.delimiter
                      then {| Csv.state := Csv.START_FIELD; Csv.field := "";
                              Csv.fields := Csv.fields rd ++ [Csv.field rd] |}
                      else {| Csv.state := Csv.IN_FIELD;
                              Csv.field := Csv.field rd +:+ String c "";
                              Csv.fields := Csv.fields rd |})).
    { unfold Csv.process_char, Csv.is_eol_char, Csv.parse_add_char.
      replace (Csv.field_limit <=? N.of_nat (String.length (Csv.field rd)))%N
        with false by (symmetry; apply N.leb_gt; lia).
      destruct Hrd as [-> | ->]; rewrite ?Hlf, ?Hcr, ?Hq; cbn [orb];
        by destruct (Ascii.eqb c Csv.delimiter). }
    cbn [Csv.process_line]. rewrite Hstep.
    cbn [PyStr.split]. change Csv.delimiter with " "%char.
    destruct (Ascii.eqb c " ").
    + rewrite IH; try assumption; [|by left|cbn [Csv.field String.length]; lia].
      cbn [Csv.fields Csv.field prepend]. rewrite append_nil_r.
      f_equal. f_equal. rewrite <- app_assoc. f_equal.
      cbn [app]. f_equal. apply prepend_empty.
    + rewrite IH; try assumption; [|by right|].
      * cbn [Csv.fields Csv.field]. f_equal. f_equal. f_equal.
        destruct (PyStr.split " " line) as [|x xs]; cbn [prepend].
        -- reflexivity.
        -- by rewrite append_assoc.
      * cbn [Csv.field]. rewrite length_append. cbn [String.length]. lia.
Qed.

Lemma process_line_plain_reset line :
  plain_line line ->
  Csv.process_line Csv.parse_reset line
  = Some {| Csv.state := Csv.START_RECORD; Csv.field := "";
            Csv.fields := fields_of line |}.
Proof.
  intros (Hq & Hcr & Hlf & Hlen). destruct line as [|c line]; [reflexivity|].
  cbn [has_char] in Hq, Hcr, Hlf.
  apply orb_false_elim in Hq as [Hq Hq'].
  apply orb_false_elim in Hcr as [Hcr Hcr'].
  apply orb_false_elim in Hlf as [Hlf Hlf'].
  cbn [String.length] in Hlen.
  cbn [Csv.process_line fields_of PyStr.split].
  unfold Csv.process_char, Csv.is_eol_char, Csv.parse_add_char.
  cbn [Csv.parse_reset Csv.state Csv.field String.length].
  rewrite Hlf, Hcr, Hq. cbn [orb]. change Csv.delimiter with " "%char.
  destruct (Ascii.eqb c " ").
  - rewrite process_line_plain
      by first [assumption | by left
               | cbn [Csv.set_state Csv.parse_save_field Csv.field
                      String.length]; lia].
    cbn [Csv.set_state Csv.parse_save_field Csv.fields Csv.field
         Csv.parse_reset app].
    f_equal. f_equal. f_equal. apply prepend_empty.
  - change (Csv.field_limit <=? N.of_nat 0)%N with false. cbn [fmap option_fmap
      option_map Csv.set_state Csv.state Csv.field Csv.fields].
    rewrite process_line_plain
      by first [assumption | by right
               | cbn [Csv.field append String.length] in *; lia].
    by destruct (PyStr.split " " line).
Qed.

Lemma reader_rows_plain lines :
  Forall plain_line lines ->
  Csv.reader_rows lines = (map fields_of lines, false).
Proof.
  unfold Csv.reader_rows. induction 1 as [|line lines Hline _ IH];
    [reflexivity|].
  cbn [Csv.read_records map]. rewrite process_line_plain_reset by exact Hline.
  cbn [Csv.state Csv.fields]. by rewrite IH.
Qed.

(** Over lines without quoting the reader never fails, and its records
    are the lines split at every single space; an empty line gives the
    empty record. *)
Theorem csv_reader_splits_plain_lines lines :
  Forall plain_line lines ->
  Csv.reader_rows lines = (map fields_of lines, false).
Proof. apply reader_rows_plain. Qed.

Lemma csv_reader_splits_plain_lines_witness :
  Csv.reader_rows ["1 Raw - 36 (Min/Max 24/40)"; ""; "x"]
  = (map fields_of ["1 Raw - 36 (Min/Max 24/40)"; ""; "x"], false).
Proof.
  apply (csv_reader_splits_plain_lines ["1 Raw - 36 (Min/Max 24/40)"; ""; "x"]).
  repeat constructor.
Defined.

(** ** The attribute table of a text without quoting *)

Section Preserved.

Variable c : ascii.

Lemma has_char_collapse_blanks b s :
  Ascii.eqb " " c = false -> has_char c s = false ->
  has_char c (PyStr.collapse_blanks_aux b s) = false.
Proof.
  intros Hc. revert b. induction s as [|x s IH]; intros b; [done|].
  cbn [has_char PyStr.collapse_blanks_aux].
  intros [Hx Hs]%orb_false_elim.
  destruct (PyStr.is_blank x); [destruct b|]; cbn [has_char];
    rewrite ?Hc, ?Hx; by apply IH.
Qed.

Lemma has_char_lstrip s :
  has_char c s = false -> has_char c (PyStr.lstrip s) = false.
Proof.
  induction s as [|x s IH]; [done|]. cbn [has_char PyStr.lstrip].
  intros [Hx Hs]%orb_false_elim.
  destruct (PyStr.isspace x); [by apply IH|].
  cbn [has_char]. by rewrite Hx, Hs.
Qed.

Lemma has_char_rstrip s :
  has_char c s = false -> has_char c (PyStr.rstrip s) = false.
Proof.
  induction s as [|x s IH]; [done|]. cbn [has_char PyStr.rstrip].
  intros [Hx Hs]%orb_false_elim. specialize (IH Hs).
  destruct (PyStr.rstrip s) as [|y r].
  - destruct (PyStr.isspace x); [reflexivity|]. cbn [has_char]. by rewrite Hx.
  - cbn [has_char] in *. by rewrite Hx, IH.
Qed.

Lemma has_char_strip s :
  has_char c s = false -> has_char c (PyStr.strip s) = false.
Proof. intros H. by apply has_char_rstrip, has_char_lstrip. Qed.

Lemma has_char_split sep s x :
  has_char c s = false -> x ∈ PyStr.split sep s -> has_char c x = false.
Proof.
  revert x. induction s as [|y s IH]; intros x; cbn [PyStr.split has_char].
  - intros _. rewrite list_elem_of_singleton. by intros ->.
  - intros [Hy Hs]%orb_false_elim.
    destruct (Ascii.eqb y sep).
    + rewrite elem_of_cons. intros [->|Hx]; [reflexivity|by apply IH].
    + destruct (PyStr.split sep s) as [|z zs]; cbn.
      * rewrite list_elem_of_singleton. intros ->. cbn [has_char].
        by rewrite Hy.
      * rewrite elem_of_cons. intros [->|Hx].
        -- cbn [has_char]. rewrite Hy. apply (IH z Hs), list_elem_of_here.
        -- by apply (IH x Hs), list_elem_of_further.
Qed.

End Preserved.

Lemma length_collapse_blanks b s :
  (String.length (PyStr.collapse_blanks_aux b s) <= String.length s)%nat.
Proof.
  revert b. induction s as [|x s IH]; intros b; [done|].
  cbn [PyStr.collapse_blanks_aux].
  destruct (PyStr.is_blank x); [destruct b|]; cbn [String.length].
  - specialize (IH true). lia.
  - specialize (IH true). lia.
  - specialize (IH false). lia.
Qed.

Lemma length_lstrip s : (String.length (PyStr.lstrip s) <= String.length s)%nat.
Proof.
  induction s as [|x s IH]; [done|]. cbn [PyStr.lstrip].
  destruct (PyStr.isspace x); cbn [String.length]; lia.
Qed.

Lemma length_rstrip s : (String.length (PyStr.rstrip s) <= String.length s)%nat.
Proof.
  induction s as [|x s IH]; [done|]. cbn [PyStr.rstrip].
  destruct (PyStr.rstrip s) as [|y r].
  - destruct (PyStr.isspace x); cbn [String.length]; lia.
  - cbn [String.length] in *. lia.
Qed.

Lemma length_strip s : (String.length (PyStr.strip s) <= String.length s)%nat.
Proof.
  unfold PyStr.strip. pose proof (length_rstrip (PyStr.lstrip s)).
  pose proof (length_lstrip s). lia.
Qed.

Lemma length_split_part sep s x :
  x ∈ PyStr.split sep s -> (String.length x <= String.length s)%nat.
Proof.
  revert x. induction s as [|y s IH]; intros x; cbn [PyStr.split].
  - rewrite list_elem_of_singleton. by intros ->.
  - destruct (Ascii.eqb y sep).
    + rewrite elem_of_cons. intros [->|Hx]; cbn [String.length]; [lia|].
      specialize (IH x Hx). lia.
    + destruct (PyStr.split sep s) as [|z zs]; cbn.
      * rewrite list_elem_of_singleton. intros ->. cbn [String.length]. lia.
      * rewrite elem_of_cons. intros [->|Hx]; cbn [String.length].
        -- specialize (IH z (list_elem_of_here _ _)). lia.
        -- specialize (IH x (list_elem_of_further _ _ _ Hx)). lia.
Qed.

(** The lines of the table as the reader gets them. *)
Definition table_lines (attributes : string) : list string :=
  map PyStr.strip
    (drop 7 (PyStr.split Re.newline
               (PyStr.strip (PyStr.collapse_blanks attributes)))).

Lemma table_lines_plain attributes :
  has_char Csv.quotechar attributes = false ->
  has_char Csv.cr attributes = false ->
  (N.of_nat (String.length attributes) < Csv.field_limit)%N ->
  Forall plain_line (table_lines attributes).
Proof.
  intros Hq Hcr Hlen. unfold table_lines.
  apply Forall_forall. intros line (x & -> & Hx)%list_elem_of_fmap.
  assert (Hin : x ∈ PyStr.split Re.newline
                      (PyStr.strip (PyStr.collapse_blanks attributes))).
  { rewrite <- (take_drop 7 (PyStr.split _ _)). apply elem_of_app. by right. }
  repeat split.
  - apply has_char_strip. eapply has_char_split; [|exact Hin].
    apply has_char_strip. by apply has_char_collapse_blanks.
  - apply has_char_strip. eapply has_char_split; [|exact Hin].
    apply has_char_strip. by apply has_char_collapse_blanks.
  - apply has_char_strip.
    by apply (split_parts_without_separator Re.newline
                (PyStr.strip (PyStr.collapse_blanks attributes))).
  - pose proof (length_strip x).
    pose proof (length_split_part _ _ _ Hin).
    pose proof (length_strip (PyStr.collapse_blanks attributes)).
    pose proof (length_collapse_blanks false attributes).
    unfold PyStr.collapse_blanks in *. lia.
Qed.

(** A generator that does not end with [csv.Error]. *)
Definition no_csv_error {Y A} (o : Out Y A) : Prop := outcome o ≠ inl CsvError.

Lemma no_csv_error_bind {Y A B} (m : Out Y A) (k : A -> Out Y B) :
  no_csv_error m -> (forall a, no_csv_error (k a)) -> no_csv_error (bind m k).
Proof.
  unfold no_csv_error. intros Hm Hk. rewrite outcome_bind.
  destruct (outcome m) as [e|a]; [|apply Hk].
  intros [= ->]. by apply Hm.
Qed.

Lemma no_csv_error_ret {Y A} (a : A) : no_csv_error (ret (Y:=Y) a).
Proof. unfold no_csv_error, outcome, ret. cbn [snd]. discriminate. Qed.

Lemma no_csv_error_yield {Y} (y : Y) : no_csv_error (yield y).
Proof. unfold no_csv_error, outcome, yield. cbn [snd]. discriminate. Qed.

Lemma no_csv_error_raise {Y A} (e : exn) :
  e ≠ CsvError -> no_csv_error (raise (Y:=Y) (A:=A) e).
Proof.
  unfold no_csv_error, outcome, raise. cbn [snd]. intros He [= ->].
  by apply He.
Qed.

Lemma no_csv_error_getitem {Y} key entry :
  no_csv_error (getitem (Y:=Y) key entry).
Proof.
  unfold getitem. destruct (dict_get key entry).
  - apply no_csv_error_ret.
  - apply no_csv_error_raise. discriminate.
Qed.

Lemma no_csv_error_read_base_labels {Y} device :
  no_csv_error (read_base_labels (Y:=Y) device).
Proof.
  unfold read_base_labels, base_labels. destruct (type device).
  - apply no_csv_error_ret.
  - apply no_csv_error_raise. discriminate.
Qed.

Lemma no_csv_error_for_each {Y X S} (body : S -> X -> Out Y S) st xs :
  (forall st x, no_csv_error (body st x)) ->
  no_csv_error (for_each body st xs).
Proof.
  intros Hbody. revert st. induction xs as [|x xs IH]; intros st.
  - apply no_csv_error_ret.
  - rewrite for_each_cons. apply no_csv_error_bind; [apply Hbody|].
    intros st'. apply IH.
Qed.

Lemma no_csv_error_ata_entry device seen entry :
  no_csv_error (ata_entry device seen entry).
Proof.
  unfold ata_entry.
  apply no_csv_error_bind; [apply no_csv_error_getitem|]. intros n.
  destruct n as [| | |n|];
    [ apply no_csv_error_raise; discriminate
    | apply no_csv_error_raise; discriminate
    | apply no_csv_error_raise; discriminate
    |
    | apply no_csv_error_raise; discriminate ].
  destruct (decide (PyStr.lower n ∉ smart_attributes_whitelist)) as [Hout|Hin];
    [apply no_csv_error_ret|].
  apply no_csv_error_bind; [apply no_csv_error_getitem|]. intros raw.
  destruct raw as [| | | |tokens];
    [ apply no_csv_error_raise; discriminate
    | apply no_csv_error_raise; discriminate
    | apply no_csv_error_raise; discriminate
    | apply no_csv_error_raise; discriminate
    | ].
  destruct (Re.re_match raw_value_re (PyStr.join " " tokens)) as [m|];
    [|apply no_csv_error_ret].
  apply no_csv_error_bind; [apply no_csv_error_getitem|]. intros t.
  destruct (decide (PyStr.lower n ∈ smart_attributes_whitelist
                    ∧ PyStr.lower n ∉ seen)) as [Hnew|Hold];
    [|apply no_csv_error_ret].
  apply no_csv_error_bind; [apply no_csv_error_read_base_labels|]. intros base.
  apply no_csv_error_bind; [|intros; apply no_csv_error_ret].
  apply no_csv_error_for_each. intros st col.
  apply no_csv_error_bind; [apply no_csv_error_getitem|]. intros v.
  apply no_csv_error_yield.
Qed.

(** For an output of [smartctl] without a double quote and without a
    carriage return, shorter than the field limit of the reader, the
    reader cannot fail: the records of the table are its lines, from the
    eighth on, each stripped and split at every space, and the parser
    does not end with [csv.Error]. *)
Theorem ata_table_without_quoting device attributes :
  has_char Csv.quotechar attributes = false ->
  has_char Csv.cr attributes = false ->
  (N.of_nat (String.length attributes) < Csv.field_limit)%N ->
  ata_table attributes = (map fields_of (table_lines attributes), false)
  ∧ outcome (ata_metrics_of device attributes) ≠ inl CsvError.
Proof.
  intros Hq Hcr Hlen.
  assert (Htable : ata_table attributes
                   = (map fields_of (table_lines attributes), false)).
  { unfold ata_table. fold (table_lines attributes).
    apply reader_rows_plain. by apply table_lines_plain. }
  split; [exact Htable|].
  unfold ata_metrics_of. rewrite Htable.
  apply no_csv_error_bind.
  - apply no_csv_error_for_each. intros st x. apply no_csv_error_ata_entry.
  - intros _. apply no_csv_error_ret.
Qed.

Lemma ata_table_without_quoting_witness :
  ata_table attributes_two_hours
  = (map fields_of (table_lines attributes_two_hours), false)
  ∧ outcome (ata_metrics_of sda attributes_two_hours) ≠ inl CsvError.
Proof.
  apply (ata_table_without_quoting sda attributes_two_hours).
  - reflexivity.
  - reflexivity.
  - vm_compute. reflexivity.
Defined.

(** ** Every metric belongs to a listed device *)

Lemma run_metrics_on_devices smartctl wakeup now devices log :
  Forall (fun m => ∃ d, d ∈ devices ∧ on_device d m)
         (yielded (gfor_each (collect_device_metrics smartctl wakeup now)
                     devices log).2).
Proof.
  revert log. induction devices as [|d ds IH]; intros log; [constructor|].
  change (gfor_each ?body (d :: ds))
    with (gbind (body d) (fun _ => gfor_each body ds)).
  rewrite gbind_yielded. apply Forall_app. split.
  - destruct (GStage_collect_device_metrics smartctl wakeup now d log)
      as [Ha _].
    eapply Forall_impl; [exact Ha|]. intros m [Hm _].
    exists d. split; [apply list_elem_of_here|exact Hm].
  - destruct (outcome _); [constructor|].
    eapply Forall_impl; [apply IH|]. intros m (d' & Hd' & Hm).
    exists d'. split; [by apply list_elem_of_further|exact Hm].
Qed.

(** Every metric of a run carries, under [device] and [disk], the path
    and the disk index of one of the devices of the scan listing,
    whatever else its labels hold and whatever smartctl printed. *)
Theorem metrics_carry_device_labels smartctl shlex_split parse_device_args
    wakeup now log m :
  m ∈ yielded (collect_disks_smart_metrics smartctl shlex_split
                 parse_device_args wakeup now log).2 ->
  ∃ d idx,
    d ∈ found_devices smartctl shlex_split parse_device_args log
    ∧ base_labels d = inr [("device", path d); ("disk", idx)]
    ∧ dict_get "device" (labels m) = Some (path d)
    ∧ dict_get "disk" (labels m) = Some idx.
Proof.
  unfold found_devices, collect_disks_smart_metrics.
  destruct (find_devices smartctl shlex_split parse_device_args log)
    as [log1 [devices stop]].
  pose proof (run_metrics_on_devices smartctl wakeup now devices log1) as Hall.
  destruct (gfor_each _ devices log1) as [log2 [metrics r]].
  unfold yielded in *. cbn [fst snd] in *. intros Hm.
  rewrite Forall_forall in Hall.
  destruct (Hall m Hm) as (d & Hd & base & Hbase & Hdev & Hdisk).
  destruct (base_labels_shape d base Hbase) as [idx ->].
  exists d, idx. split; [exact Hd|]. split; [exact Hbase|].
  split; [exact Hdev|exact Hdisk].
Qed.

Lemma metrics_carry_device_labels_witness :
  ∃ d idx,
    d ∈ found_devices smartctl_nvme split_words device_type_option []
    ∧ base_labels d = inr [("device", path d); ("disk", idx)]
    ∧ dict_get "device"
        (labels {| name := "temperature_celcius";
                   labels := [("device", "/dev/nvme0"); ("disk", "0")];
                   value := PStr " 32" |}) = Some (path d)
    ∧ dict_get "disk"
        (labels {| name := "temperature_celcius";
                   labels := [("device", "/dev/nvme0"); ("disk", "0")];
                   value := PStr " 32" |}) = Some idx.
Proof.
  apply (metrics_carry_device_labels smartctl_nvme split_words
           device_type_option false 1700000000 []).
  apply list_elem_of_In. vm_compute. tauto.
Defined.

(** ** The NVMe block, line by line *)

(** The metric of one line of the block, when its label is known. *)
Definition nvme_line_metric (base : dict string) (line : string)
    : option Metric :=
  match PyStr.split ":" line with
  | [label; value] =>
      match nvme_metric label value with
      | Some (n, v) => Some {| name := n; labels := base; value := PStr v |}
      | None => None
      end
  | _ => None
  end.

(** When every line after the sixth has exactly one colon, the NVMe
    parser ends normally and yields, in the order of the lines, one
    metric for each line whose label it knows; the other lines are
    passed over. *)
Theorem nvme_block_one_metric_per_known_line device base attributes :
  base_labels device = inr base ->
  Forall (fun line => count_char ":" line = 1%nat) (nvme_lines attributes) ->
  nvme_metrics_of device attributes
  = (omap (nvme_line_metric base) (nvme_lines attributes), inr tt).
Proof.
  intros Hbase. unfold nvme_metrics_of.
  induction 1 as [|line lines Hline _ IH]; [reflexivity|].
  assert (Hone : nvme_line device line
                 = (match nvme_line_metric base line with
                    | Some m => [m]
                    | None => []
                    end, inr tt)).
  { unfold nvme_line, nvme_line_metric.
    pose proof (length_split ":" line) as Hlen. rewrite Hline in Hlen.
    destruct (PyStr.split ":" line) as [|label [|value [|x xs]]];
      try discriminate Hlen.
    destruct (nvme_metric label value) as [[n v]|]; [|reflexivity].
    unfold read_base_labels. rewrite Hbase. reflexivity. }
  rewrite for_each_cons, Hone. unfold bind. rewrite IH.
  cbn [omap list_omap]. by destruct (nvme_line_metric base line).
Qed.

Lemma nvme_block_one_metric_per_known_line_witness :
  nvme_metrics_of nvme0 attributes_nvme_repeated
  = (omap (nvme_line_metric [("device", "/dev/nvme0"); ("disk", "0")])
          (nvme_lines attributes_nvme_repeated),
     inr tt).
Proof.
  apply (nvme_block_one_metric_per_known_line nvme0
           [("device", "/dev/nvme0"); ("disk", "0")] attributes_nvme_repeated).
  - reflexivity.
  - vm_compute. repeat constructor.
Defined.

(** ** The version of smartctl *)

Definition nonspace (c : ascii) : bool := negb (PyStr.isspace c).

(** A word: not empty, no whitespace inside. *)
Definition word (w : string) : Prop :=
  w ≠ "" ∧ all_chars nonspace w = true.

Lemma split_ws_aux_word cur c w t :
  all_chars nonspace (String c w) = true ->
  PyStr.split_ws_aux cur (String c w +:+ t)
  = PyStr.split_ws_aux (Some (default "" cur +:+ String c w)) t.
Proof.
  revert cur c. induction w as [|d w IH]; intros cur c Hw;
    cbn [all_chars] in Hw; apply andb_prop in Hw as [Hc Hw];
    unfold nonspace in Hc; apply negb_true_iff in Hc;
    rewrite append_cons; cbn [PyStr.split_ws_aux]; rewrite Hc.
  - change ("" +:+ t) with t. by destruct cur.
  - rewrite (IH _ d Hw). f_equal. f_equal.
    destruct cur as [x|]; unfold id; cbn [from_option]; [|reflexivity].
    by rewrite append_assoc.
Qed.

Lemma split_ws_aux_after_word w t :
  t = "" ∨ (∃ c r, t = String c r ∧ PyStr.isspace c = true) ->
  ∃ rest, PyStr.split_ws_aux (Some w) t = w :: rest.
Proof.
  intros [->|(c & r & -> & Hc)]; [by exists []|].
  cbn [PyStr.split_ws_aux]. rewrite Hc. eauto.
Qed.

Lemma split_first_part sep s :
  ∃ xs, PyStr.split sep s = PyStr.split1_head sep s :: xs.
Proof.
  induction s as [|c s [xs IH]]; [by exists []|].
  cbn [PyStr.split PyStr.split1_head]. destruct (Ascii.eqb c sep); [eauto|].
  rewrite IH. eauto.
Qed.

Lemma split1_head_app sep a b :
  has_char sep a = false ->
  PyStr.split1_head sep (a +:+ b) = a +:+ PyStr.split1_head sep b.
Proof.
  induction a as [|c a IH]; [reflexivity|]. cbn [has_char].
  intros [Hc Ha]%orb_false_elim. rewrite !append_cons.
  cbn [PyStr.split1_head]. rewrite Hc. by rewrite IH.
Qed.

Lemma word_without_newline w :
  all_chars nonspace w = true -> has_char Re.newline w = false.
Proof.
  induction w as [|c w IH]; [reflexivity|]. cbn [all_chars has_char].
  intros [Hc Hw]%andb_prop. rewrite (IH Hw), orb_false_r.
  destruct (Ascii.eqb_spec c Re.newline) as [->|]; [discriminate Hc|reflexivity].
Qed.

Lemma split1_head_blank_or_empty sep t :
  t = "" ∨ (∃ c r, t = String c r ∧ PyStr.isspace c = true) ->
  PyStr.split1_head sep t = ""
  ∨ ∃ c r, PyStr.split1_head sep t = String c r ∧ PyStr.isspace c = true.
Proof.
  intros [->|(c & r & -> & Hc)]; [by left|].
  cbn [PyStr.split1_head]. destruct (Ascii.eqb c sep); [by left|].
  right. eauto.
Qed.

(** [smart_ctl_version] returns the second word of the first line of
    what [smartctl -V] printed. *)
Theorem smart_ctl_version_second_word smartctl log w v tail :
  exit_ok (smartctl log ["-V"]) = true ->
  stdout (smartctl log ["-V"]) = w +:+ " " +:+ v +:+ tail ->
  word w -> word v ->
  tail = "" ∨ (∃ c r, tail = String c r ∧ PyStr.isspace c = true) ->
  smart_ctl_version (Y:=string) smartctl log
  = (log ++ [["-V"]], ([], inr v)).
Proof.
  intros Hexit Hout [Hw Hwchars] [Hv Hvchars] Htail.
  unfold smart_ctl_version. change [Some "-V"] with (map Some ["-V"]).
  erewrite gbind_eq by (apply smart_ctl_eq; by rewrite Hexit).
  rewrite Hout.
  destruct (split_first_part Re.newline (w +:+ " " +:+ v +:+ tail))
    as [lines ->].
  rewrite split1_head_app by (by apply word_without_newline).
  change (" " +:+ v +:+ tail) with (String " " (v +:+ tail)).
  cbn [PyStr.split1_head].
  change (Ascii.eqb " " Re.newline) with false. cbv iota.
  rewrite split1_head_app by (by apply word_without_newline).
  unfold PyStr.split_ws.
  destruct w as [|c w]; [done|]. rewrite split_ws_aux_word by exact Hwchars.
  cbn [from_option PyStr.split_ws_aux].
  change (PyStr.isspace " ") with true. cbv iota.
  destruct v as [|d v]; [done|]. rewrite split_ws_aux_word by exact Hvchars.
  cbn [from_option].
  destruct (split_ws_aux_after_word ("" +:+ String d v)
              (PyStr.split1_head Re.newline tail)) as [rest ->].
  { by apply split1_head_blank_or_empty. }
  reflexivity.
Qed.

Lemma smart_ctl_version_second_word_witness :
  smart_ctl_version (Y:=string) (smartctl_v72 smartctl_silent) []
  = ([] ++ [["-V"]], ([], inr "7.2")).
Proof.
  apply (smart_ctl_version_second_word (smartctl_v72 smartctl_silent) []
           "smartctl" "7.2"
           (PyStr.drop_chars 12 version_banner)).
  - reflexivity.
  - reflexivity.
  - split; [discriminate|reflexivity].
  - split; [discriminate|reflexivity].
  - right. eexists _, _. split; reflexivity.
Defined.

(** ** Runs of blanks *)

(** Two spaces side by side somewhere in a text. *)
Fixpoint adjacent_spaces (s : string) : bool :=
  match s with
  | "" => false
  | String c s' =>
      (Ascii.eqb c " " && match s' with
                          | String d _ => Ascii.eqb d " "
                          | "" => false
                          end)
      || adjacent_spaces s'
  end.

(** A text without its TABs and SPACEs. *)
Fixpoint without_blanks (s : string) : string :=
  match s with
  | "" => ""
  | String c s' =>
      if PyStr.is_blank c then without_blanks s'
      else String c (without_blanks s')
  end.

Definition starts_with_space (s : string) : bool :=
  match s with
  | String c _ => Ascii.eqb c " "
  | "" => false
  end.

Lemma not_blank_not_space c : PyStr.is_blank c = false -> Ascii.eqb c " " = false.
Proof. unfold PyStr.is_blank. by intros [_ H]%orb_false_elim. Qed.

Lemma not_blank_not_tab c :
  PyStr.is_blank c = false -> Ascii.eqb c "009" = false.
Proof. unfold PyStr.is_blank. by intros [H _]%orb_false_elim. Qed.

Lemma collapse_blanks_in_run s :
  starts_with_space (PyStr.collapse_blanks_aux true s) = false.
Proof.
  induction s as [|c s IH]; [reflexivity|]. cbn [PyStr.collapse_blanks_aux].
  destruct (PyStr.is_blank c) eqn:Hc; [exact IH|].
  cbn [starts_with_space]. by apply not_blank_not_space.
Qed.

Lemma collapse_blanks_no_adjacent b s :
  adjacent_spaces (PyStr.collapse_blanks_aux b s) = false.
Proof.
  revert b. induction s as [|c s IH]; intros b; [reflexivity|].
  cbn [PyStr.collapse_blanks_aux].
  destruct (PyStr.is_blank c) eqn:Hc; [destruct b|].
  - apply IH.
  - cbn [adjacent_spaces]. rewrite IH, orb_false_r.
    pose proof (collapse_blanks_in_run s) as Hrun.
    unfold starts_with_space in Hrun.
    destruct (PyStr.collapse_blanks_aux true s); [reflexivity|].
    by rewrite Hrun.
  - cbn [adjacent_spaces]. rewrite IH, orb_false_r.
    by rewrite (not_blank_not_space c Hc).
Qed.

Lemma collapse_blanks_no_tab b s :
  has_char "009" (PyStr.collapse_blanks_aux b s) = false.
Proof.
  revert b. induction s as [|c s IH]; intros b; [reflexivity|].
  cbn [PyStr.collapse_blanks_aux].
  destruct (PyStr.is_blank c) eqn:Hc; [destruct b|]; cbn [has_char].
  - apply IH.
  - apply IH.
  - by rewrite (not_blank_not_tab c Hc), IH.
Qed.

Lemma collapse_blanks_keeps_others b s :
  without_blanks (PyStr.collapse_blanks_aux b s) = without_blanks s.
Proof.
  revert b. induction s as [|c s IH]; intros b; [reflexivity|].
  cbn [PyStr.collapse_blanks_aux without_blanks].
  destruct (PyStr.is_blank c) eqn:Hc; [destruct b|].
  - apply IH.
  - cbn [without_blanks]. change (PyStr.is_blank " ") with true. apply IH.
  - cbn [without_blanks]. by rewrite Hc, IH.
Qed.

(** After the substitution of [[\t\x20]+] by one space the text has no
    TAB and no two spaces side by side, its other characters are
    unchanged and in place, and substituting again changes nothing. *)
Theorem collapse_blanks_single_spaces s :
  has_char "009" (PyStr.collapse_blanks s) = false
  ∧ adjacent_spaces (PyStr.collapse_blanks s) = false
  ∧ without_blanks (PyStr.collapse_blanks s) = without_blanks s
  ∧ PyStr.collapse_blanks (PyStr.collapse_blanks s) = PyStr.collapse_blanks s.
Proof.
  unfold PyStr.collapse_blanks.
  split; [apply collapse_blanks_no_tab|].
  split; [apply collapse_blanks_no_adjacent|].
  split; [apply collapse_blanks_keeps_others|].
  assert (Hidem : forall b t,
    has_char "009" t = false -> adjacent_spaces t = false ->
    (b = true -> starts_with_space t = false) ->
    PyStr.collapse_blanks_aux b t = t).
  { intros b t. revert b. induction t as [|c t IH]; intros b Htab Hadj Hb;
      [reflexivity|].
    cbn [has_char adjacent_spaces] in Htab, Hadj.
    apply orb_false_elim in Htab as [Hc Htab].
    apply orb_false_elim in Hadj as [Hcd Hadj].
    cbn [PyStr.collapse_blanks_aux]. unfold PyStr.is_blank. rewrite Hc.
    cbn [orb]. destruct (Ascii.eqb c " ") eqn:Hsp.
    - destruct b.
      + cbn [starts_with_space] in Hb. rewrite Hsp in Hb.
        by specialize (Hb eq_refl).
      + apply Ascii.eqb_eq in Hsp as ->. f_equal.
        apply IH; try assumption. intros _. cbn [andb] in Hcd.
        by destruct t.
    - f_equal. apply IH; try assumption. discriminate. }
  apply Hidem.
  - apply collapse_blanks_no_tab.
  - apply collapse_blanks_no_adjacent.
  - discriminate.
Qed.
